(** * Weather dashboard: the analysis engine of [src/analysis.py]

    A shallow embedding of the analysis functions of the dashboard
    ([get_monthly_records], [rolling_mean], [estimate_trend],
    [_consecutive_ranges], [detect_heatwaves], [detect_cold_spells],
    [detect_droughts]) and the properties their specification states.

    Conventions of the embedding.
    - A float is a rational or NaN: [float := option Q], [None] being NaN.
      Rounding is not modelled.
    - A pandas [Timestamp] is an integer instant.  The data is daily, so the
      instant is the proleptic Gregorian day number (as Python's
      [date.toordinal]).
    - A Python exception is a value of [exn]; a function that may raise
      returns [result].
    - The numerical kernels of numpy, pandas and scipy that the module calls
      ([np.nanpercentile], [Series.resample(..).mean()], [np.polyfit],
      [scipy.stats.linregress]) are fields of the class [Kernels]; the
      functions of the module are written over an arbitrary instance, and
      [reference_kernels] is a rational instance used to run them.

    The development also covers [timeseries_plot] and [overlay_anomalies] of
    [src/visualization.py], over a record of what they put in a Plotly
    figure, and [_try_read_csv] and [load_cambridge_data] of
    [src/data_loader.py], over what pandas and the file system return. *)

From Stdlib Require Import String DecimalString.
From Stdlib Require Import List Bool Arith ZArith QArith Qround Lia Lqa Sorted Permutation.
Import ListNotations.

Close Scope Q_scope.

(** ** Exceptions and results *)

Inductive exn : Type :=
| KeyError (key : string)
| ValueError (msg : string)
| IndexError.

Inductive result (A : Type) : Type :=
| Ok (a : A)
| Raise (e : exn).

Arguments Ok {A} a.
Arguments Raise {A} e.

Definition bind {A B : Type} (r : result A) (k : A -> result B) : result B :=
  match r with
  | Ok a => k a
  | Raise e => Raise e
  end.

Declare Scope result_scope.
Delimit Scope result_scope with result.
Notation "x <- c ;; k" := (bind c (fun x => k))
  (at level 61, c at next level, right associativity) : result_scope.

(** ** The run detector *)

Module RunDetector.

(** [np.where(mask)[0]]: the positions that hold [True], in ascending
    order.  [where_from i] numbers the positions from [i]. *)
Fixpoint where_from (i : nat) (mask : list bool) : list nat :=
  match mask with
  | [] => []
  | b :: mask' =>
      if b then i :: where_from (S i) mask' else where_from (S i) mask'
  end.

Definition where_ (mask : list bool) : list nat := where_from 0 mask.

(** [mask.any()] *)
Definition any (mask : list bool) : bool := existsb (fun b => b) mask.

(** The body of [for i in range(1, len(idx))]: [prev] is [idx[i - 1]], the
    head of [rest] is [idx[i]]. *)
Fixpoint ranges_loop (prev : nat) (rest : list nat) (starts ends : list nat)
  : list nat * list nat :=
  match rest with
  | [] => (starts, ends)
  | x :: rest' =>
      if negb (x =? prev + 1)
      then ranges_loop x rest' (starts ++ [x]) (ends ++ [prev])
      else ranges_loop x rest' starts ends
  end.

(** [_consecutive_ranges(mask)].  After the [mask.any()] test [idx] is not
    empty ([any_where]), so [idx[0]] and [idx[-1]] exist. *)
Definition _consecutive_ranges (mask : list bool) : list (nat * nat) :=
  if negb (any mask) then []
  else
    let idx := where_ mask in
    match idx with
    | [] => []
    | idx0 :: rest =>
        let '(starts, ends) := ranges_loop idx0 rest [idx0] [] in
        let ends := ends ++ [last idx idx0] in
        combine starts ends
    end.

(** The mask that a list of ranges covers: position [k] is [True] when some
    range holds it. *)
Definition covers (ranges : list (nat * nat)) (k : nat) : bool :=
  existsb (fun r => (fst r <=? k) && (k <=? snd r)) ranges.

Definition mask_of_ranges (n : nat) (ranges : list (nat * nat)) : list bool :=
  map (covers ranges) (seq 0 n).

End RunDetector.

Import RunDetector.

(** ** Floats *)

Definition float : Type := option Q.

Definition nan : float := None.

Definition isnan (x : float) : bool :=
  match x with
  | None => true
  | Some _ => false
  end.

Definition Qlt_bool (x y : Q) : bool := negb (Qle_bool y x).

(** IEEE comparisons: a comparison with NaN on either side is [False]. *)
Definition float_gt (x y : float) : bool :=
  match x, y with
  | Some a, Some b => Qlt_bool b a
  | _, _ => false
  end.

Definition float_lt (x y : float) : bool :=
  match x, y with
  | Some a, Some b => Qlt_bool a b
  | _, _ => false
  end.

Definition float_le (x y : float) : bool :=
  match x, y with
  | Some a, Some b => Qle_bool a b
  | _, _ => false
  end.

Definition Qsum (l : list Q) : Q := fold_left Qplus l 0%Q.

(** The mean of a window; NaN when the window holds no observation. *)
Definition mean (l : list Q) : float :=
  match l with
  | [] => nan
  | _ :: _ => Some (Qsum l / inject_Z (Z.of_nat (length l)))%Q
  end.

(** ** Calendar *)

Module Calendar.
Local Open Scope Z_scope.

(** A timestamp at day resolution: the proleptic Gregorian ordinal of the
    day, 0001-01-01 being day 1. *)
Definition Timestamp : Type := Z.

Definition is_leap (y : Z) : bool :=
  (y mod 4 =? 0) && (negb (y mod 100 =? 0) || (y mod 400 =? 0)).

Definition days_in_month (y m : Z) : Z :=
  if m =? 2 then (if is_leap y then 29 else 28)
  else if (m =? 4) || (m =? 6) || (m =? 9) || (m =? 11) then 30
  else 31.

Definition days_before_year (y : Z) : Z :=
  let y1 := y - 1 in
  y1 * 365 + y1 / 4 - y1 / 100 + y1 / 400.

Definition days_before_month (y m : Z) : Z :=
  fold_left Z.add
    (map (fun k => days_in_month y (Z.of_nat k)) (seq 1 (Z.to_nat (m - 1)))) 0.

Definition ymd2ord (y m d : Z) : Z :=
  days_before_year y + days_before_month y m + d.

(** [pd.Timestamp(year=y, month=m, day=d)]: a month or a day out of range
    raises [ValueError]. *)
Definition Timestamp_ymd (y m d : Z) : result Timestamp :=
  if (1 <=? m) && (m <=? 12) && (1 <=? d) && (d <=? days_in_month y m)
  then Ok (ymd2ord y m d)
  else Raise (ValueError "month or day out of range").

(** [pd.Timestamp(year=y, month=m, day=1) + pd.offsets.MonthEnd(0)]: the
    last day of that month. *)
Definition month_end (y m : Z) : result Timestamp :=
  Timestamp_ymd y m (days_in_month y m).

(** The [.year] of a timestamp. *)
Definition year_of (t : Timestamp) : Z :=
  let n := t - 1 in
  let n400 := n / 146097 in
  let n := n mod 146097 in
  let n100 := n / 36524 in
  let n := n mod 36524 in
  let n4 := n / 1461 in
  let n := n mod 1461 in
  let n1 := n / 365 in
  let y := n400 * 400 + 1 + n100 * 100 + n4 * 4 + n1 in
  if (n1 =? 4) || (n100 =? 4) then y - 1 else y.

End Calendar.

Import Calendar.

(** ** Series and data frames *)

(** A series: the index and the values, position by position. *)
Definition Series : Type := list (Timestamp * float).

Definition index {V : Type} (s : list (Timestamp * V)) : list Timestamp :=
  map fst s.

Definition values {V : Type} (s : list (Timestamp * V)) : list V :=
  map snd s.

(** A data frame: the column labels, and a row per index entry that gives
    the cell of each column. *)
Record DataFrame : Type := {
  columns : list string;
  rows : list (Timestamp * (string -> float))
}.

(** [var in df.columns] *)
Definition has_column (df : DataFrame) (var : string) : bool :=
  existsb (String.eqb var) (columns df).

(** [df[var]]: [KeyError] when the label is not a column. *)
Definition getitem (df : DataFrame) (var : string) : result Series :=
  if has_column df var
  then Ok (map (fun r => (fst r, snd r var)) (rows df))
  else Raise (KeyError var).

(** [s.dropna()]: the entries that are left hold a number. *)
Fixpoint dropna (s : Series) : list (Timestamp * Q) :=
  match s with
  | [] => []
  | (t, Some v) :: s' => (t, v) :: dropna s'
  | (_, None) :: s' => dropna s'
  end.

(** [s.fillna(0)] *)
Definition fillna0 (s : Series) : list (Timestamp * Q) :=
  map (fun p => (fst p, match snd p with Some v => v | None => 0%Q end)) s.

(** A series of numbers seen as a series of floats. *)
Definition to_series (s : list (Timestamp * Q)) : Series :=
  map (fun p => (fst p, Some (snd p))) s.

(** [index.is_monotonic_increasing] *)
Fixpoint is_monotonic_increasing (l : list Timestamp) : bool :=
  match l with
  | [] => true
  | t :: l' =>
      match l' with
      | [] => true
      | u :: _ => (t <=? u)%Z && is_monotonic_increasing l'
      end
  end.

(** ** The kernels of numpy, pandas and scipy *)

Class Kernels : Type := {
  (** [np.nanpercentile(a, q)] on the entries of [a] that are not NaN. *)
  nanpercentile : list Q -> Q -> result float;
  (** [s.resample(rule).mean()] on a series without NaN: a bucket per
      period, NaN for a period without data. *)
  resample_mean : string -> list (Timestamp * Q) -> result Series;
  (** [np.polyfit(x, y, 1)[0]] *)
  polyfit_slope : list Q -> list Q -> result float;
  (** [scipy.stats.linregress(x, y)] as (slope, pvalue); [None] when scipy
      could not be imported. *)
  stats : option (list Q -> list Q -> result (float * float));
  (** [s.rolling(f"{w}D").mean()] where the window is not positive or the
      index is not ascending. *)
  rolling_other : Z -> list (Timestamp * Q) -> result Series
}.

(** ** The analysis functions *)

Section Analysis.

Context {K : Kernels}.

Local Open Scope result_scope.

(** *** Records *)

Record MonthlyRecord : Type := {
  max_value : Q;
  max_date : Timestamp;
  min_value : Q;
  min_date : Timestamp
}.

(** [series.idxmax()]: the label of the first occurrence of the maximum.
    [best] is the best entry so far; a later entry replaces it only when it
    is strictly larger. *)
Fixpoint argmax (best : Timestamp * Q) (rest : list (Timestamp * Q))
  : Timestamp * Q :=
  match rest with
  | [] => best
  | p :: rest' =>
      if Qlt_bool (snd best) (snd p) then argmax p rest' else argmax best rest'
  end.

Fixpoint argmin (best : Timestamp * Q) (rest : list (Timestamp * Q))
  : Timestamp * Q :=
  match rest with
  | [] => best
  | p :: rest' =>
      if Qlt_bool (snd p) (snd best) then argmin p rest' else argmin best rest'
  end.

Definition idxmax (p0 : Timestamp * Q) (rest : list (Timestamp * Q))
  : Timestamp := fst (argmax p0 rest).

Definition idxmin (p0 : Timestamp * Q) (rest : list (Timestamp * Q))
  : Timestamp := fst (argmin p0 rest).

(** [series.loc[label]] on an index without duplicate labels: the value
    stored under the label, [KeyError] when there is none. *)
Fixpoint loc (series : list (Timestamp * Q)) (label : Timestamp) : result Q :=
  match series with
  | [] => Raise (KeyError "label")
  | (t, v) :: series' => if (t =? label)%Z then Ok v else loc series' label
  end.

(** [get_monthly_records(df, var)]; [None] is the empty data frame. *)
Definition get_monthly_records (df : DataFrame) (var : string)
  : result (option MonthlyRecord) :=
  if negb (has_column df var) then Raise (KeyError var)
  else
    s <- getitem df var ;;
    let series := dropna s in
    match series with
    | [] => Ok None
    | p0 :: rest =>
        let max_idx := idxmax p0 rest in
        let min_idx := idxmin p0 rest in
        vmax <- loc series max_idx ;;
        vmin <- loc series min_idx ;;
        Ok (Some {| max_value := vmax; max_date := max_idx;
                    min_value := vmin; min_date := min_idx |})
    end.

(** *** Rolling mean *)

(** The trailing window of [s.rolling(f"{w}D")] (closed on the right, at
    least one observation asked for) on an ascending index: at the row with
    label [t], the rows up to it whose label is later than [t - w]
    days.  [seen] holds the rows before [rest]. *)
Fixpoint rolling_loop (w : Z) (seen rest : list (Timestamp * Q)) : Series :=
  match rest with
  | [] => []
  | (t, v) :: rest' =>
      let seen' := seen ++ [(t, v)] in
      let window := filter (fun p => (t - w <? fst p)%Z) seen' in
      (t, mean (values window)) :: rolling_loop w seen' rest'
  end.

(** The window [f"{w}D"] as pandas holds it: a number of nanoseconds in
    a signed 64-bit integer. *)
Definition window_nanos (w : Z) : Z := (w * 86400 * 1000000000)%Z.

Definition int64_max : Z := (2 ^ 63 - 1)%Z.

(** [s.rolling(f"{w}D").mean()].  A window that does not fit in 64 bits
    (106752 days or more) raises [OutOfBoundsTimedelta], a [ValueError]. *)
Definition rolling_D_mean (w : Z) (s : list (Timestamp * Q)) : result Series :=
  if (1 <=? w)%Z && is_monotonic_increasing (index s)
  then
    if (window_nanos w <=? int64_max)%Z
    then Ok (rolling_loop w [] s)
    else Raise (ValueError "OutOfBoundsTimedelta")
  else rolling_other w s.

(** [rolling_mean(df, var, window_days)] *)
Definition rolling_mean (df : DataFrame) (var : string) (window_days : Z)
  : result Series :=
  s0 <- getitem df var ;;
  let s := dropna s0 in
  match s with
  | [] => Ok (to_series s)
  | _ :: _ => rolling_D_mean window_days s
  end.

(** *** Trend *)

(** The buckets that hold data: [years[mask]] and [vals[mask]]. *)
Fixpoint valid_points (ser : Series) : list (Q * Q) :=
  match ser with
  | [] => []
  | (t, Some v) :: ser' => (inject_Z (year_of t), v) :: valid_points ser'
  | (_, None) :: ser' => valid_points ser'
  end.

(** [mask.sum()] for [mask = ~np.isnan(vals)] *)
Definition mask_sum (ser : Series) : nat :=
  List.length (filter (fun p => negb (isnan (snd p))) ser).

(** [estimate_trend(df, var, resample_rule)]; the [option] of a component
    is Python's [None]. *)
Definition estimate_trend (df : DataFrame) (var : string) (resample_rule : string)
  : result (option float * option float) :=
  if negb (has_column df var) then Raise (KeyError var)
  else
    s <- getitem df var ;;
    ser <- resample_mean resample_rule (dropna s) ;;
    if (List.length ser <? 2)%nat then Ok (None, None)
    else if (mask_sum ser <? 2)%nat then Ok (None, None)
    else
      let x := map fst (valid_points ser) in
      let y := map snd (valid_points ser) in
      slope <- polyfit_slope x y ;;
      match stats with
      | None => Ok (Some slope, None)
      | Some linregress =>
          r <- linregress x y ;;
          Ok (Some (fst r), Some (snd r))
      end.

(** *** Heatwaves and cold spells *)

(** The loop [for start_i, end_i in ranges] of the two detectors;
    [s.index[i]] raises [IndexError] out of range. *)
Fixpoint collect_runs (idx : list Timestamp) (min_duration : Z)
    (ranges : list (nat * nat)) (results : list (Timestamp * Timestamp))
  : result (list (Timestamp * Timestamp)) :=
  match ranges with
  | [] => Ok results
  | (start_i, end_i) :: ranges' =>
      if (min_duration <=? Z.of_nat end_i - Z.of_nat start_i + 1)%Z
      then
        match nth_error idx start_i, nth_error idx end_i with
        | Some d1, Some d2 =>
            collect_runs idx min_duration ranges' (results ++ [(d1, d2)])
        | _, _ => Raise IndexError
        end
      else collect_runs idx min_duration ranges' results
  end.

(** [detect_heatwaves(df, var, percentile, min_duration)] *)
Definition detect_heatwaves (df : DataFrame) (var : string) (percentile : Q)
    (min_duration : Z) : result (list (Timestamp * Timestamp)) :=
  if negb (has_column df var) then Raise (KeyError var)
  else
    s <- getitem df var ;;
    thresh <- nanpercentile (values (dropna s)) percentile ;;
    let mask := map (fun v => float_gt v thresh) (values s) in
    let ranges := _consecutive_ranges mask in
    collect_runs (index s) min_duration ranges [].

(** [detect_cold_spells(df, var, percentile, min_duration)] *)
Definition detect_cold_spells (df : DataFrame) (var : string) (percentile : Q)
    (min_duration : Z) : result (list (Timestamp * Timestamp)) :=
  if negb (has_column df var) then Raise (KeyError var)
  else
    s <- getitem df var ;;
    thresh <- nanpercentile (values (dropna s)) percentile ;;
    let mask := map (fun v => float_lt v thresh) (values s) in
    let ranges := _consecutive_ranges mask in
    collect_runs (index s) min_duration ranges [].

(** *** Droughts *)

(** A row of the frame that [detect_droughts] returns: the [year] index
    and the columns [start], [end], [precip], [is_drought], [cutoff]. *)
Record SeasonSummary : Type := {
  year : Z;
  start : Timestamp;
  end_ : Timestamp;
  precip : Q;
  is_drought : bool;
  cutoff : float
}.

(** [sorted(set(l))] *)
Fixpoint insert_sorted (y : Z) (l : list Z) : list Z :=
  match l with
  | [] => [y]
  | x :: l' =>
      if (y <? x)%Z then y :: l
      else if (y =? x)%Z then l
      else x :: insert_sorted y l'
  end.

Definition sorted_set (l : list Z) : list Z := fold_right insert_sorted [] l.

(** [pr.loc[(pr.index >= start) & (pr.index <= end)].sum()] *)
Definition season_sum (pr : list (Timestamp * Q)) (start_ end_ : Timestamp) : Q :=
  Qsum (values (filter (fun p => (start_ <=? fst p)%Z && (fst p <=? end_)%Z) pr)).

(** The loop [for y in years]: a dictionary per year, before the flag and
    the cutoff are known. *)
Fixpoint seasons_loop (pr : list (Timestamp * Q)) (months : Z * Z)
    (years : list Z) : result (list (Z * Timestamp * Timestamp * Q)) :=
  match years with
  | [] => Ok []
  | y :: years' =>
      start_ <- Timestamp_ymd y (fst months) 1 ;;
      end_ <- month_end y (snd months) ;;
      let cum := season_sum pr start_ end_ in
      seasons <- seasons_loop pr months years' ;;
      Ok ((y, start_, end_, cum) :: seasons)
  end.

(** [detect_droughts(df, prcp_var, season_months, percentile)].  With no
    year at all the frame of the seasons has no column, and
    [set_index("year")] raises [KeyError]. *)
Definition detect_droughts (df : DataFrame) (prcp_var : string)
    (season_months : Z * Z) (percentile : Q) : result (list SeasonSummary) :=
  if negb (has_column df prcp_var) then Raise (KeyError prcp_var)
  else
    s <- getitem df prcp_var ;;
    let pr := fillna0 s in
    let years := sorted_set (map year_of (index (rows df))) in
    seasons <- seasons_loop pr season_months years ;;
    match seasons with
    | [] => Raise (KeyError "year")
    | _ :: _ =>
        cut <- nanpercentile (map snd seasons) percentile ;;
        Ok (map (fun r =>
                   match r with
                   | (y, start_, end', cum) =>
                       {| year := y; start := start_; end_ := end'; precip := cum;
                          is_drought := float_le (Some cum) cut; cutoff := cut |}
                   end) seasons)
    end.

End Analysis.

(** ** Figures ([src/visualization.py]) *)

(** A Plotly figure, as far as the module builds it: the traces, the
    shapes of the layout and its three titles. *)
Module Plotly.

Record Scatter : Type := {
  x : list Timestamp;
  y : list float;
  mode : string;
  name : string
}.

Record Shape : Type := {
  x0 : Timestamp;
  x1 : Timestamp;
  fillcolor : string;
  opacity : Q;
  line_width : Z
}.

Record Figure : Type := {
  data : list Scatter;
  shapes : list Shape;
  title : option string;
  xaxis_title : option string;
  yaxis_title : option string
}.

(** [go.Figure()] *)
Definition Figure_ : Figure :=
  {| data := []; shapes := []; title := None;
     xaxis_title := None; yaxis_title := None |}.

(** [fig.add_trace(trace)] *)
Definition add_trace (fig : Figure) (trace : Scatter) : Figure :=
  {| data := data fig ++ [trace]; shapes := shapes fig; title := title fig;
     xaxis_title := xaxis_title fig; yaxis_title := yaxis_title fig |}.

(** [fig.update_layout(title=.., xaxis_title=.., yaxis_title=..)] *)
Definition update_layout (fig : Figure) (title_ xaxis yaxis : string) : Figure :=
  {| data := data fig; shapes := shapes fig; title := Some title_;
     xaxis_title := Some xaxis; yaxis_title := Some yaxis |}.

(** [fig.add_vrect(x0=.., x1=.., fillcolor=.., opacity=.., line_width=..)] *)
Definition add_vrect (fig : Figure) (shape : Shape) : Figure :=
  {| data := data fig; shapes := shapes fig ++ [shape]; title := title fig;
     xaxis_title := xaxis_title fig; yaxis_title := yaxis_title fig |}.

End Plotly.

Section Visualization.

Context {K : Kernels}.

Local Open Scope result_scope.

(** [str(n)] for an integer *)
Definition str_int (n : Z) : string := NilZero.string_of_int (Z.to_int n).

(** [s.loc[s.index >= start]] when [start] is not [None] *)
Definition from_start (start_ : option Timestamp) (s : list (Timestamp * Q))
  : list (Timestamp * Q) :=
  match start_ with
  | Some t0 => filter (fun p => (t0 <=? fst p)%Z) s
  | None => s
  end.

(** [s.loc[s.index <= end]] when [end] is not [None] *)
Definition to_end (end' : option Timestamp) (s : list (Timestamp * Q))
  : list (Timestamp * Q) :=
  match end' with
  | Some t1 => filter (fun p => (fst p <=? t1)%Z) s
  | None => s
  end.

(** [timeseries_plot(df, var, start, end, rolling)] *)
Definition timeseries_plot (df : DataFrame) (var : string)
    (start_ end' : option Timestamp) (rolling : option Z)
  : result Plotly.Figure :=
  if negb (has_column df var) then Raise (KeyError var)
  else
    s0 <- getitem df var ;;
    let s := dropna s0 in
    let s := from_start start_ s in
    let s := to_end end' s in
    let fig := Plotly.Figure_ in
    let fig :=
      Plotly.add_trace fig
        {| Plotly.x := index s; Plotly.y := values (to_series s);
           Plotly.mode := "lines"; Plotly.name := var |} in
    fig <- match rolling with
           | Some w =>
               if (0 <? w)%Z
               then
                 r <- rolling_D_mean w s ;;
                 Ok (Plotly.add_trace fig
                       {| Plotly.x := index r; Plotly.y := values r;
                          Plotly.mode := "lines";
                          Plotly.name := (str_int w ++ "D rolling")%string |})
               else Ok fig
           | None => Ok fig
           end ;;
    Ok (Plotly.update_layout fig ("Time series of " ++ var)%string "Date" var).

(** The body of the loop of [overlay_anomalies]. *)
Definition vrect (color : string) (anomaly : Timestamp * Timestamp)
  : Plotly.Shape :=
  {| Plotly.x0 := fst anomaly; Plotly.x1 := snd anomaly;
     Plotly.fillcolor := color; Plotly.opacity := (1 # 2)%Q;
     Plotly.line_width := 0%Z |}.

(** [overlay_anomalies(fig, anomalies, color)] *)
Definition overlay_anomalies (fig : Plotly.Figure)
    (anomalies : list (Timestamp * Timestamp)) (color : string)
  : Plotly.Figure :=
  fold_left (fun f anomaly => Plotly.add_vrect f (vrect color anomaly))
            anomalies fig.

End Visualization.

(** ** Loading ([src/data_loader.py]) *)

Module Loader.

(** A label of the index after the dates are parsed: a day, or NaT for a
    date that did not parse. *)
Definition Label : Type := option Timestamp.

(** A frame indexed by dates. *)
Record Indexed : Type := {
  icolumns : list string;
  irows : list (Label * (string -> float))
}.

Definition labels (rows_ : list (Label * (string -> float))) : list Label :=
  map fst rows_.

(** The order of [sort_index] on labels: by date, NaT last. *)
Definition label_le (a b : Label) : Prop :=
  match a, b with
  | Some u, Some v => (u <= v)%Z
  | _, None => True
  | None, Some _ => False
  end.

(** The strict order: by date, one NaT at most, after the dates. *)
Definition label_lt (a b : Label) : Prop :=
  match a, b with
  | Some u, Some v => (u < v)%Z
  | Some _, None => True
  | None, _ => False
  end.

Definition label_eqb (a b : Label) : bool :=
  match a, b with
  | Some u, Some v => (u =? v)%Z
  | None, None => true
  | _, _ => false
  end.

(** The keyword arguments of the three attempts of [_try_read_csv]. *)
Inductive ParserOptions : Type :=
| delim_whitespace
| sep (delimiter : string).

Definition tab : string := String (Ascii.ascii_of_nat 9) EmptyString.

Definition parsers : list ParserOptions :=
  [delim_whitespace; sep ","; sep tab].

(** The exceptions that [load_cambridge_data] raises itself, and any
    other one that comes out of the preparation of the frame. *)
Inductive loader_exn : Type :=
| FileNotFoundError (path : string)
| RuntimeError (msg : string)
| OtherError.

Inductive outcome (A : Type) : Type :=
| Loaded (a : A)
| Failed (e : loader_exn).

Arguments Loaded {A} a.
Arguments Failed {A} e.

(** [df.loc[~df.index.duplicated(keep="first")]]: a row is kept when its
    label was not seen in a row before it. *)
Fixpoint drop_duplicated (seen : list Label)
    (rows_ : list (Label * (string -> float)))
  : list (Label * (string -> float)) :=
  match rows_ with
  | [] => []
  | r :: rest =>
      if existsb (label_eqb (fst r)) seen
      then drop_duplicated seen rest
      else r :: drop_duplicated (fst r :: seen) rest
  end.

(** [df.notna().any(axis=0)] at column [c] *)
Definition notna_any (rows_ : list (Label * (string -> float))) (c : string)
  : bool :=
  existsb (fun r => negb (isnan (snd r c))) rows_.

Section Load.

(** What pandas and the file system do for the loader.  [Frame] is the
    frame as read, before the dates are parsed; [None] stands for a call
    that raised. *)
Variable Frame : Type.
Variable shape0 : Frame -> nat.
Variable path_exists : string -> bool.
Variable str_path : string -> string.
Variable read_csv : string -> ParserOptions -> option Frame.
Variable read_fwf : string -> option Frame.
(** The middle of [load_cambridge_data]: the names of the columns
    stripped, the date column found and set as the index, the other columns
    converted to numbers. *)
Variable prepare : Frame -> outcome Indexed.
(** [df.sort_index()] on the rows: the default sort is not stable. *)
Variable sort_index :
  list (Label * (string -> float)) -> list (Label * (string -> float)).

(** The loop of [_try_read_csv]. *)
Fixpoint try_parsers (path : string) (options : list ParserOptions)
  : option Frame :=
  match options with
  | [] => None
  | opts :: rest =>
      match read_csv path opts with
      | Some df => if 0 <? shape0 df then Some df else try_parsers path rest
      | None => try_parsers path rest
      end
  end.

(** [_try_read_csv(path)] *)
Definition _try_read_csv (path : string) : option Frame :=
  try_parsers path parsers.

(** The last three statements of [load_cambridge_data]. *)
Definition sort_and_clean (df : Indexed) : Indexed :=
  let sorted := sort_index (irows df) in
  let kept := drop_duplicated [] sorted in
  {| icolumns := filter (notna_any kept) (icolumns df); irows := kept |}.

(** [load_cambridge_data(path)] *)
Definition load_cambridge_data (path : string) : outcome Indexed :=
  if negb (path_exists path) then Failed (FileNotFoundError path)
  else
    let read :=
      match _try_read_csv (str_path path) with
      | Some df => Loaded df
      | None =>
          match read_fwf path with
          | Some df => Loaded df
          | None => Failed (RuntimeError "Unable to parse data file")
          end
      end in
    match read with
    | Failed e => Failed e
    | Loaded df =>
        match prepare df with
        | Failed e => Failed e
        | Loaded prepared => Loaded (sort_and_clean prepared)
        end
    end.

End Load.

(** The frame for the analysis, when no label is NaT. *)
Fixpoint dated (rows_ : list (Label * (string -> float)))
  : option (list (Timestamp * (string -> float))) :=
  match rows_ with
  | [] => Some []
  | (Some t, row) :: rest =>
      match dated rest with
      | Some l => Some ((t, row) :: l)
      | None => None
      end
  | (None, _) :: _ => None
  end.

Definition to_DataFrame (df : Indexed) : option DataFrame :=
  match dated (irows df) with
  | Some rows_ => Some {| columns := icolumns df; rows := rows_ |}
  | None => None
  end.

(** A sort to run the loader with: insertion of each row after the rows
    with a label at most its own. *)
Definition label_leb (a b : Label) : bool :=
  match a, b with
  | Some u, Some v => (u <=? v)%Z
  | _, None => true
  | None, Some _ => false
  end.

Fixpoint insert_row (r : Label * (string -> float))
    (l : list (Label * (string -> float))) : list (Label * (string -> float)) :=
  match l with
  | [] => [r]
  | r' :: l' =>
      if label_leb (fst r') (fst r) then r' :: insert_row r l' else r :: l
  end.

Definition insertion_sort (l : list (Label * (string -> float)))
  : list (Label * (string -> float)) :=
  fold_right insert_row [] l.

End Loader.

(** ** Reference kernels over the rationals *)

Module Reference.

Fixpoint insert_Q (x : Q) (l : list Q) : list Q :=
  match l with
  | [] => [x]
  | y :: l' => if Qle_bool x y then x :: l else y :: insert_Q x l'
  end.

Definition sort_Q (l : list Q) : list Q := fold_right insert_Q [] l.

(** The percentile of numpy's default method: linear interpolation between
    the two closest ranks; NaN on no data. *)
Definition percentile_linear (a : list Q) (q : Q) : result float :=
  if negb (Qle_bool 0 q && Qle_bool q 100)
  then Raise (ValueError "Percentiles must be in the range [0, 100]")
  else
    match sort_Q a with
    | [] => Ok nan
    | (x0 :: _) as sorted =>
        let pos := (inject_Z (Z.of_nat (List.length sorted) - 1) * q / 100)%Q in
        let lo := Qfloor pos in
        let frac := (pos - inject_Z lo)%Q in
        let a_lo := nth (Z.to_nat lo) sorted x0 in
        let a_hi := nth (S (Z.to_nat lo)) sorted a_lo in
        Ok (Some (Qred (a_lo + (a_hi - a_lo) * frac)))
    end.

(** Yearly buckets (rule ["A"]), labelled with the last day of the year,
    from the first year of the data to the last one. *)
Definition resample_annual (s : list (Timestamp * Q)) : Series :=
  match map year_of (index s) with
  | [] => []
  | y0 :: ys =>
      let lo := fold_left Z.min ys y0 in
      let hi := fold_left Z.max ys y0 in
      map (fun k =>
             let y := (lo + Z.of_nat k)%Z in
             (ymd2ord y 12 31,
              mean (values (filter (fun p => (year_of (fst p) =? y)%Z) s))))
          (seq 0 (Z.to_nat (hi - lo + 1)))
  end.

Definition resample (rule : string) (s : list (Timestamp * Q)) : result Series :=
  if String.eqb rule "A" then Ok (resample_annual s)
  else Raise (ValueError "Invalid frequency").

(** The slope of the least-squares line. *)
Definition ols_slope (x y : list Q) : result float :=
  let n := inject_Z (Z.of_nat (List.length x)) in
  let sx := Qsum x in
  let sy := Qsum y in
  let sxy := Qsum (map (fun p => fst p * snd p)%Q (combine x y)) in
  let sxx := Qsum (map (fun a => a * a)%Q x) in
  let den := (n * sxx - sx * sx)%Q in
  if Qeq_bool den 0 then Ok nan
  else Ok (Some (Qred ((n * sxy - sx * sy) / den))).

End Reference.

(** numpy and pandas over the rationals, scipy not installed, and a rolling
    window that is refused when it is not positive or the index is not
    ascending. *)
#[export] Instance reference_kernels : Kernels := {|
  nanpercentile := Reference.percentile_linear;
  resample_mean := Reference.resample;
  polyfit_slope := Reference.ols_slope;
  stats := None;
  rolling_other := fun _ _ => Raise (ValueError "window or index not supported")
|}.

(** ** Sample data *)

Module Samples.

Definition day (y m d : Z) : Timestamp := ymd2ord y m d.

(** A frame with the single column ["T"]. *)
Definition frame_T (s : Series) : DataFrame :=
  {| columns := ["T"%string];
     rows := map (fun p => (fst p, fun _ : string => snd p)) s |}.

(** Three years of daily data from 2001-01-01: 10 degrees every day, but
    five days at 40 degrees from position 500. *)
Definition three_years : Series :=
  map (fun k =>
         (day 2001 1 1 + Z.of_nat k,
          if (500 <=? k)%nat && (k <? 505)%nat then Some 40%Q else Some 10%Q)%Z)
      (seq 0 1095).

(** Three years of daily data from 2001-01-01 that warm by a thousandth
    of a degree a day from 10 degrees, but five days at 40 degrees from
    position 500: no two ordinary days have the same value. *)
Definition ramp_years : Series :=
  map (fun k =>
         (day 2001 1 1 + Z.of_nat k,
          if (500 <=? k)%nat && (k <? 505)%nat then Some 40%Q
          else Some ((10000 + Z.of_nat k) # 1000)%Q)%Z)
      (seq 0 1095).

(** A week around a missing day. *)
Definition gapped_week : Series :=
  [(day 2000 1 1, Some 1%Q); (day 2000 1 2, Some 9%Q); (day 2000 1 3, Some 9%Q);
   (day 2000 1 4, None); (day 2000 1 5, Some 9%Q); (day 2000 1 6, Some 9%Q);
   (day 2000 1 7, Some 1%Q)].

(** Days with a gap in the calendar. *)
Definition sparse_days : Series :=
  [(day 2000 1 1, Some 2%Q); (day 2000 1 2, None); (day 2000 1 3, Some 4%Q);
   (day 2000 1 20, Some 9%Q)].

(** Rain over six years, in summer but for 2004; a missing value in 2002. *)
Definition rain : Series :=
  [(day 2001 6 1, Some 5%Q); (day 2001 7 1, Some 5%Q);
   (day 2002 6 1, Some 3%Q); (day 2002 7 1, None);
   (day 2003 6 1, Some 8%Q);
   (day 2004 12 1, Some 100%Q);
   (day 2005 6 1, Some 7%Q);
   (day 2006 6 1, Some 6%Q)].

End Samples.

(** ** More sample data *)

Module MoreSamples.

Import Samples.

(** Eight days: cold, mild, hot, mild, cold. *)
Definition swing_week : Series :=
  [(day 2000 1 1, Some 1%Q); (day 2000 1 2, Some 1%Q); (day 2000 1 3, Some 5%Q);
   (day 2000 1 4, Some 9%Q); (day 2000 1 5, Some 9%Q); (day 2000 1 6, Some 5%Q);
   (day 2000 1 7, Some 1%Q); (day 2000 1 8, Some 1%Q)].

(** A column without a value. *)
Definition all_missing : Series :=
  [(day 2000 1 1, nan); (day 2000 1 2, nan)].

(** A frame as prepared from a file: rows out of order, a date twice, a
    date that did not parse, and a column ["EMPTY"] without a value. *)
Definition cell (v : Q) : string -> float :=
  fun c => if String.eqb c "T" then Some v else nan.

Definition prepared_frame : Loader.Indexed :=
  {| Loader.icolumns := ["T"%string; "EMPTY"%string];
     Loader.irows :=
       [(Some (day 2020 1 3), cell 7); (Some (day 2020 1 1), cell 5);
        (None, cell 0); (Some (day 2020 1 1), cell 6);
        (Some (day 2020 1 2), cell 4)] |}.

(** A file that only the comma parser reads. *)
Definition sample_read_csv (path : string) (opts : Loader.ParserOptions)
  : option Loader.Indexed :=
  match opts with
  | Loader.sep delimiter =>
      if String.eqb delimiter "," then Some prepared_frame else None
  | Loader.delim_whitespace => None
  end.

Definition sample_load (path : string) : Loader.outcome Loader.Indexed :=
  Loader.load_cambridge_data Loader.Indexed
    (fun df => List.length (Loader.irows df))
    (fun p => String.eqb p "data/cambridge.txt")
    (fun p => p)
    sample_read_csv
    (fun _ => None)
    (fun df => Loader.Loaded df)
    Loader.insertion_sort
    path.

End MoreSamples.

(** ** Definitions used by the statements *)

Module Runs.

(** The ranges that the loop of [_consecutive_ranges] builds, as a
    recursion on the positions: [a] is the start of the open run, [p] the
    last position seen. *)
Fixpoint groups (a p : nat) (rest : list nat) : list (nat * nat) :=
  match rest with
  | [] => [(a, p)]
  | x :: rest' =>
      if x =? p + 1 then groups a x rest' else (a, p) :: groups x x rest'
  end.

(** Ranges in ascending order, each with start <= end, none starting
    before [lo], and at least one position left out between two of them. *)
Fixpoint gapped (lo : nat) (l : list (nat * nat)) : Prop :=
  match l with
  | [] => True
  | (a, b) :: l' => lo <= a /\ a <= b /\ gapped (b + 2) l'
  end.

(** Position [k] of the mask holds [True]. *)
Definition marked (mask : list bool) (k : nat) : Prop :=
  nth k mask false = true.

(** [a .. b] is a maximal run of positions that satisfy [P]: all of them
    do, and neither the position before [a] nor the one after [b] does. *)
Definition maximal_run_of (P : nat -> Prop) (a b : nat) : Prop :=
  a <= b /\ (forall k, a <= k <= b -> P k) /\
  (a = 0 \/ ~ P (a - 1)) /\ ~ P (b + 1).

(** [a .. b] is a maximal run of [True] positions of the mask. *)
Definition maximal_run (mask : list bool) (a b : nat) : Prop :=
  maximal_run_of (marked mask) a b.

End Runs.

Import Runs.

Module Events.

(** The test [(end_i - start_i + 1) >= min_duration]. *)
Definition long_enough (min_duration : Z) (r : nat * nat) : bool :=
  (min_duration <=? Z.of_nat (snd r) - Z.of_nat (fst r) + 1)%Z.

(** [(s.index[start_i], s.index[end_i])] for positions of the index. *)
Definition date_range (idx : list Timestamp) (r : nat * nat)
  : Timestamp * Timestamp :=
  (nth (fst r) idx 0%Z, nth (snd r) idx 0%Z).

(** The value at position [k] is a number strictly above the threshold. *)
Definition above (s : Series) (thresh : float) (k : nat) : Prop :=
  exists x t, nth_error (values s) k = Some (Some x) /\ thresh = Some t /\
              (t < x)%Q.

(** The value at position [k] is a number strictly below the threshold. *)
Definition below (s : Series) (thresh : float) (k : nat) : Prop :=
  exists x t, nth_error (values s) k = Some (Some x) /\ thresh = Some t /\
              (x < t)%Q.

(** The value at position [k] is missing. *)
Definition missing (s : Series) (k : nat) : Prop :=
  nth_error (values s) k = Some None.

End Events.

Import Events.

Module Rolling.

(** [u] lies in the trailing window [(t - w, t]] of [w] days that ends
    at [t]. *)
Definition in_window (w : Z) (t u : Timestamp) : bool :=
  (t - w <? u)%Z && (u <=? t)%Z.

(** The arithmetic mean of the values of [s] whose timestamp lies in the
    trailing window of [w] days that ends at [t]. *)
Definition window_mean (s : list (Timestamp * Q)) (w : Z) (t : Timestamp)
  : float :=
  mean (values (filter (fun p => in_window w t (fst p)) s)).

End Rolling.

Import Rolling.

Module Seasons.

(** The first day of the season of year [y]. *)
Definition season_start (months : Z * Z) (y : Z) : Timestamp :=
  ymd2ord y (fst months) 1.

(** The last day of the season of year [y]. *)
Definition season_end (months : Z * Z) (y : Z) : Timestamp :=
  ymd2ord y (snd months) (days_in_month y (snd months)).

(** The precipitation of the season of year [y]: the sum over the rows
    from the first day to the last day of the season, both included, a
    missing value counting for zero. *)
Definition season_total (s : Series) (months : Z * Z) (y : Z) : Q :=
  Qsum (map (fun p => match snd p with Some x => x | None => 0%Q end)
          (filter (fun p => (season_start months y <=? fst p)%Z &&
                            (fst p <=? season_end months y)%Z) s)).

End Seasons.

Import Seasons.

Module Coverage.

(** The number of positions that a list of inclusive ranges holds. *)
Definition total_length (ranges : list (nat * nat)) : nat :=
  fold_right (fun r n => snd r - fst r + 1 + n) 0 ranges.

(** The number of [True] entries of a mask. *)
Definition count_true (mask : list bool) : nat :=
  List.length (filter (fun b => b) mask).

End Coverage.

Import Coverage.

(** ** The run detector: facts *)

Section RunDetectorFacts.

Lemma where_from_In (mask : list bool) :
  forall i k, In k (where_from i mask) <-> i <= k /\ marked mask (k - i).
Proof.
  unfold marked.
  induction mask as [|b mask IH]; intros i k; simpl.
  - split; [tauto|]. intros [_ H]. destruct (k - i); discriminate.
  - assert (Hstep : i <= k /\ nth (k - i) (b :: mask) false = true <->
                    (k = i /\ b = true) \/ (S i <= k /\ nth (k - S i) mask false = true)).
    { destruct (Nat.eq_dec k i) as [->|Hne].
      - rewrite Nat.sub_diag. simpl. split.
        + intros [_ H]. left. auto.
        + intros [[_ H]|[H _]]; [auto|lia].
      - split.
        + intros [Hle H]. right. split; [lia|].
          replace (k - i) with (S (k - S i)) in H by lia. exact H.
        + intros [[H _]|[Hle H]]; [congruence|]. split; [lia|].
          replace (k - i) with (S (k - S i)) by lia. exact H. }
    rewrite Hstep. destruct b; simpl; rewrite IH.
    + split.
      * intros [H|H]; [left; auto|right; auto].
      * intros [[H _]|H]; [left; auto|right; auto].
    + split; [auto|]. intros [[_ H]|H]; [discriminate|auto].
Qed.

Lemma where_In (mask : list bool) (k : nat) :
  In k (where_ mask) <-> marked mask k.
Proof.
  unfold where_. rewrite where_from_In, Nat.sub_0_r.
  split; [tauto|]. intros H; split; [lia|exact H].
Qed.

Lemma where_from_sorted (mask : list bool) :
  forall i, StronglySorted lt (where_from i mask).
Proof.
  induction mask as [|b mask IH]; intros i; simpl.
  - constructor.
  - destruct b; [|apply IH].
    constructor; [apply IH|].
    apply Forall_forall. intros k Hk. apply where_from_In in Hk. lia.
Qed.

Lemma marked_lt_length (mask : list bool) (k : nat) :
  marked mask k -> k < List.length mask.
Proof.
  unfold marked. intros H.
  destruct (Nat.lt_ge_cases k (List.length mask)) as [Hlt|Hge]; [exact Hlt|].
  rewrite nth_overflow in H by exact Hge. discriminate.
Qed.

Lemma any_false_where (mask : list bool) :
  any mask = false -> where_ mask = [].
Proof.
  intros Hany. destruct (where_ mask) as [|k l] eqn:E; [reflexivity|].
  assert (Hk : In k (where_ mask)) by (rewrite E; left; reflexivity).
  apply where_In in Hk. unfold marked in Hk.
  assert (Hin : In true mask).
  { rewrite <- Hk. apply nth_In. apply marked_lt_length. exact Hk. }
  assert (any mask = true).
  { unfold any. apply existsb_exists. exists true. auto. }
  congruence.
Qed.

(** After the [mask.any()] test, [idx[0]] exists. *)
Lemma any_where (mask : list bool) :
  any mask = true -> where_ mask <> [].
Proof.
  unfold any. intros H. apply existsb_exists in H. destruct H as [b [Hin Hb]].
  subst b. apply In_nth with (d := false) in Hin. destruct Hin as [k [_ Hk]].
  intros E. assert (Hi : In k (where_ mask)) by (apply where_In; exact Hk).
  rewrite E in Hi. exact Hi.
Qed.

Lemma last_cons_default {A : Type} (l : list A) (x d d' : A) :
  last (x :: l) d = last (x :: l) d'.
Proof.
  revert x. induction l as [|y l IH]; intros x; [reflexivity|].
  change (last (y :: l) d = last (y :: l) d'). apply IH.
Qed.

Lemma ranges_loop_acc (rest : list nat) :
  forall prev starts ends,
    ranges_loop prev rest starts ends =
    (starts ++ fst (ranges_loop prev rest [] []),
     ends ++ snd (ranges_loop prev rest [] [])).
Proof.
  induction rest as [|x rest IH]; intros prev starts ends; simpl.
  - now rewrite !app_nil_r.
  - destruct (negb (x =? prev + 1)).
    + rewrite (IH x (starts ++ [x]) (ends ++ [prev])).
      rewrite (IH x [x] [prev]). simpl. now rewrite <- !app_assoc.
    + apply IH.
Qed.

(** The loop and the final [zip] build [groups]. *)
Lemma ranges_loop_groups (rest : list nat) :
  forall a prev,
    combine (a :: fst (ranges_loop prev rest [] []))
            (snd (ranges_loop prev rest [] []) ++ [last (prev :: rest) prev])
    = groups a prev rest.
Proof.
  induction rest as [|x rest IH]; intros a prev; [reflexivity|].
  cbn [ranges_loop groups].
  destruct (x =? prev + 1); cbn [negb app].
  - rewrite <- (IH a x).
    change (last (prev :: x :: rest) prev) with (last (x :: rest) prev).
    now rewrite (last_cons_default rest x prev x).
  - rewrite (ranges_loop_acc rest x [x] [prev]). cbn [fst snd app combine].
    f_equal. rewrite <- (IH x x).
    change (last (prev :: x :: rest) prev) with (last (x :: rest) prev).
    now rewrite (last_cons_default rest x prev x).
Qed.

Lemma consecutive_ranges_groups (mask : list bool) :
  _consecutive_ranges mask =
  match where_ mask with
  | [] => []
  | idx0 :: rest => groups idx0 idx0 rest
  end.
Proof.
  unfold _consecutive_ranges.
  destruct (any mask) eqn:Hany; cbn [negb].
  - destruct (where_ mask) as [|idx0 rest] eqn:E; [reflexivity|].
    rewrite (ranges_loop_acc rest idx0 [idx0] []).
    cbn [app]. apply (ranges_loop_groups rest idx0 idx0).
  - now rewrite (any_false_where mask Hany).
Qed.

Lemma groups_cover (rest : list nat) :
  forall a p k, a <= p ->
    ((exists r, In r (groups a p rest) /\ fst r <= k <= snd r) <->
     (a <= k <= p \/ In k rest)).
Proof.
  induction rest as [|x rest IH]; intros a p k Hap; cbn [groups].
  - split.
    + intros [r [[<-|[]] Hk]]. left. exact Hk.
    + intros [Hk|[]]. exists (a, p). split; [left; reflexivity|exact Hk].
  - destruct (Nat.eqb_spec x (p + 1)) as [->|Hne].
    + rewrite (IH a (p + 1) k) by lia. cbn [In].
      split; [intros [H|H]|intros [H|[H|H]]]; auto; try (left; lia).
      destruct (Nat.eq_dec k (p + 1)); [right; left; lia|left; lia].
    + split.
      * intros [r [[<-|Hin] Hk]]; [left; exact Hk|].
        assert (H : x <= k <= x \/ In k rest).
        { apply (IH x x k); [lia|]. exists r. auto. }
        right. destruct H as [H|H]; [left; lia|right; exact H].
      * intros [Hk|[Hk|Hk]].
        -- exists (a, p). split; [left; reflexivity|exact Hk].
        -- destruct (proj2 (IH x x k (le_n x))) as [r [Hin Hr]]; [left; lia|].
           exists r. split; [right; exact Hin|exact Hr].
        -- destruct (proj2 (IH x x k (le_n x))) as [r [Hin Hr]]; [right; exact Hk|].
           exists r. split; [right; exact Hin|exact Hr].
Qed.

Lemma gapped_weaken (l : list (nat * nat)) (lo lo' : nat) :
  lo' <= lo -> gapped lo l -> gapped lo' l.
Proof.
  destruct l as [|[a b] l]; simpl; [auto|]. intros Hle [H1 [H2 H3]].
  repeat split; [lia|exact H2|exact H3].
Qed.

Lemma groups_gapped (rest : list nat) :
  forall a p, a <= p -> StronglySorted lt (p :: rest) ->
    gapped a (groups a p rest).
Proof.
  induction rest as [|x rest IH]; intros a p Hap Hs; cbn [groups].
  - simpl. auto.
  - inversion Hs as [|p' l' Hs' Hall]; subst.
    assert (Hpx : p < x) by (inversion Hall; assumption).
    destruct (Nat.eqb_spec x (p + 1)) as [->|Hne].
    + apply IH; [lia|exact Hs'].
    + simpl. repeat split; [lia|exact Hap|].
      apply gapped_weaken with (lo := x); [lia|].
      apply IH; [lia|exact Hs'].
Qed.

Lemma gapped_In (l : list (nat * nat)) :
  forall lo a b, gapped lo l -> In (a, b) l -> lo <= a <= b.
Proof.
  induction l as [|[c d] l IH]; intros lo a b Hg Hin; [destruct Hin|].
  simpl in Hg. destruct Hg as [H1 [H2 H3]]. destruct Hin as [E|Hin].
  - inversion E; subst. lia.
  - specialize (IH _ _ _ H3 Hin). lia.
Qed.

Lemma gapped_nth (l : list (nat * nat)) :
  forall lo i j a b c d, gapped lo l -> i < j ->
    nth_error l i = Some (a, b) -> nth_error l j = Some (c, d) -> b + 1 < c.
Proof.
  induction l as [|[a0 b0] l IH]; intros lo i j a b c d Hg Hij Hi Hj.
  - destruct i; discriminate.
  - simpl in Hg. destruct Hg as [H1 [H2 H3]].
    destruct j as [|j]; [lia|]. simpl in Hj.
    destruct i as [|i].
    + simpl in Hi. inversion Hi; subst.
      apply nth_error_In in Hj. pose proof (gapped_In _ _ _ _ H3 Hj). lia.
    + simpl in Hi. apply (IH (b0 + 2) i j a b c d); auto. lia.
Qed.

(** What follows from the two facts about the output: it is [gapped], and
    it covers the marked positions and no other. *)
Section FromCover.

Variable mask : list bool.
Variable out : list (nat * nat).
Hypothesis out_gapped : gapped 0 out.
Hypothesis out_cover :
  forall k, (exists r, In r out /\ fst r <= k <= snd r) <-> marked mask k.

Lemma cover_disjoint (i j a b c d k : nat) :
  nth_error out i = Some (a, b) -> nth_error out j = Some (c, d) ->
  a <= k <= b -> c - 1 <= k <= d + 1 -> i = j.
Proof.
  intros Hi Hj Hk1 Hk2.
  destruct (Nat.lt_trichotomy i j) as [Hlt|[Heq|Hgt]]; [|exact Heq|].
  - pose proof (gapped_nth _ _ _ _ _ _ _ _ out_gapped Hlt Hi Hj). lia.
  - pose proof (gapped_nth _ _ _ _ _ _ _ _ out_gapped Hgt Hj Hi). lia.
Qed.

Lemma cover_maximal (a b : nat) : In (a, b) out -> maximal_run mask a b.
Proof.
  intros Hin. pose proof (gapped_In _ _ _ _ out_gapped Hin) as Hab.
  destruct (In_nth_error _ _ Hin) as [i Hi].
  assert (Hnot : forall k, marked mask k -> k + 1 = a \/ k = b + 1 -> False).
  { intros k Hk Hadj. apply out_cover in Hk. destruct Hk as [[c d] [Hcd Hk]].
    destruct (In_nth_error _ _ Hcd) as [j Hj]. simpl in Hk.
    destruct Hadj as [Hadj|Hadj].
    - assert (E : j = i) by (apply (cover_disjoint j i c d a b k Hj Hi); lia).
      subst j. rewrite Hi in Hj. inversion Hj; subst. lia.
    - assert (E : j = i) by (apply (cover_disjoint j i c d a b k Hj Hi); lia).
      subst j. rewrite Hi in Hj. inversion Hj; subst. lia. }
  split; [lia|]. split; [|split].
  - intros k Hk. apply out_cover. exists (a, b). auto.
  - destruct a as [|a']; [left; reflexivity|right].
    intros Hm. apply (Hnot (S a' - 1) Hm). left. lia.
  - intros Hm. apply (Hnot (b + 1) Hm). right. reflexivity.
Qed.

Lemma maximal_cover (a b : nat) : maximal_run mask a b -> In (a, b) out.
Proof.
  intros [Hab [Hall [Hleft Hright]]].
  assert (Ha : marked mask a) by (apply Hall; lia).
  apply out_cover in Ha. destruct Ha as [[c d] [Hcd Hk]]. simpl in Hk.
  destruct (cover_maximal _ _ Hcd) as [Hcd' [Hall' [Hleft' Hright']]].
  assert (c = a).
  { destruct (Nat.eq_dec c a) as [E|Hne]; [exact E|exfalso].
    destruct Hleft as [->|Hleft]; [lia|]. apply Hleft. apply Hall'. lia. }
  assert (d = b).
  { destruct (Nat.lt_trichotomy d b) as [Hlt|[E|Hgt]]; [exfalso|exact E|exfalso].
    - apply Hright'. apply Hall. lia.
    - apply Hright. apply Hall'. lia. }
  subst. exact Hcd.
Qed.

Lemma cover_unique (k : nat) :
  marked mask k ->
  exists! i, exists a b, nth_error out i = Some (a, b) /\ a <= k <= b.
Proof.
  intros Hk. apply out_cover in Hk. destruct Hk as [[a b] [Hin Hk]].
  simpl in Hk. destruct (In_nth_error _ _ Hin) as [i Hi].
  exists i. split; [exists a, b; auto|].
  intros j [c [d [Hj Hk']]]. apply (cover_disjoint i j a b c d k Hi Hj); lia.
Qed.

Lemma covers_marked (k : nat) : covers out k = nth k mask false.
Proof.
  destruct (covers out k) eqn:E.
  - symmetry. apply out_cover. unfold covers in E.
    apply existsb_exists in E. destruct E as [r [Hin Hr]].
    apply andb_true_iff in Hr. destruct Hr as [H1 H2].
    apply Nat.leb_le in H1, H2. exists r. auto.
  - destruct (nth k mask false) eqn:E'; [|reflexivity].
    apply out_cover in E'. destruct E' as [r [Hin Hr]].
    assert (covers out k = true); [|congruence].
    unfold covers. apply existsb_exists. exists r. split; [exact Hin|].
    apply andb_true_iff. split; apply Nat.leb_le; lia.
Qed.

End FromCover.

Lemma consecutive_ranges_gapped (mask : list bool) :
  gapped 0 (_consecutive_ranges mask).
Proof.
  rewrite consecutive_ranges_groups.
  pose proof (where_from_sorted mask 0) as Hs. fold (where_ mask) in Hs.
  destruct (where_ mask) as [|idx0 rest]; [exact I|].
  apply gapped_weaken with (lo := idx0); [lia|].
  apply groups_gapped; [lia|exact Hs].
Qed.

Lemma consecutive_ranges_cover (mask : list bool) (k : nat) :
  (exists r, In r (_consecutive_ranges mask) /\ fst r <= k <= snd r) <->
  marked mask k.
Proof.
  rewrite consecutive_ranges_groups, <- where_In.
  destruct (where_ mask) as [|idx0 rest].
  - split; [intros [r [[] _]]|intros []].
  - rewrite groups_cover by lia. cbn [In].
    split; [intros [H|H]|intros [H|H]]; auto; [left; lia|left; lia].
Qed.

Lemma consecutive_ranges_maximal (mask : list bool) (a b : nat) :
  In (a, b) (_consecutive_ranges mask) <-> maximal_run mask a b.
Proof.
  split.
  - apply cover_maximal; [apply consecutive_ranges_gapped|].
    apply consecutive_ranges_cover.
  - apply maximal_cover; [apply consecutive_ranges_gapped|].
    apply consecutive_ranges_cover.
Qed.

(** The mask rebuilt from the ranges is the mask the ranges came from. *)
Lemma mask_of_consecutive_ranges (mask : list bool) :
  mask_of_ranges (List.length mask) (_consecutive_ranges mask) = mask.
Proof.
  unfold mask_of_ranges.
  apply nth_ext with (d := false) (d' := false).
  - now rewrite length_map, length_seq.
  - intros k Hk. rewrite length_map, length_seq in Hk.
    rewrite nth_indep with (d' := covers (_consecutive_ranges mask) 0)
      by now rewrite length_map, length_seq.
    rewrite map_nth, seq_nth by exact Hk. simpl.
    apply covers_marked. apply consecutive_ranges_cover.
Qed.

End RunDetectorFacts.

(** C1.  For every boolean sequence, [_consecutive_ranges] returns exactly
    the maximal runs of consecutive [True] positions as inclusive (start,
    end) pairs: a pair is returned if and only if it is a maximal run; a
    returned range holds only [True] positions; a [True] position lies in
    exactly one returned range; of two returned ranges the later one starts
    at least two positions after the end of the earlier one, so they neither
    overlap nor touch; a [True] position with no [True] neighbour yields a
    range with start = end; and a sequence without [True], the empty one
    included, yields no range. *)
Theorem consecutive_ranges_maximal_runs (mask : list bool) :
  let out := _consecutive_ranges mask in
  (forall a b, In (a, b) out <-> maximal_run mask a b) /\
  (forall a b k, In (a, b) out -> a <= k <= b -> nth k mask false = true) /\
  (forall k, nth k mask false = true ->
     exists! i, exists a b, nth_error out i = Some (a, b) /\ a <= k <= b) /\
  (forall i j a b c d, i < j ->
     nth_error out i = Some (a, b) -> nth_error out j = Some (c, d) ->
     b + 1 < c) /\
  (forall k, nth k mask false = true ->
     (k = 0 \/ nth (k - 1) mask false = false) ->
     nth (k + 1) mask false = false -> In (k, k) out) /\
  ((forall b, In b mask -> b = false) -> out = []).
Proof.
  intros out. subst out.
  split; [apply consecutive_ranges_maximal|].
  split; [|split; [|split; [|split]]].
  - intros a b k Hin Hk. apply consecutive_ranges_maximal in Hin.
    destruct Hin as [_ [Hall _]]. apply Hall. exact Hk.
  - intros k Hk.
    apply (cover_unique mask _ (consecutive_ranges_gapped mask)
             (consecutive_ranges_cover mask)). exact Hk.
  - intros i j a b c d. apply gapped_nth with (lo := 0).
    apply consecutive_ranges_gapped.
  - intros k Hk Hl Hr. apply consecutive_ranges_maximal.
    unfold maximal_run, maximal_run_of, marked. split; [lia|]. split; [|split].
    + intros k' Hk'. replace k' with k by lia. exact Hk.
    + destruct Hl as [Hl|Hl]; [left; exact Hl|right]. congruence.
    + congruence.
  - intros Hall. unfold _consecutive_ranges.
    destruct (any mask) eqn:Hany; [|reflexivity].
    unfold any in Hany. apply existsb_exists in Hany.
    destruct Hany as [b [Hin Hb]]. rewrite (Hall b Hin) in Hb. discriminate.
Qed.

(** C9.  The run detector is idempotent through the mask of its output:
    the mask of the length of the input that is [True] exactly at the
    positions the returned ranges cover gives back the same ranges. *)
Theorem consecutive_ranges_idempotent (mask : list bool) :
  _consecutive_ranges
    (mask_of_ranges (List.length mask) (_consecutive_ranges mask))
  = _consecutive_ranges mask.
Proof.
  rewrite (mask_of_consecutive_ranges mask). reflexivity.
Qed.

(** ** Heatwaves and cold spells: facts *)

Section EventFacts.

Context {K : Kernels}.

Lemma Qlt_bool_iff (x y : Q) : Qlt_bool x y = true <-> (x < y)%Q.
Proof.
  unfold Qlt_bool. rewrite negb_true_iff. split.
  - intros H. apply Qnot_le_lt. intros Hle.
    apply Qle_bool_iff in Hle. congruence.
  - intros H. destruct (Qle_bool y x) eqn:E; [|reflexivity].
    apply Qle_bool_iff in E. exfalso. exact (Qlt_not_le _ _ H E).
Qed.

Lemma maximal_run_of_ext (P P' : nat -> Prop) (a b : nat) :
  (forall k, P k <-> P' k) -> maximal_run_of P a b -> maximal_run_of P' a b.
Proof.
  intros Hext [Hab [Hall [Hl Hr]]]. split; [exact Hab|]. split; [|split].
  - intros k Hk. apply Hext. apply Hall. exact Hk.
  - destruct Hl as [Hl|Hl]; [left; exact Hl|right]. rewrite <- Hext. exact Hl.
  - rewrite <- Hext. exact Hr.
Qed.

Lemma marked_map (A : Type) (f : A -> bool) (l : list A) (k : nat) :
  marked (map f l) k <-> exists v, nth_error l k = Some v /\ f v = true.
Proof.
  unfold marked. revert k. induction l as [|x l IH]; intros k.
  - simpl. split; [destruct k; discriminate|]. intros [v [H _]].
    destruct k; discriminate.
  - destruct k as [|k]; simpl.
    + split; [intros H; exists x; auto|]. intros [v [E H]]. congruence.
    + apply IH.
Qed.

Lemma marked_above (s : Series) (thresh : float) (k : nat) :
  marked (map (fun v => float_gt v thresh) (values s)) k <-> above s thresh k.
Proof.
  rewrite marked_map. unfold above. split.
  - intros [[x|] [Hn Hc]]; [|discriminate]. destruct thresh as [t|]; [|discriminate].
    simpl in Hc. apply Qlt_bool_iff in Hc. exists x, t. auto.
  - intros [x [t [Hn [-> Hlt]]]]. exists (Some x). split; [exact Hn|].
    simpl. apply Qlt_bool_iff. exact Hlt.
Qed.

Lemma marked_below (s : Series) (thresh : float) (k : nat) :
  marked (map (fun v => float_lt v thresh) (values s)) k <-> below s thresh k.
Proof.
  rewrite marked_map. unfold below. split.
  - intros [[x|] [Hn Hc]]; [|discriminate]. destruct thresh as [t|]; [|discriminate].
    simpl in Hc. apply Qlt_bool_iff in Hc. exists x, t. auto.
  - intros [x [t [Hn [-> Hlt]]]]. exists (Some x). split; [exact Hn|].
    simpl. apply Qlt_bool_iff. exact Hlt.
Qed.

(** With every range inside the index, the loop never raises: it keeps
    the ranges that are long enough and looks their dates up. *)
Lemma collect_runs_filter (idx : list Timestamp) (m : Z) (ranges : list (nat * nat)) :
  forall results,
    (forall a b, In (a, b) ranges -> a < List.length idx /\ b < List.length idx) ->
    collect_runs idx m ranges results =
    Ok (results ++ map (date_range idx) (filter (long_enough m) ranges)).
Proof.
  induction ranges as [|[a b] ranges IH]; intros results Hin.
  - simpl. now rewrite app_nil_r.
  - cbn [collect_runs filter]. unfold long_enough at 1. cbn [fst snd].
    assert (Hrest : forall a' b', In (a', b') ranges ->
                      a' < List.length idx /\ b' < List.length idx).
    { intros a' b' H. apply Hin. right. exact H. }
    destruct (m <=? Z.of_nat b - Z.of_nat a + 1)%Z.
    + destruct (Hin a b (or_introl eq_refl)) as [Ha Hb].
      rewrite (nth_error_nth' idx 0%Z Ha), (nth_error_nth' idx 0%Z Hb).
      rewrite (IH _ Hrest). cbn [map]. unfold date_range at 2. cbn [fst snd].
      now rewrite <- app_assoc.
    + apply (IH _ Hrest).
Qed.

Lemma ranges_in_bounds (mask : list bool) (a b : nat) :
  In (a, b) (_consecutive_ranges mask) ->
  a < List.length mask /\ b < List.length mask.
Proof.
  intros Hin. apply consecutive_ranges_maximal in Hin.
  destruct Hin as [Hab [Hall _]].
  split; apply marked_lt_length; apply Hall; lia.
Qed.

Lemma collect_runs_ranges (s : Series) (m : Z) (f : float -> bool) :
  collect_runs (index s) m (_consecutive_ranges (map f (values s))) [] =
  Ok (map (date_range (index s))
          (filter (long_enough m) (_consecutive_ranges (map f (values s))))).
Proof.
  rewrite collect_runs_filter; [reflexivity|].
  intros a b Hin. apply ranges_in_bounds in Hin.
  unfold index, values in *. rewrite !length_map in *. exact Hin.
Qed.

(** The ranges that come out of the loop, by positions. *)
Lemma In_detected (idx : list Timestamp) (m : Z) (mask : list bool)
    (d1 d2 : Timestamp) :
  List.length mask = List.length idx ->
  (In (d1, d2)
      (map (date_range idx) (filter (long_enough m) (_consecutive_ranges mask)))
   <->
   exists a b, maximal_run mask a b /\ (m <= Z.of_nat b - Z.of_nat a + 1)%Z /\
               nth_error idx a = Some d1 /\ nth_error idx b = Some d2).
Proof.
  intros Hlen. rewrite in_map_iff. split.
  - intros [[a b] [E Hin]]. apply filter_In in Hin. destruct Hin as [Hin Hlong].
    unfold date_range in E. cbn [fst snd] in E. inversion E; subst.
    destruct (ranges_in_bounds _ _ _ Hin) as [Ha Hb]. rewrite Hlen in Ha, Hb.
    exists a, b. split; [apply consecutive_ranges_maximal; exact Hin|].
    split; [apply Z.leb_le; exact Hlong|].
    split; apply nth_error_nth'; assumption.
  - intros [a [b [Hrun [Hlong [Ha Hb]]]]]. exists (a, b). split.
    + unfold date_range. cbn [fst snd].
      f_equal; apply nth_error_nth; assumption.
    + apply filter_In. split; [apply consecutive_ranges_maximal; exact Hrun|].
      apply Z.leb_le. exact Hlong.
Qed.

(** A check by evaluation that the [True] positions of a mask are
    [a .. b]. *)
Lemma marked_block_check (mask : list bool) (a b : nat) :
  forallb (fun k => Bool.eqb (nth k mask false) ((a <=? k) && (k <=? b)))
          (seq 0 (S (Nat.max (List.length mask) b))) = true ->
  forall k, marked mask k <-> a <= k <= b.
Proof.
  intros Hall k. unfold marked. rewrite forallb_forall in Hall.
  destruct (Nat.lt_ge_cases k (S (Nat.max (List.length mask) b))) as [Hlt|Hge].
  - assert (Hk : In k (seq 0 (S (Nat.max (List.length mask) b))))
      by (apply in_seq; lia).
    apply Hall in Hk. apply Bool.eqb_prop in Hk. rewrite Hk.
    rewrite andb_true_iff, !Nat.leb_le. reflexivity.
  - rewrite nth_overflow by lia. split; [discriminate|lia].
Qed.

(** A mask whose [True] positions are exactly [a .. b] has that one run. *)
Lemma single_block_ranges (mask : list bool) (a b : nat) :
  a <= b -> (forall k, marked mask k <-> a <= k <= b) ->
  _consecutive_ranges mask = [(a, b)].
Proof.
  intros Hab Hblock.
  assert (Hrun : maximal_run mask a b).
  { split; [exact Hab|]. split; [|split].
    - intros k Hk. apply Hblock. exact Hk.
    - destruct a as [|a']; [left; reflexivity|right]. rewrite Hblock. lia.
    - rewrite Hblock. lia. }
  assert (Honly : forall c d, In (c, d) (_consecutive_ranges mask) -> (c, d) = (a, b)).
  { intros c d Hin. apply consecutive_ranges_maximal in Hin.
    destruct Hin as [Hcd [Hall [Hl Hr]]].
    assert (Hc : a <= c <= b) by (apply Hblock, Hall; lia).
    assert (Hd : a <= d <= b) by (apply Hblock, Hall; lia).
    assert (c = a).
    { destruct Hl as [->|Hl]; [lia|]. rewrite Hblock in Hl. lia. }
    assert (d = b) by (rewrite Hblock in Hr; lia).
    now subst. }
  apply consecutive_ranges_maximal in Hrun.
  pose proof (consecutive_ranges_gapped mask) as Hg.
  destruct (_consecutive_ranges mask) as [|[c d] [|[c' d'] l]].
  - destruct Hrun.
  - f_equal. apply Honly. left. reflexivity.
  - exfalso.
    pose proof (Honly c d (or_introl eq_refl)) as E1.
    pose proof (Honly c' d' (or_intror (or_introl eq_refl))) as E2.
    inversion E1; inversion E2; subst. simpl in Hg. lia.
Qed.

Lemma getitem_has_column (df : DataFrame) (var : string) (s : Series) :
  getitem df var = Ok s -> has_column df var = true.
Proof.
  unfold getitem. destruct (has_column df var); [reflexivity|discriminate].
Qed.

Lemma detect_heatwaves_unfold (df : DataFrame) (var : string) (p : Q) (m : Z)
    (s : Series) :
  getitem df var = Ok s ->
  detect_heatwaves df var p m =
  bind (nanpercentile (values (dropna s)) p)
       (fun thresh =>
          Ok (map (date_range (index s))
                (filter (long_enough m)
                   (_consecutive_ranges
                      (map (fun v => float_gt v thresh) (values s)))))).
Proof.
  intros Hs. unfold detect_heatwaves.
  rewrite (getitem_has_column _ _ _ Hs), Hs. cbn [negb bind].
  destruct (nanpercentile (values (dropna s)) p) as [thresh|e]; [|reflexivity].
  cbn [bind]. apply collect_runs_ranges.
Qed.

Lemma detect_cold_spells_unfold (df : DataFrame) (var : string) (p : Q) (m : Z)
    (s : Series) :
  getitem df var = Ok s ->
  detect_cold_spells df var p m =
  bind (nanpercentile (values (dropna s)) p)
       (fun thresh =>
          Ok (map (date_range (index s))
                (filter (long_enough m)
                   (_consecutive_ranges
                      (map (fun v => float_lt v thresh) (values s)))))).
Proof.
  intros Hs. unfold detect_cold_spells.
  rewrite (getitem_has_column _ _ _ Hs), Hs. cbn [negb bind].
  destruct (nanpercentile (values (dropna s)) p) as [thresh|e]; [|reflexivity].
  cbn [bind]. apply collect_runs_ranges.
Qed.

Lemma mask_length (s : Series) (f : float -> bool) :
  List.length (map f (values s)) = List.length (index s).
Proof.
  unfold values, index. now rewrite !length_map.
Qed.

(** A run of positions marked by a comparison that NaN fails holds no
    missing value. *)
Lemma run_without_missing (s : Series) (f : float -> bool) (a b k : nat) :
  f nan = false ->
  maximal_run (map f (values s)) a b -> a <= k <= b ->
  exists x, nth_error (values s) k = Some (Some x).
Proof.
  intros Hnan [_ [Hall _]] Hk. specialize (Hall k Hk).
  apply marked_map in Hall. destruct Hall as [[x|] [Hn Hf]].
  - exists x. exact Hn.
  - unfold nan in Hnan. congruence.
Qed.

Lemma sorted_nth_lt (l : list Z) :
  StronglySorted Z.lt l ->
  forall i j x y, i < j -> nth_error l i = Some x -> nth_error l j = Some y ->
                  (x < y)%Z.
Proof.
  induction 1 as [|z l Hs IH Hall]; intros i j x y Hij Hi Hj.
  - destruct i; discriminate.
  - destruct j as [|j]; [lia|]. simpl in Hj. destruct i as [|i].
    + simpl in Hi. inversion Hi; subst.
      apply nth_error_In in Hj. rewrite Forall_forall in Hall. auto.
    + simpl in Hi. apply (IH i j); auto. lia.
Qed.

(** On an ascending index, the dates of a range hold no missing value. *)
Lemma dates_without_missing (s : Series) (a b : nat) (d1 d2 : Timestamp) :
  StronglySorted Z.lt (index s) ->
  nth_error (index s) a = Some d1 -> nth_error (index s) b = Some d2 ->
  (forall k, a <= k <= b -> exists x, nth_error (values s) k = Some (Some x)) ->
  forall t v, In (t, v) s -> (d1 <= t <= d2)%Z -> v <> nan.
Proof.
  intros Hs Ha Hb Hall t v Hin Ht.
  destruct (In_nth_error _ _ Hin) as [k Hk].
  assert (Hkt : nth_error (index s) k = Some t).
  { unfold index. now rewrite (map_nth_error fst _ _ Hk). }
  assert (Hkv : nth_error (values s) k = Some v).
  { unfold values. now rewrite (map_nth_error snd _ _ Hk). }
  assert (Hak : a <= k).
  { destruct (Nat.le_gt_cases a k) as [H|H]; [exact H|].
    pose proof (sorted_nth_lt _ Hs _ _ _ _ H Hkt Ha). lia. }
  assert (Hkb : k <= b).
  { destruct (Nat.le_gt_cases k b) as [H|H]; [exact H|].
    pose proof (sorted_nth_lt _ Hs _ _ _ _ H Hb Hkt). lia. }
  destruct (Hall k (conj Hak Hkb)) as [x Hx].
  rewrite Hx in Hkv. inversion Hkv. discriminate.
Qed.

End EventFacts.

(** C3, as the code has it.  For a series [s] that holds the variable,
    with [thresh] the percentile of the non-missing values of the variable:
    [detect_heatwaves] marks the positions whose value is strictly above
    [thresh], takes the runs of the run detector, drops those shorter than
    [min_duration] and returns the dates at the start and the end of the
    others.  A pair of dates is returned if and only if it is the dates of a
    maximal run of positions strictly above the threshold that is at least
    [min_duration] long.  An injected block is the only range returned
    under a condition on the rest of the series: when the positions strictly
    above the threshold are the block [a .. b] and no other, and the block
    is at least [min_duration] days long, exactly one range is returned,
    from the date at [a] to the date at [b].  Days outside the block that
    lie above the threshold make runs of their own. *)
Theorem detect_heatwaves_runs `{K : Kernels} (df : DataFrame) (var : string)
    (percentile : Q) (min_duration : Z) (s : Series) (thresh : float) :
  getitem df var = Ok s ->
  nanpercentile (values (dropna s)) percentile = Ok thresh ->
  exists out,
    detect_heatwaves df var percentile min_duration = Ok out /\
    out = map (date_range (index s))
            (filter (long_enough min_duration)
               (_consecutive_ranges
                  (map (fun v => float_gt v thresh) (values s)))) /\
    (forall d1 d2,
        In (d1, d2) out <->
        exists a b,
          maximal_run_of (above s thresh) a b /\
          (min_duration <= Z.of_nat b - Z.of_nat a + 1)%Z /\
          nth_error (index s) a = Some d1 /\ nth_error (index s) b = Some d2) /\
    (forall a b d1 d2,
        a <= b -> (forall k, above s thresh k <-> a <= k <= b) ->
        (min_duration <= Z.of_nat b - Z.of_nat a + 1)%Z ->
        nth_error (index s) a = Some d1 -> nth_error (index s) b = Some d2 ->
        out = [(d1, d2)]).
Proof.
  intros Hs Hp. eexists. split; [|split; [reflexivity|split]].
  - rewrite (detect_heatwaves_unfold _ _ _ _ _ Hs), Hp. reflexivity.
  - intros d1 d2. rewrite In_detected by apply mask_length.
    split; intros [a [b [Hrun H]]]; exists a, b; (split; [|exact H]).
    + revert Hrun. apply maximal_run_of_ext. apply marked_above.
    + revert Hrun. apply maximal_run_of_ext. intros k. symmetry. apply marked_above.
  - intros a b d1 d2 Hab Hblock Hlong Ha Hb.
    rewrite (single_block_ranges _ a b Hab).
    + cbn [filter]. unfold long_enough. cbn [fst snd].
      apply Z.leb_le in Hlong. rewrite Hlong. cbn [map]. unfold date_range.
      cbn [fst snd]. do 2 f_equal; apply nth_error_nth; assumption.
    + intros k. rewrite marked_above. apply Hblock.
Qed.

(** C10.  In [detect_heatwaves] and [detect_cold_spells] a missing value
    fails the comparison with the threshold in both directions.  So a run
    of marked positions never holds a position whose value is missing: a
    missing day between qualifying days ends one run and the next starts
    after it.  Every returned range is the dates of positions [a <= b]
    whose values from [a] to [b] are all numbers, and on an ascending index
    no date from its start to its end has a missing value. *)
Theorem missing_days_break_runs `{K : Kernels} (df : DataFrame) (var : string)
    (percentile : Q) (min_duration : Z) (s : Series)
    (out : list (Timestamp * Timestamp)) :
  getitem df var = Ok s ->
  detect_heatwaves df var percentile min_duration = Ok out \/
  detect_cold_spells df var percentile min_duration = Ok out ->
  (forall thresh, float_gt nan thresh = false /\ float_lt nan thresh = false) /\
  (forall thresh a b k,
      In (a, b) (_consecutive_ranges (map (fun v => float_gt v thresh) (values s))) \/
      In (a, b) (_consecutive_ranges (map (fun v => float_lt v thresh) (values s))) ->
      missing s k -> ~ a <= k <= b) /\
  (forall d1 d2,
      In (d1, d2) out ->
      exists a b,
        a <= b /\
        nth_error (index s) a = Some d1 /\ nth_error (index s) b = Some d2 /\
        (forall k, a <= k <= b -> exists x, nth_error (values s) k = Some (Some x)) /\
        (StronglySorted Z.lt (index s) ->
         forall t v, In (t, v) s -> (d1 <= t <= d2)%Z -> v <> nan)).
Proof.
  intros Hs Hout. split; [intros thresh; split; reflexivity|]. split.
  - intros thresh a b k Hin Hmiss Hk. unfold missing in Hmiss.
    destruct Hin as [Hin|Hin]; apply consecutive_ranges_maximal in Hin;
      destruct (run_without_missing s _ a b k eq_refl Hin Hk) as [x Hx];
      congruence.
  - assert (Hex : exists f, f nan = false /\
              out = map (date_range (index s))
                      (filter (long_enough min_duration)
                         (_consecutive_ranges (map f (values s))))).
    { destruct Hout as [Hout|Hout].
      - rewrite (detect_heatwaves_unfold _ _ _ _ _ Hs) in Hout.
        destruct (nanpercentile (values (dropna s)) percentile) as [thresh|e];
          [|discriminate].
        exists (fun v => float_gt v thresh). split; [reflexivity|].
        cbn [bind] in Hout. now inversion Hout.
      - rewrite (detect_cold_spells_unfold _ _ _ _ _ Hs) in Hout.
        destruct (nanpercentile (values (dropna s)) percentile) as [thresh|e];
          [|discriminate].
        exists (fun v => float_lt v thresh). split; [reflexivity|].
        cbn [bind] in Hout. now inversion Hout. }
    destruct Hex as [f [Hnan ->]]. intros d1 d2 Hin.
    apply In_detected in Hin; [|apply mask_length].
    destruct Hin as [a [b [Hrun [_ [Ha Hb]]]]].
    assert (Hall : forall k, a <= k <= b ->
                     exists x, nth_error (values s) k = Some (Some x)).
    { intros k Hk. apply (run_without_missing s f a b k Hnan Hrun Hk). }
    exists a, b. split; [destruct Hrun; assumption|].
    split; [exact Ha|]. split; [exact Hb|]. split; [exact Hall|].
    intros Hsorted. apply (dates_without_missing s a b d1 d2 Hsorted Ha Hb Hall).
Qed.

(** ** Missing variables and short trends *)

Lemma has_column_In (df : DataFrame) (var : string) :
  has_column df var = true <-> In var (columns df).
Proof.
  unfold has_column. rewrite existsb_exists. split.
  - intros [c [Hin Heq]]. apply String.eqb_eq in Heq. now subst.
  - intros Hin. exists var. split; [exact Hin|apply String.eqb_refl].
Qed.

Lemma has_column_not_In (df : DataFrame) (var : string) :
  ~ In var (columns df) -> has_column df var = false.
Proof.
  intros Hnot. destruct (has_column df var) eqn:E; [|reflexivity].
  apply has_column_In in E. contradiction.
Qed.

(** C8.  Each of the six entry points raises [KeyError] on the name, the
    MissingVariable error, when the requested name is not a column of the
    frame, whatever the rows and the other arguments are. *)
Theorem missing_variable_raises `{K : Kernels} (df : DataFrame) (var : string) :
  ~ In var (columns df) ->
  get_monthly_records df var = Raise (KeyError var) /\
  (forall window_days, rolling_mean df var window_days = Raise (KeyError var)) /\
  (forall rule, estimate_trend df var rule = Raise (KeyError var)) /\
  (forall percentile min_duration,
      detect_heatwaves df var percentile min_duration = Raise (KeyError var)) /\
  (forall percentile min_duration,
      detect_cold_spells df var percentile min_duration = Raise (KeyError var)) /\
  (forall season_months percentile,
      detect_droughts df var season_months percentile = Raise (KeyError var)).
Proof.
  intros Hnot. pose proof (has_column_not_In df var Hnot) as Hcol.
  unfold get_monthly_records, rolling_mean, estimate_trend, detect_heatwaves,
    detect_cold_spells, detect_droughts, getitem.
  rewrite Hcol. cbn [negb bind]. repeat split.
Qed.

(** C7.  When the variable is a column and the resampled series (the
    missing values dropped, the mean per bucket taken) has fewer than two
    buckets that hold data, [estimate_trend] returns [(None, None)]: it
    raises nothing, the regression is not run. *)
Theorem estimate_trend_insufficient_data `{K : Kernels} (df : DataFrame)
    (var rule : string) (s ser : Series) :
  getitem df var = Ok s ->
  resample_mean rule (dropna s) = Ok ser ->
  mask_sum ser < 2 ->
  estimate_trend df var rule = Ok (None, None).
Proof.
  intros Hs Hser Hfew. unfold estimate_trend.
  rewrite (getitem_has_column _ _ _ Hs), Hs. cbn [negb bind].
  rewrite Hser. cbn [bind].
  destruct (List.length ser <? 2) eqn:Hlen; [reflexivity|].
  apply Nat.ltb_lt in Hfew. rewrite Hfew. reflexivity.
Qed.

(** ** Records: facts *)

Section RecordFacts.

Lemma Qlt_bool_false (x y : Q) : Qlt_bool x y = false -> (y <= x)%Q.
Proof.
  unfold Qlt_bool. rewrite negb_false_iff. apply Qle_bool_iff.
Qed.

Lemma dropna_In (s : Series) (t : Timestamp) (v : Q) :
  In (t, v) (dropna s) <-> In (t, Some v) s.
Proof.
  induction s as [|[u [x|]] s IH]; simpl; [tauto| |].
  - rewrite IH. split; (intros [E|H]; [left; inversion E; reflexivity|right; exact H]).
  - rewrite IH. split; [auto|]. intros [E|H]; [discriminate|exact H].
Qed.

Lemma dropna_index_incl (s : Series) (t : Timestamp) :
  In t (index (dropna s)) -> In t (index s).
Proof.
  unfold index. rewrite !in_map_iff. intros [[u v] [E Hin]]. simpl in E. subst u.
  apply dropna_In in Hin. exists (t, Some v). auto.
Qed.

(** Dropping the missing values keeps the index ascending. *)
Lemma dropna_sorted (s : Series) :
  StronglySorted Z.lt (index s) -> StronglySorted Z.lt (index (dropna s)).
Proof.
  induction s as [|[u x] s IH]; intros Hs; [constructor|].
  simpl in Hs. inversion Hs as [|u' l' Hs' Hall]; subst.
  destruct x as [x|]; simpl; [|apply IH; exact Hs'].
  constructor; [apply IH; exact Hs'|].
  rewrite Forall_forall in *. intros t Ht. apply Hall.
  apply dropna_index_incl. exact Ht.
Qed.

Lemma getitem_index (df : DataFrame) (var : string) (s : Series) :
  getitem df var = Ok s -> index s = index (rows df).
Proof.
  unfold getitem. destruct (has_column df var); [|discriminate].
  intros E. inversion E. unfold index. rewrite map_map. reflexivity.
Qed.

Lemma sorted_tail_skip (x y : Z) (l : list Z) :
  StronglySorted Z.lt (x :: y :: l) -> StronglySorted Z.lt (x :: l).
Proof.
  intros Hs. inversion Hs as [|x' l' Hs' Hall]; subst.
  inversion Hs' as [|y' l'' Hs'' Hall']; subst.
  inversion Hall; subst. constructor; assumption.
Qed.

Lemma argmax_spec (rest : list (Timestamp * Q)) :
  forall best,
    StronglySorted Z.lt (index (best :: rest)) ->
    In (argmax best rest) (best :: rest) /\
    (forall p, In p (best :: rest) -> (snd p <= snd (argmax best rest))%Q) /\
    (forall p, In p (best :: rest) -> (snd (argmax best rest) <= snd p)%Q ->
               (fst (argmax best rest) <= fst p)%Z).
Proof.
  induction rest as [|q rest IH]; intros best Hs.
  - simpl. split; [left; reflexivity|]. split.
    + intros p [<-|[]]. apply Qle_refl.
    + intros p [<-|[]] _. lia.
  - cbn [argmax]. destruct (Qlt_bool (snd best) (snd q)) eqn:Hlt.
    + apply Qlt_bool_iff in Hlt.
      assert (Hs' : StronglySorted Z.lt (index (q :: rest))).
      { simpl in Hs. inversion Hs; assumption. }
      destruct (IH q Hs') as [Hin [Hmax Hfirst]].
      split; [right; exact Hin|]. split.
      * intros p [<-|Hp]; [|apply Hmax; exact Hp].
        apply Qle_trans with (snd q); [apply Qlt_le_weak; exact Hlt|].
        apply Hmax. left. reflexivity.
      * intros p [<-|Hp] Hle; [exfalso|apply Hfirst; assumption].
        apply (Qlt_irrefl (snd best)).
        apply Qlt_le_trans with (snd q); [exact Hlt|].
        apply Qle_trans with (snd (argmax q rest)); [|exact Hle].
        apply Hmax. left. reflexivity.
    + apply Qlt_bool_false in Hlt.
      assert (Hs' : StronglySorted Z.lt (index (best :: rest))).
      { simpl in Hs. simpl. apply (sorted_tail_skip _ _ _ Hs). }
      assert (Hbq : (fst best < fst q)%Z).
      { simpl in Hs. inversion Hs as [|x l _ Hall]; subst. now inversion Hall. }
      destruct (IH best Hs') as [Hin [Hmax Hfirst]].
      split; [destruct Hin as [Hin|Hin]; [left; exact Hin|right; right; exact Hin]|].
      split.
      * intros p [<-|[<-|Hp]].
        -- apply Hmax. left. reflexivity.
        -- apply Qle_trans with (snd best); [exact Hlt|]. apply Hmax. left. reflexivity.
        -- apply Hmax. right. exact Hp.
      * intros p [<-|[<-|Hp]] Hle.
        -- apply Hfirst; [left; reflexivity|exact Hle].
        -- assert ((fst (argmax best rest) <= fst best)%Z); [|lia].
           apply Hfirst; [left; reflexivity|].
           apply Qle_trans with (snd q); assumption.
        -- apply Hfirst; [right; exact Hp|exact Hle].
Qed.

Lemma argmin_spec (rest : list (Timestamp * Q)) :
  forall best,
    StronglySorted Z.lt (index (best :: rest)) ->
    In (argmin best rest) (best :: rest) /\
    (forall p, In p (best :: rest) -> (snd (argmin best rest) <= snd p)%Q) /\
    (forall p, In p (best :: rest) -> (snd p <= snd (argmin best rest))%Q ->
               (fst (argmin best rest) <= fst p)%Z).
Proof.
  induction rest as [|q rest IH]; intros best Hs.
  - simpl. split; [left; reflexivity|]. split.
    + intros p [<-|[]]. apply Qle_refl.
    + intros p [<-|[]] _. lia.
  - cbn [argmin]. destruct (Qlt_bool (snd q) (snd best)) eqn:Hlt.
    + apply Qlt_bool_iff in Hlt.
      assert (Hs' : StronglySorted Z.lt (index (q :: rest))).
      { simpl in Hs. inversion Hs; assumption. }
      destruct (IH q Hs') as [Hin [Hmin Hfirst]].
      split; [right; exact Hin|]. split.
      * intros p [<-|Hp]; [|apply Hmin; exact Hp].
        apply Qle_trans with (snd q); [|apply Qlt_le_weak; exact Hlt].
        apply Hmin. left. reflexivity.
      * intros p [<-|Hp] Hle; [exfalso|apply Hfirst; assumption].
        apply (Qlt_irrefl (snd q)).
        apply Qlt_le_trans with (snd best); [exact Hlt|].
        apply Qle_trans with (snd (argmin q rest)); [exact Hle|].
        apply Hmin. left. reflexivity.
    + apply Qlt_bool_false in Hlt.
      assert (Hs' : StronglySorted Z.lt (index (best :: rest))).
      { simpl in Hs. simpl. apply (sorted_tail_skip _ _ _ Hs). }
      assert (Hbq : (fst best < fst q)%Z).
      { simpl in Hs. inversion Hs as [|x l _ Hall]; subst. now inversion Hall. }
      destruct (IH best Hs') as [Hin [Hmin Hfirst]].
      split; [destruct Hin as [Hin|Hin]; [left; exact Hin|right; right; exact Hin]|].
      split.
      * intros p [<-|[<-|Hp]].
        -- apply Hmin. left. reflexivity.
        -- apply Qle_trans with (snd best); [|exact Hlt]. apply Hmin. left. reflexivity.
        -- apply Hmin. right. exact Hp.
      * intros p [<-|[<-|Hp]] Hle.
        -- apply Hfirst; [left; reflexivity|exact Hle].
        -- assert ((fst (argmin best rest) <= fst best)%Z); [|lia].
           apply Hfirst; [left; reflexivity|].
           apply Qle_trans with (snd q); assumption.
        -- apply Hfirst; [right; exact Hp|exact Hle].
Qed.

(** On an index without duplicates a label finds the value stored with it. *)
Lemma loc_In (l : list (Timestamp * Q)) (t : Timestamp) (v : Q) :
  StronglySorted Z.lt (index l) -> In (t, v) l -> loc l t = Ok v.
Proof.
  induction l as [|[u x] l IH]; intros Hs Hin; [destruct Hin|].
  simpl in Hs. inversion Hs as [|u' l' Hs' Hall]; subst.
  cbn [loc]. destruct Hin as [E|Hin].
  - inversion E; subst. now rewrite Z.eqb_refl.
  - destruct (Z.eqb_spec u t) as [->|Hne]; [exfalso|apply IH; assumption].
    rewrite Forall_forall in Hall.
    assert (t < t)%Z; [|lia]. apply Hall.
    unfold index. apply in_map_iff. exists (t, v). auto.
Qed.

End RecordFacts.

(** C6.  For a frame with ascending, distinct timestamps and at least one
    non-missing value of the variable, [get_monthly_records] returns a
    record with [max_value >= min_value]; [max_date] and [min_date] are
    timestamps of the index of the frame, and the series holds [max_value]
    at [max_date] and [min_value] at [min_date]; the two values are the
    largest and the smallest non-missing value; and of the timestamps that
    attain the extremum the earliest is reported. *)
Theorem get_monthly_records_extrema `{K : Kernels} (df : DataFrame)
    (var : string) (s : Series) :
  getitem df var = Ok s ->
  StronglySorted Z.lt (index (rows df)) ->
  dropna s <> [] ->
  exists r,
    get_monthly_records df var = Ok (Some r) /\
    (min_value r <= max_value r)%Q /\
    In (max_date r) (index (rows df)) /\ In (min_date r) (index (rows df)) /\
    In (max_date r, Some (max_value r)) s /\
    In (min_date r, Some (min_value r)) s /\
    (forall t v, In (t, Some v) s ->
                 (min_value r <= v)%Q /\ (v <= max_value r)%Q) /\
    (forall t v, In (t, Some v) s -> (v == max_value r)%Q -> (max_date r <= t)%Z) /\
    (forall t v, In (t, Some v) s -> (v == min_value r)%Q -> (min_date r <= t)%Z).
Proof.
  intros Hs Hsorted Hne.
  rewrite <- (getitem_index _ _ _ Hs) in *.
  pose proof (dropna_sorted s Hsorted) as Hds.
  unfold get_monthly_records.
  rewrite (getitem_has_column _ _ _ Hs), Hs. cbn [negb bind].
  destruct (dropna s) as [|p0 rest] eqn:Hd; [congruence|].
  destruct (argmax_spec rest p0 Hds) as [Hmax_in [Hmax Hmax_first]].
  destruct (argmin_spec rest p0 Hds) as [Hmin_in [Hmin Hmin_first]].
  unfold idxmax, idxmin.
  destruct (argmax p0 rest) as [tmax vmax] eqn:Emax.
  destruct (argmin p0 rest) as [tmin vmin] eqn:Emin.
  cbn [fst snd] in *.
  rewrite (loc_In (p0 :: rest) tmax vmax Hds Hmax_in). cbn [bind].
  rewrite (loc_In (p0 :: rest) tmin vmin Hds Hmin_in). cbn [bind].
  eexists. split; [reflexivity|]. cbn [max_value max_date min_value min_date].
  assert (Hback : forall t v, In (t, Some v) s -> In (t, v) (p0 :: rest)).
  { intros t v H. rewrite <- Hd. apply dropna_In. exact H. }
  assert (Hfwd : forall t v, In (t, v) (p0 :: rest) -> In (t, Some v) s).
  { intros t v H. apply dropna_In. rewrite Hd. exact H. }
  split; [apply (Hmin (tmax, vmax) Hmax_in)|].
  split; [apply in_map_iff; exists (tmax, Some vmax); auto|].
  split; [apply in_map_iff; exists (tmin, Some vmin); auto|].
  split; [auto|]. split; [auto|]. split; [|split].
  - intros t v H. split.
    + apply (Hmin (t, v) (Hback t v H)).
    + apply (Hmax (t, v) (Hback t v H)).
  - intros t v H Heq. apply (Hmax_first (t, v) (Hback t v H)).
    cbn [snd]. rewrite Heq. apply Qle_refl.
  - intros t v H Heq. apply (Hmin_first (t, v) (Hback t v H)).
    cbn [snd]. rewrite Heq. apply Qle_refl.
Qed.

(** ** Rolling mean: facts *)

Section RollingFacts.

Context {K : Kernels}.

Lemma sorted_app_inv (l1 l2 : list Z) (x : Z) :
  StronglySorted Z.lt (l1 ++ x :: l2) ->
  Forall (fun y => (y < x)%Z) l1 /\ Forall (fun y => (x < y)%Z) l2.
Proof.
  induction l1 as [|y l1 IH]; simpl; intros Hs.
  - inversion Hs; subst. split; [constructor|assumption].
  - inversion Hs as [|y' l' Hs' Hall]; subst.
    destruct (IH Hs') as [H1 H2]. split; [|exact H2].
    constructor; [|exact H1].
    rewrite Forall_forall in Hall. apply Hall. apply in_or_app. right. left. reflexivity.
Qed.

Lemma sorted_monotonic (l : list Z) :
  StronglySorted Z.lt l -> is_monotonic_increasing l = true.
Proof.
  induction 1 as [|x l Hs IH Hall]; [reflexivity|].
  cbn [is_monotonic_increasing]. destruct l as [|y l]; [reflexivity|].
  rewrite IH, andb_true_r. inversion Hall; subst. apply Z.leb_le. lia.
Qed.

Lemma filter_none {A : Type} (f : A -> bool) (l : list A) :
  (forall x, In x l -> f x = false) -> filter f l = [].
Proof.
  induction l as [|x l IH]; intros H; [reflexivity|]. simpl.
  rewrite (H x (or_introl eq_refl)). apply IH. intros y Hy. apply H. right. exact Hy.
Qed.

(** On an ascending index the rows up to [t] that are later than [t - w]
    are the rows of the whole series in the window [(t - w, t]]. *)
Lemma trailing_rows_window (w : Z) (seen rest : list (Timestamp * Q))
    (t : Timestamp) (v : Q) :
  StronglySorted Z.lt (index (seen ++ (t, v) :: rest)) ->
  filter (fun p => (t - w <? fst p)%Z) (seen ++ [(t, v)]) =
  filter (fun p => in_window w t (fst p)) (seen ++ (t, v) :: rest).
Proof.
  intros Hs. unfold index in Hs. rewrite map_app in Hs. cbn [map fst] in Hs.
  destruct (sorted_app_inv _ _ _ Hs) as [Hbefore Hafter].
  rewrite Forall_forall in Hbefore, Hafter.
  replace (seen ++ (t, v) :: rest) with ((seen ++ [(t, v)]) ++ rest)
    by (rewrite <- app_assoc; reflexivity).
  rewrite (filter_app _ (seen ++ [(t, v)]) rest).
  assert (Hnone : filter (fun p => in_window w t (fst p)) rest = []).
  { apply filter_none. intros p Hp.
    unfold in_window. assert (t < fst p)%Z by (apply Hafter, in_map; exact Hp).
    apply andb_false_iff. right. apply Z.leb_gt. lia. }
  rewrite Hnone, app_nil_r. apply filter_ext_in. intros p Hp.
  unfold in_window. assert (Hle : (fst p <= t)%Z).
  { apply in_app_or in Hp. destruct Hp as [Hp|[<-|[]]]; [|simpl; lia].
    assert (fst p < t)%Z by (apply Hbefore, in_map; exact Hp). lia. }
  apply Z.leb_le in Hle. rewrite Hle. now rewrite andb_true_r.
Qed.

Lemma rolling_loop_window (w : Z) (rest : list (Timestamp * Q)) :
  forall seen,
    StronglySorted Z.lt (index (seen ++ rest)) ->
    rolling_loop w seen rest =
    map (fun p => (fst p, window_mean (seen ++ rest) w (fst p))) rest.
Proof.
  induction rest as [|[t v] rest IH]; intros seen Hs; [reflexivity|].
  cbn [rolling_loop map fst]. f_equal.
  - unfold window_mean. now rewrite (trailing_rows_window w seen rest t v Hs).
  - replace (seen ++ (t, v) :: rest) with ((seen ++ [(t, v)]) ++ rest) in *
      by (rewrite <- app_assoc; reflexivity).
    apply IH. exact Hs.
Qed.

(** The windows that fit in 64 bits of nanoseconds: up to 106751 days. *)
Lemma window_fits (w : Z) :
  (window_nanos w <=? int64_max)%Z = true <-> (w <= 106751)%Z.
Proof.
  unfold window_nanos. change int64_max with 9223372036854775807%Z.
  rewrite Z.leb_le. lia.
Qed.

(** With a window of at least one day that fits in 64 bits, on an
    ascending index, the rolling mean is the mean of the trailing window at
    every row. *)
Lemma rolling_mean_ascending (df : DataFrame) (var : string) (w : Z) (s : Series) :
  getitem df var = Ok s ->
  StronglySorted Z.lt (index (rows df)) ->
  (1 <= w <= 106751)%Z ->
  rolling_mean df var w =
  Ok (map (fun p => (fst p, window_mean (dropna s) w (fst p))) (dropna s)).
Proof.
  intros Hs Hsorted [Hw Hfit]. rewrite <- (getitem_index _ _ _ Hs) in Hsorted.
  pose proof (dropna_sorted s Hsorted) as Hds.
  unfold rolling_mean. rewrite Hs. cbn [bind].
  destruct (dropna s) as [|p0 rest] eqn:Hd; [reflexivity|].
  unfold rolling_D_mean. apply Z.leb_le in Hw. rewrite Hw.
  rewrite (sorted_monotonic _ Hds). cbn [andb].
  rewrite (proj2 (window_fits w) Hfit).
  now rewrite (rolling_loop_window w (p0 :: rest) [] Hds).
Qed.

(** A window of 106752 days or more on a series with data is refused. *)
Lemma rolling_mean_out_of_bounds (df : DataFrame) (var : string) (w : Z)
    (s : Series) :
  getitem df var = Ok s ->
  StronglySorted Z.lt (index (rows df)) ->
  dropna s <> [] ->
  (106752 <= w)%Z ->
  rolling_mean df var w = Raise (ValueError "OutOfBoundsTimedelta").
Proof.
  intros Hs Hsorted Hne Hbig. rewrite <- (getitem_index _ _ _ Hs) in Hsorted.
  pose proof (dropna_sorted s Hsorted) as Hds.
  unfold rolling_mean. rewrite Hs. cbn [bind].
  destruct (dropna s) as [|p0 rest] eqn:Hd; [congruence|].
  unfold rolling_D_mean.
  replace (1 <=? w)%Z with true by (symmetry; apply Z.leb_le; lia).
  rewrite (sorted_monotonic _ Hds). cbn [andb].
  destruct (window_nanos w <=? int64_max)%Z eqn:Hfit; [|reflexivity].
  apply window_fits in Hfit. lia.
Qed.

(** A window of at least one day holds the row it ends at. *)
Lemma window_mean_defined (s : list (Timestamp * Q)) (w : Z) (t : Timestamp) :
  (1 <= w)%Z -> In t (index s) -> exists q, window_mean s w t = Some q.
Proof.
  intros Hw Hin. unfold index in Hin. apply in_map_iff in Hin.
  destruct Hin as [p [<- Hp]]. unfold window_mean.
  assert (Hf : In p (filter (fun p0 => in_window w (fst p) (fst p0)) s)).
  { apply filter_In. split; [exact Hp|]. unfold in_window.
    apply andb_true_iff. split; [apply Z.ltb_lt|apply Z.leb_le]; lia. }
  destruct (filter (fun p0 => in_window w (fst p) (fst p0)) s) as [|x l];
    [destruct Hf|].
  simpl. eexists. reflexivity.
Qed.

End RollingFacts.

(** C5, as the code has it.  For a frame with ascending, distinct
    timestamps that holds the variable and a window of at least one day
    that fits in 64 bits of nanoseconds (at most 106751 days),
    [rolling_mean] returns one point per non-missing value, at the same
    timestamps and in the same order, and the value at timestamp [t] is the
    arithmetic mean of the non-missing values whose timestamp lies in
    [(t - window_days, t]].  The window is cut by time, whatever the number
    of samples in it, and it always holds the sample at [t]: no point is
    NaN, and the first point is the first value itself. *)
Theorem rolling_mean_trailing_window `{K : Kernels} (df : DataFrame)
    (var : string) (window_days : Z) (s : Series) :
  getitem df var = Ok s ->
  StronglySorted Z.lt (index (rows df)) ->
  (1 <= window_days <= 106751)%Z ->
  exists out,
    rolling_mean df var window_days = Ok out /\
    List.length out = List.length (dropna s) /\
    index out = index (dropna s) /\
    (forall k t m, nth_error out k = Some (t, m) ->
        m = window_mean (dropna s) window_days t /\ exists q, m = Some q) /\
    (forall t0 v0 rest, dropna s = (t0, v0) :: rest ->
        exists q, hd_error out = Some (t0, Some q) /\ (q == v0)%Q).
Proof.
  intros Hs Hsorted Hw. eexists. split.
  - apply (rolling_mean_ascending df var window_days s Hs Hsorted Hw).
  - split; [now rewrite length_map|].
    split; [unfold index; rewrite map_map; reflexivity|]. split.
    + intros k t m Hk. apply nth_error_In in Hk. apply in_map_iff in Hk.
      destruct Hk as [p [E Hp]]. inversion E; subst. split; [reflexivity|].
      apply window_mean_defined; [lia|]. unfold index. apply in_map. exact Hp.
    + intros t0 v0 rest Hd. rewrite <- (getitem_index _ _ _ Hs) in Hsorted.
      pose proof (dropna_sorted s Hsorted) as Hds. rewrite Hd in *.
      cbn [map hd_error fst]. unfold window_mean.
      pose proof (trailing_rows_window window_days [] rest t0 v0 Hds) as Hrows.
      cbn [app] in Hrows. rewrite <- Hrows. cbn [filter fst].
      assert (Hin : (t0 - window_days <? t0)%Z = true) by (apply Z.ltb_lt; lia).
      rewrite Hin. cbn [values map snd mean List.length].
      eexists. split; [reflexivity|]. unfold Qsum. cbn [fold_left].
      change (inject_Z (Z.of_nat 1)) with 1%Q. field.
Qed.

(** C2, as the code has it.  [rolling_mean] does not look at
    [window_days] before it reads the column and drops the missing values:
    whatever the window, a name that is not a column raises [KeyError] and a
    column without a non-missing value gives the empty series.  On ascending
    timestamps, a window from 1 to 106751 days raises no error; a window of
    106752 days or more on a series with data is refused by the rolling
    window itself ([OutOfBoundsTimedelta], a [ValueError]), as it does not
    fit in 64 bits of nanoseconds. *)
Theorem rolling_mean_window_unchecked `{K : Kernels} (df : DataFrame)
    (var : string) (window_days : Z) :
  (~ In var (columns df) ->
   rolling_mean df var window_days = Raise (KeyError var)) /\
  (forall s, getitem df var = Ok s -> dropna s = [] ->
             rolling_mean df var window_days = Ok []) /\
  (forall s, getitem df var = Ok s ->
             StronglySorted Z.lt (index (rows df)) ->
             (1 <= window_days <= 106751)%Z ->
             exists out, rolling_mean df var window_days = Ok out) /\
  (forall s, getitem df var = Ok s ->
             StronglySorted Z.lt (index (rows df)) ->
             dropna s <> [] ->
             (106752 <= window_days)%Z ->
             rolling_mean df var window_days
             = Raise (ValueError "OutOfBoundsTimedelta")).
Proof.
  split; [|split; [|split]].
  - intros Hnot. unfold rolling_mean, getitem.
    now rewrite (has_column_not_In df var Hnot).
  - intros s Hs Hd. unfold rolling_mean. rewrite Hs. cbn [bind].
    now rewrite Hd.
  - intros s Hs Hsorted Hw. eexists.
    apply (rolling_mean_ascending df var window_days s Hs Hsorted Hw).
  - intros s Hs Hsorted Hne Hbig.
    apply (rolling_mean_out_of_bounds df var window_days s Hs Hsorted Hne Hbig).
Qed.

(** ** Droughts: facts *)

Section DroughtFacts.

Context {K : Kernels}.

Lemma days_in_month_pos (y m : Z) : (1 <= days_in_month y m)%Z.
Proof.
  unfold days_in_month.
  destruct (m =? 2)%Z; [destruct (is_leap y); lia|].
  destruct ((m =? 4) || (m =? 6) || (m =? 9) || (m =? 11))%Z; lia.
Qed.

Lemma Timestamp_ymd_valid (y m d : Z) :
  (1 <= m <= 12)%Z -> (1 <= d <= days_in_month y m)%Z ->
  Timestamp_ymd y m d = Ok (ymd2ord y m d).
Proof.
  intros Hm Hd. unfold Timestamp_ymd.
  replace (1 <=? m)%Z with true by (symmetry; apply Z.leb_le; lia).
  replace (m <=? 12)%Z with true by (symmetry; apply Z.leb_le; lia).
  replace (1 <=? d)%Z with true by (symmetry; apply Z.leb_le; lia).
  replace (d <=? days_in_month y m)%Z with true by (symmetry; apply Z.leb_le; lia).
  reflexivity.
Qed.

Lemma filter_map_swap {A B : Type} (f : B -> bool) (g : A -> B) (l : list A) :
  filter f (map g l) = map g (filter (fun x => f (g x)) l).
Proof.
  induction l as [|x l IH]; [reflexivity|]. simpl.
  destruct (f (g x)); simpl; now rewrite IH.
Qed.

(** Filling with zero and summing the window is the total of the season. *)
Lemma season_sum_fillna0 (s : Series) (months : Z * Z) (y : Z) :
  season_sum (fillna0 s) (season_start months y) (season_end months y) =
  season_total s months y.
Proof.
  unfold season_sum, season_total, fillna0, values.
  rewrite filter_map_swap, map_map. reflexivity.
Qed.

Lemma seasons_loop_valid (s : Series) (months : Z * Z) (years : list Z) :
  (1 <= fst months <= 12)%Z -> (1 <= snd months <= 12)%Z ->
  seasons_loop (fillna0 s) months years =
  Ok (map (fun y => (y, season_start months y, season_end months y,
                     season_total s months y)) years).
Proof.
  intros Hm0 Hm1. induction years as [|y years IH]; [reflexivity|].
  cbn [seasons_loop]. unfold month_end.
  rewrite (Timestamp_ymd_valid y (fst months) 1 Hm0)
    by (pose proof (days_in_month_pos y (fst months)); lia).
  rewrite (Timestamp_ymd_valid y (snd months) _ Hm1)
    by (pose proof (days_in_month_pos y (snd months)); lia).
  cbn [bind]. rewrite IH. cbn [bind map].
  fold (season_start months y). fold (season_end months y).
  now rewrite season_sum_fillna0.
Qed.

Lemma insert_sorted_In (y x : Z) (l : list Z) :
  In x (insert_sorted y l) <-> x = y \/ In x l.
Proof.
  induction l as [|z l IH]; simpl.
  - split; intros [H|H]; auto.
  - destruct (Z.ltb_spec y z); [simpl; split; intros [H'|H']; auto|].
    destruct (Z.eqb_spec y z) as [->|Hne].
    + simpl. split; [auto|]. intros [->|H']; auto.
    + simpl. rewrite IH. split.
      * intros [H'|[H'|H']]; auto.
      * intros [H'|[H'|H']]; auto.
Qed.

Lemma sorted_set_In (l : list Z) (x : Z) : In x (sorted_set l) <-> In x l.
Proof.
  induction l as [|y l IH]; simpl; [tauto|].
  rewrite insert_sorted_In, IH. split; intros [H|H]; auto.
Qed.

Lemma insert_sorted_sorted (y : Z) (l : list Z) :
  StronglySorted Z.lt l -> StronglySorted Z.lt (insert_sorted y l).
Proof.
  induction 1 as [|z l Hs IH Hall]; simpl.
  - constructor; constructor.
  - rewrite Forall_forall in Hall.
    destruct (Z.ltb_spec y z).
    + constructor; [constructor; [exact Hs|apply Forall_forall; exact Hall]|].
      constructor; [exact H|]. apply Forall_forall. intros x Hx.
      specialize (Hall x Hx). lia.
    + destruct (Z.eqb_spec y z) as [->|Hne].
      * constructor; [exact Hs|apply Forall_forall; exact Hall].
      * constructor; [exact IH|]. apply Forall_forall. intros x Hx.
        apply insert_sorted_In in Hx. destruct Hx as [->|Hx]; [lia|auto].
Qed.

Lemma sorted_set_sorted (l : list Z) : StronglySorted Z.lt (sorted_set l).
Proof.
  induction l as [|y l IH]; simpl; [constructor|].
  apply insert_sorted_sorted. exact IH.
Qed.

Lemma sorted_set_nonempty (l : list Z) : l <> [] -> sorted_set l <> [].
Proof.
  destruct l as [|y l]; [congruence|]. intros _ E.
  assert (H : In y (sorted_set (y :: l))) by (apply sorted_set_In; left; reflexivity).
  rewrite E in H. exact H.
Qed.

End DroughtFacts.

(** C4.  For a frame with at least one row that holds the precipitation
    variable, season months in 1..12, and [cut] the percentile of the
    totals of all years: [detect_droughts] returns a row per calendar year
    of the index, in ascending order, also for a year whose values are all
    missing; the total of a year is the sum over its season of the
    precipitation, a missing value counting for zero; every row carries
    [cut]; and a year is flagged if and only if its total is at most the
    cutoff, so a year whose total is the cutoff itself is flagged. *)
Theorem detect_droughts_inclusive `{K : Kernels} (df : DataFrame) (var : string)
    (months : Z * Z) (percentile : Q) (s : Series) (cut : float) :
  getitem df var = Ok s ->
  (1 <= fst months <= 12)%Z -> (1 <= snd months <= 12)%Z ->
  rows df <> [] ->
  nanpercentile
    (map (season_total s months) (sorted_set (map year_of (index (rows df)))))
    percentile = Ok cut ->
  exists out,
    detect_droughts df var months percentile = Ok out /\
    map year out = sorted_set (map year_of (index (rows df))) /\
    StronglySorted Z.lt (map year out) /\
    (forall y, In y (map year out) <-> exists t v, In (t, v) s /\ year_of t = y) /\
    (forall r, In r out ->
       start r = season_start months (year r) /\
       end_ r = season_end months (year r) /\
       precip r = season_total s months (year r) /\
       cutoff r = cut /\
       (is_drought r = true <-> exists c, cut = Some c /\ (precip r <= c)%Q) /\
       (forall c, cut = Some c -> (precip r == c)%Q -> is_drought r = true)).
Proof.
  intros Hs Hm0 Hm1 Hrows Hcut.
  unfold detect_droughts.
  rewrite (getitem_has_column _ _ _ Hs), Hs. cbn [negb bind].
  rewrite (seasons_loop_valid s months _ Hm0 Hm1). cbn [bind].
  set (years := sorted_set (map year_of (index (rows df)))) in *.
  assert (Hne : years <> []).
  { apply sorted_set_nonempty. unfold index. destruct (rows df); [congruence|discriminate]. }
  destruct years as [|y0 years'] eqn:Hyears; [congruence|]. rewrite <- Hyears in *.
  destruct (map (fun y => (y, season_start months y, season_end months y,
                           season_total s months y)) years) as [|r0 rs] eqn:Hmap.
  { rewrite Hyears in Hmap. discriminate. }
  rewrite <- Hmap. rewrite map_map. cbn [snd].
  change (map (fun y => season_total s months y) years)
    with (map (season_total s months) years).
  rewrite Hcut. cbn [bind].
  eexists. split; [reflexivity|]. rewrite !map_map. cbn [year].
  split; [apply map_id|]. rewrite map_id. split; [apply sorted_set_sorted|]. split.
  - intros y. unfold years. rewrite sorted_set_In, <- (getitem_index _ _ _ Hs).
    unfold index. rewrite map_map, in_map_iff. split.
    + intros [[t v] [E Hin]]. exists t, v. auto.
    + intros [t [v [Hin E]]]. exists (t, v). auto.
  - intros r Hr. apply in_map_iff in Hr. destruct Hr as [y [<- _]].
    cbn [start end_ precip cutoff year is_drought].
    repeat (split; [reflexivity|]). split; [split|].
    + destruct cut as [c|]; [|discriminate]. intros H. exists c.
      split; [reflexivity|]. apply Qle_bool_iff. exact H.
    + intros [c [-> Hle]]. apply Qle_bool_iff. exact Hle.
    + intros c -> Heq. apply Qle_bool_iff. rewrite Heq. apply Qle_refl.
Qed.

(** ** The functions at work on the sample data *)

Lemma gapped_week_sorted : StronglySorted Z.lt (index (rows (Samples.frame_T Samples.gapped_week))).
Proof. repeat constructor. Qed.

Lemma sparse_days_sorted : StronglySorted Z.lt (index (rows (Samples.frame_T Samples.sparse_days))).
Proof. repeat constructor. Qed.

(** Three years at 10 degrees with five days at 40: the 99th percentile is
    10, the positions above it are the block 500 .. 504 and no other, and
    the one heatwave of at least three days is that block. *)
Lemma detect_heatwaves_runs_witness :
  nanpercentile (values (dropna Samples.three_years)) 99 = Ok (Some 10%Q) /\
  (forall k, above Samples.three_years (Some 10%Q) k <-> 500 <= k <= 504) /\
  detect_heatwaves (Samples.frame_T Samples.three_years) "T" 99 3
  = Ok [(Samples.day 2002 5 16, Samples.day 2002 5 20)].
Proof.
  assert (Hs : getitem (Samples.frame_T Samples.three_years) "T"
               = Ok Samples.three_years) by (vm_compute; reflexivity).
  assert (Hp : nanpercentile (values (dropna Samples.three_years)) 99
               = Ok (Some 10%Q)) by (vm_compute; reflexivity).
  assert (Hblock : forall k, above Samples.three_years (Some 10%Q) k <->
                             500 <= k <= 504).
  { intros k. rewrite <- marked_above. apply marked_block_check.
    vm_compute. reflexivity. }
  split; [exact Hp|]. split; [exact Hblock|].
  destruct (detect_heatwaves_runs (Samples.frame_T Samples.three_years) "T"
              99 3 Samples.three_years (Some 10%Q) Hs Hp)
    as [out [Hout [_ [_ Hsingle]]]].
  rewrite Hout. f_equal.
  apply (Hsingle 500 504); [lia|exact Hblock|lia| |]; vm_compute; reflexivity.
Defined.

(** C3, the three-year scenario as stated fails.  On 1095 days that warm
    by a thousandth of a degree a day, with five days at 40 degrees from
    position 500, the 99th percentile is 11.08806: the five days of the
    block lie above it, and so do the last six days of the series, eleven
    days in all.  Two ranges are returned, the block and 26 to 31 December
    2003. *)
Lemma detect_heatwaves_ramp_two_ranges :
  List.length Samples.ramp_years = 1095 /\
  firstn 7 (skipn 499 (values Samples.ramp_years))
  = [Some (10499 # 1000)%Q; Some 40%Q; Some 40%Q; Some 40%Q; Some 40%Q;
     Some 40%Q; Some (10505 # 1000)%Q] /\
  nanpercentile (values (dropna Samples.ramp_years)) 99
  = Ok (Some (554403 # 50000)%Q) /\
  List.length (filter (fun v => float_gt v (Some (554403 # 50000)%Q))
                 (values Samples.ramp_years)) = 11 /\
  detect_heatwaves (Samples.frame_T Samples.ramp_years) "T" 99 3
  = Ok [(Samples.day 2002 5 16, Samples.day 2002 5 20);
        (Samples.day 2003 12 26, Samples.day 2003 12 31)].
Proof.
  repeat split; vm_compute; reflexivity.
Qed.

(** A missing day between two pairs of hot days: two heatwaves, and no
    day of the first one has a missing value. *)
Lemma missing_days_break_runs_witness :
  detect_heatwaves (Samples.frame_T Samples.gapped_week) "T" 20 2
  = Ok [(Samples.day 2000 1 2, Samples.day 2000 1 3);
        (Samples.day 2000 1 5, Samples.day 2000 1 6)] /\
  (forall t v, In (t, v) Samples.gapped_week ->
               (Samples.day 2000 1 2 <= t <= Samples.day 2000 1 3)%Z -> v <> nan).
Proof.
  assert (Hs : getitem (Samples.frame_T Samples.gapped_week) "T"
               = Ok Samples.gapped_week) by (vm_compute; reflexivity).
  assert (Hout : detect_heatwaves (Samples.frame_T Samples.gapped_week) "T" 20 2
                 = Ok [(Samples.day 2000 1 2, Samples.day 2000 1 3);
                       (Samples.day 2000 1 5, Samples.day 2000 1 6)])
    by (vm_compute; reflexivity).
  split; [exact Hout|].
  destruct (missing_days_break_runs (Samples.frame_T Samples.gapped_week) "T"
              20 2 Samples.gapped_week _ Hs (or_introl Hout)) as [_ [_ Hr]].
  destruct (Hr _ _ (or_introl eq_refl)) as [a [b [_ [_ [_ [_ Hdates]]]]]].
  apply Hdates. repeat constructor.
Defined.

(** The frame has the column ["T"] only. *)
Lemma missing_variable_raises_witness :
  get_monthly_records (Samples.frame_T Samples.gapped_week) "NONEXISTENT"
  = Raise (KeyError "NONEXISTENT") /\
  rolling_mean (Samples.frame_T Samples.gapped_week) "NONEXISTENT" 30
  = Raise (KeyError "NONEXISTENT").
Proof.
  assert (Hnot : ~ In "NONEXISTENT"%string
                   (columns (Samples.frame_T Samples.gapped_week))).
  { simpl. intros [H|[]]. discriminate H. }
  destruct (missing_variable_raises (Samples.frame_T Samples.gapped_week)
              "NONEXISTENT" Hnot) as [H1 [H2 _]].
  split; [exact H1|apply H2].
Defined.

(** All the data lies in the year 2000: one bucket. *)
Lemma estimate_trend_insufficient_data_witness :
  estimate_trend (Samples.frame_T Samples.sparse_days) "T" "A" = Ok (None, None).
Proof.
  apply (estimate_trend_insufficient_data (Samples.frame_T Samples.sparse_days)
           "T" "A" Samples.sparse_days
           (Reference.resample_annual (dropna Samples.sparse_days))).
  - vm_compute. reflexivity.
  - vm_compute. reflexivity.
  - vm_compute. lia.
Defined.

(** Four days at 9 degrees: the record is dated on the first of them. *)
Lemma get_monthly_records_extrema_witness :
  exists r,
    get_monthly_records (Samples.frame_T Samples.gapped_week) "T" = Ok (Some r) /\
    (min_value r <= max_value r)%Q /\
    max_date r = Samples.day 2000 1 2 /\ min_date r = Samples.day 2000 1 1.
Proof.
  destruct (get_monthly_records_extrema (Samples.frame_T Samples.gapped_week)
              "T" Samples.gapped_week) as [r [Hr [Hle _]]].
  - vm_compute. reflexivity.
  - exact gapped_week_sorted.
  - vm_compute. discriminate.
  - exists r. split; [exact Hr|]. split; [exact Hle|].
    vm_compute in Hr. inversion Hr. split; reflexivity.
Defined.

(** A window of three days: the point of 20 January averages that day
    alone, the two samples before it being too old. *)
Lemma rolling_mean_trailing_window_witness :
  exists out,
    rolling_mean (Samples.frame_T Samples.sparse_days) "T" 3 = Ok out /\
    index out = [Samples.day 2000 1 1; Samples.day 2000 1 3; Samples.day 2000 1 20] /\
    nth_error out 2 = Some (Samples.day 2000 1 20, Some 9%Q).
Proof.
  destruct (rolling_mean_trailing_window (Samples.frame_T Samples.sparse_days)
              "T" 3 Samples.sparse_days) as [out [Hout [_ [Hidx _]]]].
  - vm_compute. reflexivity.
  - exact sparse_days_sorted.
  - lia.
  - exists out. split; [exact Hout|]. split; [exact Hidx|].
    vm_compute in Hout. inversion Hout. reflexivity.
Defined.

(** C5, the claim as stated fails for a window of 106752 days: the
    window is held as nanoseconds in 64 bits, 106752 days do not fit, and
    the rolling window is refused.  106751 days is the longest window that
    is taken. *)
Lemma rolling_mean_window_out_of_bounds :
  window_nanos 106752 = 9223372800000000000%Z /\
  int64_max = 9223372036854775807%Z /\
  rolling_mean (Samples.frame_T Samples.sparse_days) "T" 106752
  = Raise (ValueError "OutOfBoundsTimedelta") /\
  rolling_mean (Samples.frame_T Samples.sparse_days) "T" 106751
  = Ok [(Samples.day 2000 1 1, Some 2%Q);
        (Samples.day 2000 1 3, Some (6 # 2)%Q);
        (Samples.day 2000 1 20, Some (15 # 3)%Q)].
Proof.
  repeat split; vm_compute; reflexivity.
Qed.

(** The totals of the six years are 10, 3, 8, 0, 7 and 6; the 20th
    percentile is 3, the total of 2002, and 2002 is flagged. *)
Lemma detect_droughts_inclusive_witness :
  exists out,
    detect_droughts (Samples.frame_T Samples.rain) "T" (4, 9)%Z 20 = Ok out /\
    map year out = [2001; 2002; 2003; 2004; 2005; 2006]%Z /\
    (forall r, In r out -> year r = 2002%Z ->
               (precip r == 3)%Q /\ cutoff r = Some 3%Q /\ is_drought r = true).
Proof.
  destruct (detect_droughts_inclusive (Samples.frame_T Samples.rain) "T"
              (4, 9)%Z 20 Samples.rain (Some 3%Q))
    as [out [Hout [Hyears [_ [_ Hrows]]]]].
  - vm_compute. reflexivity.
  - simpl. lia.
  - simpl. lia.
  - discriminate.
  - vm_compute. reflexivity.
  - exists out. split; [exact Hout|]. split.
    + rewrite Hyears. vm_compute. reflexivity.
    + intros r Hr Hy. destruct (Hrows r Hr) as [_ [_ [Hp [Hc [_ Heq]]]]].
      assert (Htotal : (precip r == 3)%Q).
      { rewrite Hp, Hy. vm_compute. reflexivity. }
      split; [exact Htotal|]. split; [exact Hc|].
      apply (Heq 3%Q eq_refl Htotal).
Defined.

(** C2, the claim as stated fails: a column that holds no number gives
    the empty series with a window of zero days, and with a negative one. *)
Lemma rolling_mean_nonpositive_window_returns :
  rolling_mean (Samples.frame_T [(Samples.day 2000 1 1, nan)]) "T" 0 = Ok [] /\
  rolling_mean (Samples.frame_T [(Samples.day 2000 1 1, nan)]) "T" (-5) = Ok [].
Proof.
  split; vm_compute; reflexivity.
Qed.

(** The window is cut by time, not by count. *)
Example rolling_mean_sparse_days :
  rolling_mean (Samples.frame_T Samples.sparse_days) "T" 3
  = Ok [(Samples.day 2000 1 1, Some 2%Q);
        (Samples.day 2000 1 3, Some (6 # 2)%Q);
        (Samples.day 2000 1 20, Some 9%Q)].
Proof. vm_compute. reflexivity. Qed.

Example consecutive_ranges_sample :
  _consecutive_ranges [false; true; true; false; true; false; true; true; true]
  = [(1, 2); (4, 4); (6, 8)].
Proof. reflexivity. Qed.

Example consecutive_ranges_no_true :
  _consecutive_ranges [] = [] /\ _consecutive_ranges [false; false] = [].
Proof. split; reflexivity. Qed.

(** ** More on heatwaves and cold spells *)

Section DetectorFacts.

Context {K : Kernels}.

Lemma has_column_getitem (df : DataFrame) (var : string) :
  has_column df var = true -> exists s, getitem df var = Ok s.
Proof.
  intros H. unfold getitem. rewrite H. eexists. reflexivity.
Qed.

(** What a detector that returns has computed. *)
Lemma detect_heatwaves_Ok_inv (df : DataFrame) (var : string) (p : Q) (m : Z)
    (out : list (Timestamp * Timestamp)) :
  detect_heatwaves df var p m = Ok out ->
  exists s thresh,
    getitem df var = Ok s /\
    nanpercentile (values (dropna s)) p = Ok thresh /\
    out = map (date_range (index s))
            (filter (long_enough m)
               (_consecutive_ranges (map (fun v => float_gt v thresh) (values s)))).
Proof.
  intros Hout. destruct (has_column df var) eqn:Hcol.
  - destruct (has_column_getitem df var Hcol) as [s Hs].
    rewrite (detect_heatwaves_unfold _ _ _ _ _ Hs) in Hout.
    destruct (nanpercentile (values (dropna s)) p) as [thresh|e] eqn:Hp;
      [|discriminate].
    cbn [bind] in Hout. inversion Hout. exists s, thresh. auto.
  - unfold detect_heatwaves in Hout. rewrite Hcol in Hout. discriminate.
Qed.

Lemma detect_cold_spells_Ok_inv (df : DataFrame) (var : string) (p : Q) (m : Z)
    (out : list (Timestamp * Timestamp)) :
  detect_cold_spells df var p m = Ok out ->
  exists s thresh,
    getitem df var = Ok s /\
    nanpercentile (values (dropna s)) p = Ok thresh /\
    out = map (date_range (index s))
            (filter (long_enough m)
               (_consecutive_ranges (map (fun v => float_lt v thresh) (values s)))).
Proof.
  intros Hout. destruct (has_column df var) eqn:Hcol.
  - destruct (has_column_getitem df var Hcol) as [s Hs].
    rewrite (detect_cold_spells_unfold _ _ _ _ _ Hs) in Hout.
    destruct (nanpercentile (values (dropna s)) p) as [thresh|e] eqn:Hp;
      [|discriminate].
    cbn [bind] in Hout. inversion Hout. exists s, thresh. auto.
  - unfold detect_cold_spells in Hout. rewrite Hcol in Hout. discriminate.
Qed.

Lemma has_column_false_not_In (df : DataFrame) (var : string) :
  has_column df var = false -> ~ In var (columns df).
Proof.
  intros H Hin. apply has_column_In in Hin. congruence.
Qed.

Lemma long_enough_mono (m1 m2 : Z) (r : nat * nat) :
  (m1 <= m2)%Z -> long_enough m2 r = true -> long_enough m1 r = true.
Proof.
  unfold long_enough. rewrite !Z.leb_le. lia.
Qed.

Lemma filter_filter_implies {A : Type} (f g : A -> bool) (l : list A) :
  (forall x, g x = true -> f x = true) ->
  filter g l = filter g (filter f l).
Proof.
  intros Himp. induction l as [|x l IH]; [reflexivity|]. simpl.
  destruct (g x) eqn:Hg.
  - rewrite (Himp x Hg). simpl. rewrite Hg. now rewrite IH.
  - destruct (f x); simpl; [rewrite Hg|]; exact IH.
Qed.

(** Raising the minimum duration keeps a part of the ranges. *)
Lemma longer_runs_kept (idx : list Timestamp) (m1 m2 : Z)
    (ranges : list (nat * nat)) :
  (m1 <= m2)%Z ->
  (forall r, In r (map (date_range idx) (filter (long_enough m2) ranges)) ->
             In r (map (date_range idx) (filter (long_enough m1) ranges))) /\
  List.length (map (date_range idx) (filter (long_enough m2) ranges)) <=
  List.length (map (date_range idx) (filter (long_enough m1) ranges)).
Proof.
  intros Hm.
  rewrite (filter_filter_implies (long_enough m1) (long_enough m2) ranges)
    by (intros r; apply long_enough_mono; exact Hm).
  split.
  - intros r Hr. apply in_map_iff in Hr. destruct Hr as [x [E Hx]].
    apply filter_In in Hx. apply in_map_iff. exists x. tauto.
  - rewrite !length_map. apply filter_length_le.
Qed.

(** A mask without a [True] position has no run. *)
Lemma consecutive_ranges_none (mask : list bool) :
  (forall k, ~ marked mask k) -> _consecutive_ranges mask = [].
Proof.
  intros Hnone. destruct (_consecutive_ranges mask) as [|[a b] l] eqn:E;
    [reflexivity|exfalso].
  assert (Hin : In (a, b) (_consecutive_ranges mask)) by (rewrite E; left; reflexivity).
  apply consecutive_ranges_maximal in Hin. destruct Hin as [Hab [Hall _]].
  apply (Hnone a). apply Hall. lia.
Qed.

End DetectorFacts.

(** X1.  For a series [s] that holds the variable, with [thresh] the
    percentile of its non-missing values, [detect_cold_spells] returns the
    dates of the maximal runs of positions whose value is strictly below
    [thresh] and that are at least [min_duration] long, and nothing else; a
    value equal to the threshold is not part of a cold spell. *)
Theorem detect_cold_spells_runs `{K : Kernels} (df : DataFrame) (var : string)
    (percentile : Q) (min_duration : Z) (s : Series) (thresh : float) :
  getitem df var = Ok s ->
  nanpercentile (values (dropna s)) percentile = Ok thresh ->
  exists out,
    detect_cold_spells df var percentile min_duration = Ok out /\
    (forall d1 d2,
        In (d1, d2) out <->
        exists a b,
          maximal_run_of (below s thresh) a b /\
          (min_duration <= Z.of_nat b - Z.of_nat a + 1)%Z /\
          nth_error (index s) a = Some d1 /\ nth_error (index s) b = Some d2) /\
    (forall k x, nth_error (values s) k = Some (Some x) ->
                 thresh = Some x -> ~ below s thresh k).
Proof.
  intros Hs Hp. eexists. split; [|split].
  - rewrite (detect_cold_spells_unfold _ _ _ _ _ Hs), Hp. reflexivity.
  - intros d1 d2. rewrite In_detected by apply mask_length.
    split; intros [a [b [Hrun H]]]; exists a, b; (split; [|exact H]).
    + revert Hrun. apply maximal_run_of_ext. apply marked_below.
    + revert Hrun. apply maximal_run_of_ext. intros k. symmetry. apply marked_below.
  - intros k x Hk -> [y [t [Hy [Ht Hlt]]]].
    rewrite Hk in Hy. inversion Hy; subst. inversion Ht; subst.
    exact (Qlt_irrefl _ Hlt).
Qed.

(** X2.  The two detectors raise only for a name that is not a column
    ([KeyError] on the name) or when the percentile computation raises, and
    then with its exception: the lookups [s.index[start_i]] and
    [s.index[end_i]] are always in range. *)
Theorem detectors_raise_only `{K : Kernels} (df : DataFrame) (var : string)
    (percentile : Q) (min_duration : Z) (e : exn) :
  detect_heatwaves df var percentile min_duration = Raise e \/
  detect_cold_spells df var percentile min_duration = Raise e ->
  (~ In var (columns df) /\ e = KeyError var) \/
  (exists s, getitem df var = Ok s /\
             nanpercentile (values (dropna s)) percentile = Raise e).
Proof.
  intros Hraise. destruct (has_column df var) eqn:Hcol.
  - right. destruct (has_column_getitem df var Hcol) as [s Hs]. exists s.
    split; [exact Hs|].
    rewrite (detect_heatwaves_unfold _ _ _ _ _ Hs),
            (detect_cold_spells_unfold _ _ _ _ _ Hs) in Hraise.
    destruct (nanpercentile (values (dropna s)) percentile) as [thresh|e'].
    + cbn [bind] in Hraise. destruct Hraise; discriminate.
    + cbn [bind] in Hraise. destruct Hraise as [H|H]; inversion H; reflexivity.
  - left. split; [apply has_column_false_not_In; exact Hcol|].
    unfold detect_heatwaves, detect_cold_spells in Hraise. rewrite Hcol in Hraise.
    cbn [negb] in Hraise. destruct Hraise as [H|H]; inversion H; reflexivity.
Qed.

(** X3.  With the same data and percentile, a larger minimum duration
    returns no range that the smaller one does not return, and no more
    ranges: both detectors only filter the runs by their length. *)
Theorem detectors_min_duration_monotone `{K : Kernels} (df : DataFrame)
    (var : string) (percentile : Q) (m1 m2 : Z) :
  (m1 <= m2)%Z ->
  (forall out1, detect_heatwaves df var percentile m1 = Ok out1 ->
     exists out2, detect_heatwaves df var percentile m2 = Ok out2 /\
                  (forall r, In r out2 -> In r out1) /\
                  List.length out2 <= List.length out1) /\
  (forall out1, detect_cold_spells df var percentile m1 = Ok out1 ->
     exists out2, detect_cold_spells df var percentile m2 = Ok out2 /\
                  (forall r, In r out2 -> In r out1) /\
                  List.length out2 <= List.length out1).
Proof.
  intros Hm. split; intros out1 Hout1.
  - destruct (detect_heatwaves_Ok_inv _ _ _ _ _ Hout1) as [s [thresh [Hs [Hp ->]]]].
    eexists. split.
    + rewrite (detect_heatwaves_unfold _ _ _ _ _ Hs), Hp. reflexivity.
    + apply longer_runs_kept. exact Hm.
  - destruct (detect_cold_spells_Ok_inv _ _ _ _ _ Hout1) as [s [thresh [Hs [Hp ->]]]].
    eexists. split.
    + rewrite (detect_cold_spells_unfold _ _ _ _ _ Hs), Hp. reflexivity.
    + apply longer_runs_kept. exact Hm.
Qed.

(** X4.  When no value is strictly above the threshold, [detect_heatwaves]
    returns the empty list, and [detect_cold_spells] does when no value is
    strictly below it; with a NaN threshold (no data to take a percentile
    of) both return the empty list, without an error. *)
Theorem detectors_nothing_to_detect `{K : Kernels} (df : DataFrame) (var : string)
    (percentile : Q) (min_duration : Z) (s : Series) (thresh : float) :
  getitem df var = Ok s ->
  nanpercentile (values (dropna s)) percentile = Ok thresh ->
  ((forall k, ~ above s thresh k) ->
   detect_heatwaves df var percentile min_duration = Ok []) /\
  ((forall k, ~ below s thresh k) ->
   detect_cold_spells df var percentile min_duration = Ok []) /\
  (thresh = nan ->
   detect_heatwaves df var percentile min_duration = Ok [] /\
   detect_cold_spells df var percentile min_duration = Ok []).
Proof.
  intros Hs Hp.
  assert (Hheat : (forall k, ~ above s thresh k) ->
                  detect_heatwaves df var percentile min_duration = Ok []).
  { intros Hnone. rewrite (detect_heatwaves_unfold _ _ _ _ _ Hs), Hp. cbn [bind].
    rewrite consecutive_ranges_none; [reflexivity|].
    intros k Hk. apply marked_above in Hk. exact (Hnone k Hk). }
  assert (Hcold : (forall k, ~ below s thresh k) ->
                  detect_cold_spells df var percentile min_duration = Ok []).
  { intros Hnone. rewrite (detect_cold_spells_unfold _ _ _ _ _ Hs), Hp. cbn [bind].
    rewrite consecutive_ranges_none; [reflexivity|].
    intros k Hk. apply marked_below in Hk. exact (Hnone k Hk). }
  split; [exact Hheat|]. split; [exact Hcold|].
  intros ->. split.
  - apply Hheat. intros k [x [t [_ [Ht _]]]]. discriminate.
  - apply Hcold. intros k [x [t [_ [Ht _]]]]. discriminate.
Qed.

(** ** The dates of the detected ranges *)

Section DateFacts.

Context {K : Kernels}.

Lemma gapped_sorted (l : list (nat * nat)) :
  forall lo, gapped lo l ->
             StronglySorted (fun r1 r2 => snd r1 + 1 < fst r2) l.
Proof.
  induction l as [|[a b] l IH]; intros lo Hg; [constructor|].
  simpl in Hg. destruct Hg as [_ [_ Hg]]. constructor; [apply (IH _ Hg)|].
  apply Forall_forall. intros [c d] Hin. simpl.
  pose proof (gapped_In _ _ _ _ Hg Hin). lia.
Qed.

Lemma sorted_filter {A : Type} (R : A -> A -> Prop) (f : A -> bool) (l : list A) :
  StronglySorted R l -> StronglySorted R (filter f l).
Proof.
  induction 1 as [|x l Hs IH Hall]; simpl; [constructor|].
  destruct (f x); [|exact IH]. constructor; [exact IH|].
  rewrite Forall_forall in *. intros y Hy. apply Hall.
  apply filter_In in Hy. tauto.
Qed.

Lemma sorted_map {A B : Type} (R : A -> A -> Prop) (R' : B -> B -> Prop)
    (f : A -> B) (l : list A) :
  (forall x y, In x l -> In y l -> R x y -> R' (f x) (f y)) ->
  StronglySorted R l -> StronglySorted R' (map f l).
Proof.
  intros Hf Hs. induction Hs as [|x l Hs IH Hall]; simpl; [constructor|].
  constructor.
  - apply IH. intros y z Hy Hz. apply Hf; right; assumption.
  - rewrite Forall_forall in *. intros y Hy. apply in_map_iff in Hy.
    destruct Hy as [z [<- Hz]]. apply Hf; [left; reflexivity|right; exact Hz|].
    apply Hall. exact Hz.
Qed.

(** On an ascending index of days, two positions are at least as many days
    apart as rows. *)
Lemma sorted_index_gap (idx : list Z) :
  StronglySorted Z.lt idx ->
  forall j i x y, i <= j -> nth_error idx i = Some x -> nth_error idx j = Some y ->
                  (Z.of_nat j - Z.of_nat i <= y - x)%Z.
Proof.
  intros Hs. induction j as [|j IH]; intros i x y Hij Hi Hj.
  - assert (i = 0) by lia. subst i. rewrite Hi in Hj. inversion Hj. lia.
  - destruct (Nat.eq_dec i (S j)) as [->|Hne].
    + rewrite Hi in Hj. inversion Hj. lia.
    + destruct (nth_error idx j) as [z|] eqn:Hz.
      * assert (Hzy : (z < y)%Z)
          by (apply (sorted_nth_lt idx Hs j (S j)); auto).
        assert (Hxz : (Z.of_nat j - Z.of_nat i <= z - x)%Z)
          by (apply (IH i x z); auto; lia).
        lia.
      * apply nth_error_None in Hz.
        assert (S j < List.length idx) by (apply nth_error_Some; congruence).
        lia.
Qed.

(** The dates of gapped, long enough runs: each range ends after it
    starts, spans at least [m] days, and the next one starts at least two
    days after it. *)
Lemma detected_dates_sorted (idx : list Timestamp) (m : Z) (mask : list bool) :
  List.length mask = List.length idx ->
  StronglySorted Z.lt idx ->
  let out := map (date_range idx)
               (filter (long_enough m) (_consecutive_ranges mask)) in
  (forall d1 d2, In (d1, d2) out -> (d1 <= d2)%Z /\ (m <= d2 - d1 + 1)%Z) /\
  StronglySorted (fun r1 r2 => (snd r1 + 1 < fst r2)%Z) out.
Proof.
  intros Hlen Hs out. subst out. split.
  - intros d1 d2 Hin. apply (In_detected idx m mask d1 d2 Hlen) in Hin.
    destruct Hin as [a [b [[Hab _] [Hlong [Ha Hb]]]]].
    pose proof (sorted_index_gap idx Hs b a d1 d2 Hab Ha Hb). lia.
  - apply sorted_map with (R := fun r1 r2 => snd r1 + 1 < fst r2).
    + intros [a b] [c d] Hx Hy Hgap. simpl in Hgap.
      apply filter_In in Hx, Hy. destruct Hx as [Hx _], Hy as [Hy _].
      destruct (ranges_in_bounds _ _ _ Hx) as [_ Hb].
      destruct (ranges_in_bounds _ _ _ Hy) as [Hc _].
      rewrite Hlen in Hb, Hc. unfold date_range. cbn [fst snd].
      assert (Hbc : b <= c) by lia.
      pose proof (sorted_index_gap idx Hs c b _ _ Hbc
                    (nth_error_nth' idx 0%Z Hb) (nth_error_nth' idx 0%Z Hc)).
      lia.
    + apply sorted_filter. apply (gapped_sorted _ 0).
      apply consecutive_ranges_gapped.
Qed.

End DateFacts.

(** X5.  On an ascending index of days, every range that
    [detect_heatwaves] or [detect_cold_spells] returns ends on or after its
    start and spans at least [min_duration] calendar days, and the ranges
    come in chronological order, each starting at least two days after the
    one before it ended. *)
Theorem detected_ranges_chronological `{K : Kernels} (df : DataFrame)
    (var : string) (percentile : Q) (min_duration : Z)
    (out : list (Timestamp * Timestamp)) :
  StronglySorted Z.lt (index (rows df)) ->
  detect_heatwaves df var percentile min_duration = Ok out \/
  detect_cold_spells df var percentile min_duration = Ok out ->
  (forall d1 d2, In (d1, d2) out ->
                 (d1 <= d2)%Z /\ (min_duration <= d2 - d1 + 1)%Z) /\
  StronglySorted (fun r1 r2 => (snd r1 + 1 < fst r2)%Z) out.
Proof.
  intros Hsorted [Hout|Hout].
  - destruct (detect_heatwaves_Ok_inv _ _ _ _ _ Hout) as [s [thresh [Hs [_ ->]]]].
    rewrite <- (getitem_index _ _ _ Hs) in Hsorted.
    apply detected_dates_sorted; [apply mask_length|exact Hsorted].
  - destruct (detect_cold_spells_Ok_inv _ _ _ _ _ Hout) as [s [thresh [Hs [_ ->]]]].
    rewrite <- (getitem_index _ _ _ Hs) in Hsorted.
    apply detected_dates_sorted; [apply mask_length|exact Hsorted].
Qed.

(** X6.  On an ascending index, when the threshold of the cold spells is
    at most the threshold of the heatwaves, no heatwave overlaps a cold
    spell: of a heatwave and a cold spell of the same variable, one ends
    before the other starts. *)
Theorem heatwaves_and_cold_spells_disjoint `{K : Kernels} (df : DataFrame)
    (var : string) (p_hot p_cold : Q) (m_hot m_cold : Z) (s : Series)
    (t_hot t_cold : float) (hot cold : list (Timestamp * Timestamp)) :
  getitem df var = Ok s ->
  StronglySorted Z.lt (index (rows df)) ->
  nanpercentile (values (dropna s)) p_hot = Ok t_hot ->
  nanpercentile (values (dropna s)) p_cold = Ok t_cold ->
  float_le t_cold t_hot = true ->
  detect_heatwaves df var p_hot m_hot = Ok hot ->
  detect_cold_spells df var p_cold m_cold = Ok cold ->
  forall h1 h2 c1 c2,
    In (h1, h2) hot -> In (c1, c2) cold -> (h2 < c1)%Z \/ (c2 < h1)%Z.
Proof.
  intros Hs Hsorted Hph Hpc Hle Hhot Hcold h1 h2 c1 c2 Hh Hc.
  rewrite <- (getitem_index _ _ _ Hs) in Hsorted.
  rewrite (detect_heatwaves_unfold _ _ _ _ _ Hs), Hph in Hhot.
  rewrite (detect_cold_spells_unfold _ _ _ _ _ Hs), Hpc in Hcold.
  cbn [bind] in Hhot, Hcold. inversion Hhot; subst hot. inversion Hcold; subst cold.
  apply In_detected in Hh; [|apply mask_length].
  apply In_detected in Hc; [|apply mask_length].
  destruct Hh as [a [b [[Hab [Hall_h _]] [_ [Ha Hb]]]]].
  destruct Hc as [c [d [[Hcd [Hall_c _]] [_ [Hc' Hd]]]]].
  assert (Hapart : b < c \/ d < a).
  { destruct (Nat.lt_ge_cases b c) as [H|H]; [left; exact H|].
    destruct (Nat.lt_ge_cases d a) as [H'|H']; [right; exact H'|exfalso].
    assert (Hk1 : a <= Nat.max a c <= b) by lia.
    assert (Hk2 : c <= Nat.max a c <= d) by lia.
    pose proof (proj1 (marked_above s t_hot _) (Hall_h _ Hk1)) as [x [t [Hx [Ht Hlt]]]].
    pose proof (proj1 (marked_below s t_cold _) (Hall_c _ Hk2)) as [y [u [Hy [Hu Hlt']]]].
    rewrite Hx in Hy. inversion Hy; subst y. subst t_hot t_cold.
    simpl in Hle. apply Qle_bool_iff in Hle.
    apply (Qlt_irrefl x). apply Qlt_le_trans with u; [exact Hlt'|].
    apply Qle_trans with t; [exact Hle|apply Qlt_le_weak; exact Hlt]. }
  destruct Hapart as [H|H].
  - left. apply (sorted_nth_lt _ Hsorted b c); assumption.
  - right. apply (sorted_nth_lt _ Hsorted d a); assumption.
Qed.

(** ** More on records and rolling means *)

Section SeriesFacts.

Context {K : Kernels}.

Lemma dropna_nil (s : Series) :
  dropna s = [] <-> forall t v, In (t, v) s -> v = nan.
Proof.
  split.
  - intros Hd t [x|] Hin; [|reflexivity].
    apply dropna_In in Hin. rewrite Hd in Hin. destruct Hin.
  - intros Hall. destruct (dropna s) as [|[t x] l] eqn:E; [reflexivity|exfalso].
    assert (Hin : In (t, x) (dropna s)) by (rewrite E; left; reflexivity).
    apply dropna_In in Hin. specialize (Hall _ _ Hin). discriminate.
Qed.

Lemma getitem_In (df : DataFrame) (var : string) (s : Series)
    (t : Timestamp) (v : float) :
  getitem df var = Ok s ->
  (In (t, v) s <-> exists row, In (t, row) (rows df) /\ row var = v).
Proof.
  unfold getitem. destruct (has_column df var); [|discriminate].
  intros E. inversion E. rewrite in_map_iff. split.
  - intros [[u row] [Heq Hin]]. simpl in Heq. inversion Heq; subst.
    exists row. auto.
  - intros [row [Hin <-]]. exists (t, row). auto.
Qed.

(** The record that comes out on an ascending index holds the extrema. *)
Lemma get_monthly_records_bounds (df : DataFrame) (var : string) (s : Series)
    (r : MonthlyRecord) :
  getitem df var = Ok s ->
  StronglySorted Z.lt (index (rows df)) ->
  get_monthly_records df var = Ok (Some r) ->
  forall t v, In (t, v) (dropna s) -> (min_value r <= v <= max_value r)%Q.
Proof.
  intros Hs Hsorted Hrec. rewrite <- (getitem_index _ _ _ Hs) in Hsorted.
  pose proof (dropna_sorted s Hsorted) as Hds.
  unfold get_monthly_records in Hrec.
  rewrite (getitem_has_column _ _ _ Hs), Hs in Hrec. cbn [negb bind] in Hrec.
  destruct (dropna s) as [|p0 rest] eqn:Hd; [discriminate|].
  destruct (argmax_spec rest p0 Hds) as [Hmax_in [Hmax _]].
  destruct (argmin_spec rest p0 Hds) as [Hmin_in [Hmin _]].
  unfold idxmax, idxmin in Hrec.
  destruct (argmax p0 rest) as [tmax vmax] eqn:Emax.
  destruct (argmin p0 rest) as [tmin vmin] eqn:Emin.
  cbn [fst snd] in *.
  rewrite (loc_In (p0 :: rest) tmax vmax Hds Hmax_in) in Hrec. cbn [bind] in Hrec.
  rewrite (loc_In (p0 :: rest) tmin vmin Hds Hmin_in) in Hrec. cbn [bind] in Hrec.
  inversion Hrec; subst r. cbn [min_value max_value].
  intros t v Hin. split.
  - apply (Hmin (t, v) Hin).
  - apply (Hmax (t, v) Hin).
Qed.

Lemma fold_left_Qplus (l : list Q) :
  forall a, (fold_left Qplus l a == a + fold_left Qplus l 0)%Q.
Proof.
  induction l as [|x l IH]; intros a; simpl.
  - lra.
  - rewrite (IH (a + x)%Q), (IH (0 + x)%Q). lra.
Qed.

Lemma Qsum_cons (x : Q) (l : list Q) : (Qsum (x :: l) == x + Qsum l)%Q.
Proof.
  unfold Qsum. simpl. rewrite (fold_left_Qplus l (0 + x)%Q). lra.
Qed.

Lemma Qsum_bounds (lo hi : Q) (l : list Q) :
  (forall x, In x l -> (lo <= x <= hi)%Q) ->
  (inject_Z (Z.of_nat (List.length l)) * lo <= Qsum l)%Q /\
  (Qsum l <= inject_Z (Z.of_nat (List.length l)) * hi)%Q.
Proof.
  induction l as [|x l IH]; intros Hall.
  - unfold Qsum. cbn [List.length fold_left].
    change (inject_Z (Z.of_nat 0)) with 0%Q. lra.
  - destruct IH as [IH1 IH2]; [intros y Hy; apply Hall; right; exact Hy|].
    destruct (Hall x (or_introl eq_refl)) as [Hx1 Hx2].
    rewrite Qsum_cons. cbn [List.length].
    rewrite Nat2Z.inj_succ. unfold Z.succ. rewrite inject_Z_plus.
    change (inject_Z 1) with 1%Q. rewrite !Qmult_plus_distr_l.
    set (n := inject_Z (Z.of_nat (List.length l))) in *.
    set (nlo := (n * lo)%Q) in *. set (nhi := (n * hi)%Q) in *. lra.
Qed.

(** The mean of numbers between [lo] and [hi] lies between [lo] and [hi]. *)
Lemma mean_bounds (lo hi : Q) (l : list Q) (q : Q) :
  (forall x, In x l -> (lo <= x <= hi)%Q) ->
  mean l = Some q -> (lo <= q <= hi)%Q.
Proof.
  intros Hall Hmean. destruct l as [|x l]; [discriminate|].
  destruct (Qsum_bounds lo hi (x :: l) Hall) as [H1 H2].
  assert (Hpos : (0 < inject_Z (Z.of_nat (List.length (x :: l))))%Q).
  { change 0%Q with (inject_Z 0). rewrite <- Zlt_Qlt. simpl. lia. }
  change (mean (x :: l))
    with (Some (Qsum (x :: l) / inject_Z (Z.of_nat (List.length (x :: l))))%Q)
    in Hmean.
  injection Hmean as Hq. rewrite <- Hq. split.
  - apply Qle_shift_div_l; [exact Hpos|]. rewrite Qmult_comm. exact H1.
  - apply Qle_shift_div_r; [exact Hpos|]. rewrite Qmult_comm. exact H2.
Qed.

(** On an ascending index the rows with a given label are one row. *)
Lemma filter_label_sorted (s : list (Timestamp * Q)) (t : Timestamp) (v : Q) :
  StronglySorted Z.lt (index s) -> In (t, v) s ->
  filter (fun p => (fst p =? t)%Z) s = [(t, v)].
Proof.
  induction s as [|[u x] s IH]; intros Hs Hin; [destruct Hin|].
  simpl in Hs. inversion Hs as [|u' l' Hs' Hall]; subst.
  rewrite Forall_forall in Hall. cbn [filter fst]. destruct Hin as [E|Hin].
  - inversion E; subst. rewrite Z.eqb_refl. cbv iota.
    assert (Hn : filter (fun p : Timestamp * Q => (fst p =? t)%Z) s = []).
    { apply filter_none. intros p Hp. apply Z.eqb_neq.
      assert (t < fst p)%Z by (apply Hall, in_map; exact Hp). lia. }
    exact (f_equal (cons (t, v)) Hn).
  - assert (u < t)%Z by (apply Hall; apply (in_map fst _ _ Hin)).
    replace (u =? t)%Z with false by (symmetry; apply Z.eqb_neq; lia).
    apply IH; assumption.
Qed.

End SeriesFacts.

(** X7.  [get_monthly_records] returns the empty frame exactly when the
    name is a column and no row holds a value for it (no row at all, or
    missing values only); it is not an error. *)
Theorem get_monthly_records_empty_iff `{K : Kernels} (df : DataFrame)
    (var : string) :
  get_monthly_records df var = Ok None <->
  In var (columns df) /\ forall t row, In (t, row) (rows df) -> row var = nan.
Proof.
  split.
  - intros Hrec. destruct (has_column df var) eqn:Hcol.
    + split; [apply has_column_In; exact Hcol|].
      destruct (has_column_getitem df var Hcol) as [s Hs].
      unfold get_monthly_records in Hrec. rewrite Hcol, Hs in Hrec.
      cbn [negb bind] in Hrec.
      destruct (dropna s) as [|p0 rest] eqn:Hd.
      * intros t row Hin. apply (proj1 (dropna_nil s) Hd t).
        apply (getitem_In df var s t (row var) Hs). exists row. auto.
      * destruct (loc (p0 :: rest) (idxmax p0 rest)); [|discriminate].
        cbn [bind] in Hrec.
        destruct (loc (p0 :: rest) (idxmin p0 rest)); discriminate.
    + unfold get_monthly_records in Hrec. rewrite Hcol in Hrec. discriminate.
  - intros [Hin Hall]. apply has_column_In in Hin.
    destruct (has_column_getitem df var Hin) as [s Hs].
    unfold get_monthly_records. rewrite Hin, Hs. cbn [negb bind].
    replace (dropna s) with (@nil (Timestamp * Q)); [reflexivity|].
    symmetry. apply dropna_nil. intros t v Hv.
    apply (getitem_In df var s t v Hs) in Hv. destruct Hv as [row [Hrow <-]].
    apply (Hall t row Hrow).
Qed.

(** X8.  On an ascending index and with a window of at least one day,
    every point of [rolling_mean] lies between the [min_value] and the
    [max_value] that [get_monthly_records] reports for the same variable:
    smoothing never leaves the range of the data. *)
Theorem rolling_mean_within_records `{K : Kernels} (df : DataFrame)
    (var : string) (window_days : Z) (r : MonthlyRecord) (out : Series) :
  StronglySorted Z.lt (index (rows df)) ->
  (1 <= window_days)%Z ->
  get_monthly_records df var = Ok (Some r) ->
  rolling_mean df var window_days = Ok out ->
  forall t m, In (t, m) out ->
              exists q, m = Some q /\ (min_value r <= q <= max_value r)%Q.
Proof.
  intros Hsorted Hw Hrec Hout t m Hin.
  assert (Hcol : has_column df var = true).
  { destruct (has_column df var) eqn:E; [reflexivity|].
    unfold get_monthly_records in Hrec. rewrite E in Hrec. discriminate. }
  destruct (has_column_getitem df var Hcol) as [s Hs].
  assert (Hdata : dropna s <> []).
  { intros Hd. unfold get_monthly_records in Hrec.
    rewrite Hcol, Hs in Hrec. cbn [negb bind] in Hrec. rewrite Hd in Hrec.
    discriminate. }
  assert (Hfit : (window_days <= 106751)%Z).
  { destruct (Z.le_gt_cases window_days 106751) as [H|H]; [exact H|].
    rewrite (rolling_mean_out_of_bounds df var window_days s Hs Hsorted Hdata)
      in Hout by lia.
    discriminate. }
  rewrite (rolling_mean_ascending df var window_days s Hs Hsorted (conj Hw Hfit))
    in Hout.
  inversion Hout; subst out. apply in_map_iff in Hin.
  destruct Hin as [p [E Hp]]. inversion E; subst.
  destruct (window_mean_defined (dropna s) window_days (fst p) Hw
              (in_map fst _ _ Hp)) as [q Hq].
  exists q. split; [exact Hq|].
  unfold window_mean in Hq. apply (mean_bounds _ _ _ _) with (2 := Hq).
  intros x Hx. unfold values in Hx. apply in_map_iff in Hx. destruct Hx as [[u y] [<- Hy]].
  apply filter_In in Hy. destruct Hy as [Hy _].
  apply (get_monthly_records_bounds df var s r Hs Hsorted Hrec u y Hy).
Qed.

(** X9.  On an ascending index of days, a window of one day holds the
    sample of the day alone: [rolling_mean] with [window_days = 1] returns
    the non-missing values of the series, unchanged and at their timestamps. *)
Theorem rolling_mean_one_day `{K : Kernels} (df : DataFrame) (var : string)
    (s : Series) :
  getitem df var = Ok s ->
  StronglySorted Z.lt (index (rows df)) ->
  exists out,
    rolling_mean df var 1 = Ok out /\
    List.length out = List.length (dropna s) /\
    (forall k t v, nth_error (dropna s) k = Some (t, v) ->
       exists q, nth_error out k = Some (t, Some q) /\ (q == v)%Q).
Proof.
  intros Hs Hsorted. eexists. split; [|split].
  - apply (rolling_mean_ascending df var 1 s Hs Hsorted). lia.
  - now rewrite length_map.
  - intros k t v Hk. rewrite <- (getitem_index _ _ _ Hs) in Hsorted.
    pose proof (dropna_sorted s Hsorted) as Hds.
    rewrite (map_nth_error _ _ _ Hk). cbn [fst]. unfold window_mean.
    assert (Hwin : filter (fun p => in_window 1 t (fst p)) (dropna s) = [(t, v)]).
    { transitivity (filter (fun p : Timestamp * Q => (fst p =? t)%Z) (dropna s)).
      - apply filter_ext. intros p. unfold in_window.
        destruct (Z.eqb_spec (fst p) t) as [->|Hne].
        + apply andb_true_iff. split; [apply Z.ltb_lt|apply Z.leb_le]; lia.
        + apply andb_false_iff.
          destruct (Z.ltb_spec (t - 1) (fst p));
            [right; apply Z.leb_gt; lia|left; reflexivity].
      - apply (filter_label_sorted (dropna s) t v Hds (nth_error_In _ _ Hk)). }
    rewrite Hwin. cbn [values map snd mean List.length].
    eexists. split; [reflexivity|].
    unfold Qsum. cbn [fold_left]. change (inject_Z (Z.of_nat 1)) with 1%Q. field.
Qed.

(** ** More on the run detector, the trend and the droughts *)

Section CoverageFacts.

Lemma where_from_length (mask : list bool) :
  forall i, List.length (where_from i mask) = count_true mask.
Proof.
  unfold count_true. induction mask as [|b mask IH]; intros i; [reflexivity|].
  simpl. destruct b; simpl; now rewrite IH.
Qed.

Lemma groups_total_length (rest : list nat) :
  forall a p, a <= p ->
    total_length (groups a p rest) = p - a + 1 + List.length rest /\
    List.length (groups a p rest) <= 1 + List.length rest.
Proof.
  induction rest as [|x rest IH]; intros a p Hap; cbn [groups].
  - simpl. lia.
  - destruct (Nat.eqb_spec x (p + 1)) as [->|Hne].
    + destruct (IH a (p + 1)) as [H1 H2]; [lia|]. cbn [List.length]. lia.
    + destruct (IH x x (le_n x)) as [H1 H2].
      cbn [total_length fold_right List.length fst snd] in *.
      fold (total_length (groups x x rest)). lia.
Qed.

End CoverageFacts.

(** X10.  The ranges that [_consecutive_ranges] returns hold as many
    positions as the mask has [True] entries, and there are at most as many
    ranges as [True] entries. *)
Theorem consecutive_ranges_total_length (mask : list bool) :
  total_length (_consecutive_ranges mask) = count_true mask /\
  List.length (_consecutive_ranges mask) <= count_true mask.
Proof.
  rewrite consecutive_ranges_groups.
  pose proof (where_from_length mask 0) as Hlen. fold (where_ mask) in Hlen.
  destruct (where_ mask) as [|idx0 rest].
  - simpl in *. split; [exact Hlen|lia].
  - destruct (groups_total_length rest idx0 idx0 (le_n idx0)) as [H1 H2].
    cbn [List.length] in Hlen. lia.
Qed.

Section TrendFacts.

Context {K : Kernels}.

Lemma valid_points_length (ser : Series) :
  List.length (valid_points ser) = mask_sum ser.
Proof.
  unfold mask_sum. induction ser as [|[t [v|]] ser IH]; simpl; [reflexivity| |];
    now rewrite IH.
Qed.

Lemma valid_points_In (ser : Series) (x y : Q) :
  In (x, y) (valid_points ser) <->
  exists t, In (t, Some y) ser /\ x = inject_Z (year_of t).
Proof.
  induction ser as [|[t [v|]] ser IH]; simpl.
  - split; [tauto|]. intros [t [[] _]].
  - rewrite IH. split.
    + intros [E|[u [Hu Hx]]].
      * inversion E; subst. exists t. auto.
      * exists u. auto.
    + intros [u [[E|Hu] Hx]].
      * inversion E; subst. left. reflexivity.
      * right. exists u. auto.
  - rewrite IH. split.
    + intros [u [Hu Hx]]. exists u. auto.
    + intros [u [[E|Hu] Hx]]; [discriminate|]. exists u. auto.
Qed.

End TrendFacts.

(** X11.  Whenever [estimate_trend] returns, the slope is absent exactly
    when fewer than two resampled buckets hold data, and a p-value is never
    reported without a slope, nor without scipy. *)
Theorem estimate_trend_result_shape `{K : Kernels} (df : DataFrame)
    (var rule : string) (slope pvalue : option float) :
  estimate_trend df var rule = Ok (slope, pvalue) ->
  (exists s ser,
      getitem df var = Ok s /\ resample_mean rule (dropna s) = Ok ser /\
      (slope = None <-> mask_sum ser < 2)) /\
  (pvalue <> None -> slope <> None /\ stats <> None).
Proof.
  intros Hres. destruct (has_column df var) eqn:Hcol;
    [|unfold estimate_trend in Hres; rewrite Hcol in Hres; discriminate].
  destruct (has_column_getitem df var Hcol) as [s Hs].
  unfold estimate_trend in Hres. rewrite Hcol, Hs in Hres. cbn [negb bind] in Hres.
  destruct (resample_mean rule (dropna s)) as [ser|e] eqn:Hser; [|discriminate].
  cbn [bind] in Hres.
  assert (Hle : mask_sum ser <= List.length ser)
    by (unfold mask_sum; apply filter_length_le).
  destruct (Nat.ltb_spec (List.length ser) 2) as [Hlen|Hlen].
  { inversion Hres; subst. split.
    - exists s, ser. split; [exact Hs|]. split; [exact Hser|].
      split; [lia|reflexivity].
    - intros H. contradiction. }
  destruct (Nat.ltb_spec (mask_sum ser) 2) as [Hfew|Hmany].
  { inversion Hres; subst. split.
    - exists s, ser. split; [exact Hs|]. split; [exact Hser|].
      split; [lia|reflexivity].
    - intros H. contradiction. }
  destruct (polyfit_slope _ _) as [sl|e]; [|discriminate]. cbn [bind] in Hres.
  destruct stats as [lin|] eqn:Hstats.
  - destruct (lin _ _) as [[sl' pv']|e]; [|discriminate]. cbn [bind] in Hres.
    inversion Hres; subst. split.
    + exists s, ser. split; [exact Hs|]. split; [exact Hser|].
      split; [discriminate|lia].
    + intros _. split; discriminate.
  - inversion Hres; subst. split.
    + exists s, ser. split; [exact Hs|]. split; [exact Hser|].
      split; [discriminate|lia].
    + intros H. contradiction.
Qed.

(** X12.  A slope that [estimate_trend] returns comes from a fit of at
    least two points, one per bucket with data: the year of the bucket and
    its mean.  With scipy, the slope and the p-value are those of one and
    the same [linregress] call on these points (the slope of [np.polyfit] is
    dropped); without scipy the slope is the one of [np.polyfit] and the
    p-value is absent. *)
Theorem estimate_trend_single_fit `{K : Kernels} (df : DataFrame)
    (var rule : string) (slope : float) (pvalue : option float) :
  estimate_trend df var rule = Ok (Some slope, pvalue) ->
  exists s ser,
    getitem df var = Ok s /\ resample_mean rule (dropna s) = Ok ser /\
    2 <= List.length (valid_points ser) /\
    (forall x y, In (x, y) (valid_points ser) <->
                 exists t, In (t, Some y) ser /\ x = inject_Z (year_of t)) /\
    match stats with
    | None =>
        polyfit_slope (map fst (valid_points ser)) (map snd (valid_points ser))
        = Ok slope /\ pvalue = None
    | Some linregress =>
        exists p, linregress (map fst (valid_points ser))
                    (map snd (valid_points ser)) = Ok (slope, p) /\
                  pvalue = Some p
    end.
Proof.
  intros Hres. destruct (has_column df var) eqn:Hcol;
    [|unfold estimate_trend in Hres; rewrite Hcol in Hres; discriminate].
  destruct (has_column_getitem df var Hcol) as [s Hs].
  unfold estimate_trend in Hres. rewrite Hcol, Hs in Hres. cbn [negb bind] in Hres.
  destruct (resample_mean rule (dropna s)) as [ser|e] eqn:Hser; [|discriminate].
  cbn [bind] in Hres. exists s, ser. split; [exact Hs|]. split; [exact Hser|].
  destruct (Nat.ltb_spec (List.length ser) 2) as [Hlen|Hlen]; [discriminate|].
  destruct (Nat.ltb_spec (mask_sum ser) 2) as [Hfew|Hmany]; [discriminate|].
  split; [rewrite valid_points_length; exact Hmany|].
  split; [intros x y; apply valid_points_In|].
  destruct (polyfit_slope _ _) as [sl|e] eqn:Hfit; [|discriminate].
  cbn [bind] in Hres. destruct stats as [lin|].
  - destruct (lin _ _) as [[sl' pv']|e] eqn:Hlin; [|discriminate].
    cbn [bind fst snd] in Hres. inversion Hres; subst. exists pv'. auto.
  - inversion Hres; subst. auto.
Qed.

Section SeasonFacts.

Context {K : Kernels}.

Ltac eval_folds :=
  repeat match goal with
         | |- context [fold_left Z.add ?l 0%Z] =>
             let v := eval vm_compute in (fold_left Z.add l 0%Z) in
             change (fold_left Z.add l 0%Z) with v
         end.

Lemma month_cases (m : Z) :
  (1 <= m <= 12)%Z ->
  m = 1%Z \/ m = 2%Z \/ m = 3%Z \/ m = 4%Z \/ m = 5%Z \/ m = 6%Z \/
  m = 7%Z \/ m = 8%Z \/ m = 9%Z \/ m = 10%Z \/ m = 11%Z \/ m = 12%Z.
Proof. lia. Qed.

(** The first day of month [m0] and the last day of month [m1] of one
    year, in the order of the months. *)
Lemma season_bounds_order (y m0 m1 : Z) :
  (1 <= m0 <= 12)%Z -> (1 <= m1 <= 12)%Z ->
  ((m0 <= m1)%Z -> (ymd2ord y m0 1 <= ymd2ord y m1 (days_in_month y m1))%Z) /\
  ((m1 < m0)%Z -> (ymd2ord y m1 (days_in_month y m1) < ymd2ord y m0 1)%Z).
Proof.
  intros H0 H1.
  destruct (month_cases m0 H0) as [->|[->|[->|[->|[->|[->|[->|[->|[->|[->|[->| ->]]]]]]]]]]];
  destruct (month_cases m1 H1) as [->|[->|[->|[->|[->|[->|[->|[->|[->|[->|[->| ->]]]]]]]]]]];
  unfold ymd2ord, days_before_month, days_in_month;
  generalize (is_leap y) (days_before_year y); intros leap d;
  destruct leap; eval_folds; cbn; lia.
Qed.

(** What [detect_droughts] has computed when it returns: the seasons of
    the loop, not empty, and one cutoff for all rows. *)
Lemma detect_droughts_Ok_inv (df : DataFrame) (var : string) (months : Z * Z)
    (p : Q) (out : list SeasonSummary) :
  detect_droughts df var months p = Ok out ->
  exists s seasons cut,
    getitem df var = Ok s /\
    seasons_loop (fillna0 s) months
      (sorted_set (map year_of (index (rows df)))) = Ok seasons /\
    seasons <> [] /\
    out = map (fun r : Z * Timestamp * Timestamp * Q =>
                 {| year := fst (fst (fst r)); start := snd (fst (fst r));
                    end_ := snd (fst r); precip := snd r;
                    is_drought := float_le (Some (snd r)) cut; cutoff := cut |})
              seasons.
Proof.
  intros Hout. destruct (has_column df var) eqn:Hcol;
    [|unfold detect_droughts in Hout; rewrite Hcol in Hout; discriminate].
  destruct (has_column_getitem df var Hcol) as [s Hs].
  unfold detect_droughts in Hout. rewrite Hcol, Hs in Hout. cbn [negb bind] in Hout.
  destruct (seasons_loop _ _ _) as [seasons|e] eqn:Hloop; [|discriminate].
  cbn [bind] in Hout. destruct seasons as [|r0 rs]; [discriminate|].
  cbv beta iota in Hout. remember (r0 :: rs) as l eqn:Hl.
  assert (Hne : l <> []) by (subst l; discriminate).
  destruct (nanpercentile _ _) as [cut|e]; [|discriminate]. cbn [bind] in Hout.
  exists s, l, cut. split; [exact Hs|]. split; [exact Hloop|].
  split; [exact Hne|]. injection Hout as <-. apply map_ext.
  intros [[[y st] en] cum]. reflexivity.
Qed.

End SeasonFacts.

(** X13.  [detect_droughts] builds the season of a year from the first
    day of the first month to the last day of the second month of the same
    year.  With months in 1..12: when the first month is not after the
    second, every row has [start <= end]; when it is after (a season across
    the new year, as November to February), the window is empty, so every
    year has [end < start] and a total of zero, and all years get the same
    flag. *)
Theorem detect_droughts_season_window `{K : Kernels} (df : DataFrame)
    (var : string) (months : Z * Z) (percentile : Q) (out : list SeasonSummary) :
  (1 <= fst months <= 12)%Z -> (1 <= snd months <= 12)%Z ->
  detect_droughts df var months percentile = Ok out ->
  ((fst months <= snd months)%Z ->
   forall r, In r out -> (start r <= end_ r)%Z) /\
  ((snd months < fst months)%Z ->
   forall r, In r out ->
     (end_ r < start r)%Z /\ precip r = 0%Q /\
     forall r', In r' out -> is_drought r' = is_drought r).
Proof.
  intros Hm0 Hm1 Hout.
  destruct (detect_droughts_Ok_inv _ _ _ _ _ Hout) as [s [seasons [cut [Hs [Hloop [_ ->]]]]]].
  rewrite (seasons_loop_valid s months _ Hm0 Hm1) in Hloop.
  inversion Hloop; subst seasons. clear Hloop. rewrite map_map. cbn [fst snd].
  assert (Hempty : (snd months < fst months)%Z ->
                   forall y, season_total s months y = 0%Q).
  { intros Hcross y. unfold season_total.
    rewrite filter_none; [reflexivity|]. intros p _.
    pose proof (proj2 (season_bounds_order y _ _ Hm0 Hm1) Hcross) as Hlt.
    unfold season_start, season_end. apply andb_false_iff.
    destruct (Z.leb_spec (ymd2ord y (fst months) 1) (fst p)); [right|left; reflexivity].
    apply Z.leb_gt. lia. }
  split.
  - intros Hle r Hr. apply in_map_iff in Hr. destruct Hr as [y [<- _]].
    cbn [start end_]. unfold season_start, season_end.
    apply (proj1 (season_bounds_order y _ _ Hm0 Hm1) Hle).
  - intros Hcross r Hr. apply in_map_iff in Hr. destruct Hr as [y [<- _]].
    cbn [start end_ precip is_drought]. split; [|split].
    + unfold season_start, season_end.
      apply (proj2 (season_bounds_order y _ _ Hm0 Hm1) Hcross).
    + apply Hempty. exact Hcross.
    + intros r' Hr'. apply in_map_iff in Hr'. destruct Hr' as [y' [<- _]].
      cbn [is_drought]. now rewrite !Hempty.
Qed.

(** X14.  In a table that [detect_droughts] returns every row carries
    the same cutoff, and the flag follows the total: a year with at most the
    total of a flagged year is flagged too. *)
Theorem detect_droughts_drier_years_flagged `{K : Kernels} (df : DataFrame)
    (var : string) (months : Z * Z) (percentile : Q) (out : list SeasonSummary) :
  detect_droughts df var months percentile = Ok out ->
  (forall r1 r2, In r1 out -> In r2 out -> cutoff r1 = cutoff r2) /\
  (forall r1 r2, In r1 out -> In r2 out ->
     is_drought r1 = true -> (precip r2 <= precip r1)%Q -> is_drought r2 = true).
Proof.
  intros Hout.
  destruct (detect_droughts_Ok_inv _ _ _ _ _ Hout) as [s [seasons [cut [_ [_ [_ ->]]]]]].
  split.
  - intros r1 r2 H1 H2. apply in_map_iff in H1, H2.
    destruct H1 as [x1 [<- _]], H2 as [x2 [<- _]]. reflexivity.
  - intros r1 r2 H1 H2. apply in_map_iff in H1, H2.
    destruct H1 as [x1 [<- _]], H2 as [x2 [<- _]]. cbn [is_drought precip].
    destruct cut as [c|]; [|discriminate]. cbn [float_le].
    rewrite !Qle_bool_iff. intros Hflag Hle.
    apply Qle_trans with (snd x1); assumption.
Qed.

(** ** Figures: facts *)

Section FigureFacts.

Context {K : Kernels}.

Lemma filter_index_sorted (f : Timestamp * Q -> bool) (s : list (Timestamp * Q)) :
  StronglySorted Z.lt (index s) -> StronglySorted Z.lt (index (filter f s)).
Proof.
  induction s as [|p s IH]; intros Hs; [constructor|].
  simpl in Hs. inversion Hs as [|u l Hs' Hall]; subst. simpl.
  destruct (f p); [|apply IH; exact Hs'].
  simpl. constructor; [apply IH; exact Hs'|].
  rewrite Forall_forall in *. intros t Ht. apply Hall.
  unfold index in *. apply in_map_iff in Ht. destruct Ht as [q [<- Hq]].
  apply filter_In in Hq. apply in_map. tauto.
Qed.

(** The points that the plot shows. *)
Lemma shown_In (start_ end' : option Timestamp) (s : list (Timestamp * Q))
    (t : Timestamp) (q : Q) :
  In (t, q) (to_end end' (from_start start_ s)) <->
  In (t, q) s /\
  (forall t0, start_ = Some t0 -> (t0 <= t)%Z) /\
  (forall t1, end' = Some t1 -> (t <= t1)%Z).
Proof.
  destruct start_ as [t0|], end' as [t1|]; cbn [to_end from_start];
    rewrite ?filter_In; cbn [fst]; rewrite ?Z.leb_le; split.
  - intros [[H1 H2] H3]. repeat split; auto; intros ? E; inversion E; subst; auto.
  - intros [H1 [H2 H3]]. repeat split; auto.
  - intros [H1 H2]. repeat split; auto; intros ? E; inversion E; subst; auto.
  - intros [H1 [H2 H3]]. repeat split; auto.
  - intros [H1 H2]. repeat split; auto; intros ? E; inversion E; subst; auto.
  - intros [H1 [H2 H3]]. repeat split; auto.
  - intros H1. repeat split; auto; intros ? E; discriminate.
  - tauto.
Qed.

Lemma shown_sorted (start_ end' : option Timestamp) (s : list (Timestamp * Q)) :
  StronglySorted Z.lt (index s) ->
  StronglySorted Z.lt (index (to_end end' (from_start start_ s))).
Proof.
  intros Hs. destruct start_ as [t0|], end' as [t1|]; cbn [to_end from_start];
    repeat apply filter_index_sorted; exact Hs.
Qed.

Lemma combine_index_values (l : list (Timestamp * Q)) :
  combine (index l) (values (to_series l)) = to_series l.
Proof.
  unfold index, values, to_series. induction l as [|p l IH]; [reflexivity|].
  simpl. now rewrite IH.
Qed.

(** On an ascending index the rolling means of a window of at least one
    day that fits in 64 bits are the means of the trailing windows. *)
Lemma rolling_D_mean_ascending (w : Z) (l : list (Timestamp * Q)) :
  (1 <= w <= 106751)%Z -> StronglySorted Z.lt (index l) ->
  rolling_D_mean w l = Ok (map (fun p => (fst p, window_mean l w (fst p))) l).
Proof.
  intros [Hw Hfit] Hs. unfold rolling_D_mean. apply Z.leb_le in Hw. rewrite Hw.
  rewrite (sorted_monotonic _ Hs). cbn [andb].
  rewrite (proj2 (window_fits w) Hfit).
  now rewrite (rolling_loop_window w l [] Hs).
Qed.

Lemma overlay_anomalies_shapes (anomalies : list (Timestamp * Timestamp))
    (color : string) :
  forall fig,
    Plotly.shapes (overlay_anomalies fig anomalies color) =
    Plotly.shapes fig ++ map (vrect color) anomalies /\
    Plotly.data (overlay_anomalies fig anomalies color) = Plotly.data fig /\
    Plotly.title (overlay_anomalies fig anomalies color) = Plotly.title fig.
Proof.
  unfold overlay_anomalies.
  induction anomalies as [|a anomalies IH]; intros fig; cbn [fold_left map].
  - now rewrite app_nil_r.
  - destruct (IH (Plotly.add_vrect fig (vrect color a))) as [H1 [H2 H3]].
    rewrite H1, H2, H3. cbn [Plotly.add_vrect Plotly.shapes Plotly.data Plotly.title].
    now rewrite <- app_assoc.
Qed.

(** A figure that [timeseries_plot] returns has no shape yet. *)
Lemma timeseries_plot_no_shape (df : DataFrame) (var : string)
    (start_ end' : option Timestamp) (rolling : option Z) (fig : Plotly.Figure) :
  timeseries_plot df var start_ end' rolling = Ok fig -> Plotly.shapes fig = [].
Proof.
  unfold timeseries_plot. destruct (has_column df var); [|discriminate].
  cbn [negb]. destruct (getitem df var) as [s|e]; [|discriminate]. cbn [bind].
  destruct rolling as [w|]; [destruct (0 <? w)%Z|].
  - destruct (rolling_D_mean _ _) as [r|e]; [|discriminate]. cbn [bind].
    intros E. inversion E. reflexivity.
  - cbn [bind]. intros E. inversion E. reflexivity.
  - cbn [bind]. intros E. inversion E. reflexivity.
Qed.

End FigureFacts.

(** X15.  [timeseries_plot] raises [KeyError] for a name that is not a
    column.  For a column, an absent, zero or negative [rolling] is ignored:
    no rolling mean is computed, and the figure has the single trace of the
    data and no shape, whatever the rows are. *)
Theorem timeseries_plot_rolling_guard `{K : Kernels} (df : DataFrame)
    (var : string) (start_ end' : option Timestamp) (rolling : option Z) :
  (~ In var (columns df) ->
   timeseries_plot df var start_ end' rolling = Raise (KeyError var)) /\
  (In var (columns df) ->
   (forall w, rolling = Some w -> (w <= 0)%Z) ->
   exists fig,
     timeseries_plot df var start_ end' rolling = Ok fig /\
     List.length (Plotly.data fig) = 1 /\ Plotly.shapes fig = []).
Proof.
  split.
  - intros Hnot. unfold timeseries_plot.
    now rewrite (has_column_not_In df var Hnot).
  - intros Hin Hroll. apply has_column_In in Hin.
    destruct (has_column_getitem df var Hin) as [s Hs].
    unfold timeseries_plot. rewrite Hin, Hs. cbn [negb bind].
    destruct rolling as [w|].
    + specialize (Hroll w eq_refl).
      replace (0 <? w)%Z with false by (symmetry; apply Z.ltb_ge; exact Hroll).
      cbn [bind]. eexists. split; [reflexivity|]. split; reflexivity.
    + cbn [bind]. eexists. split; [reflexivity|]. split; reflexivity.
Qed.

(** X16.  The first trace of a figure that [timeseries_plot] returns is
    named after the variable and holds exactly the non-missing points of the
    variable from [start] to [end], both included when given: as many
    ordinates as abscissas, and no NaN among them. *)
Theorem timeseries_plot_data_trace `{K : Kernels} (df : DataFrame)
    (var : string) (start_ end' : option Timestamp) (rolling : option Z)
    (fig : Plotly.Figure) :
  timeseries_plot df var start_ end' rolling = Ok fig ->
  exists s trace,
    getitem df var = Ok s /\
    hd_error (Plotly.data fig) = Some trace /\
    Plotly.name trace = var /\
    List.length (Plotly.x trace) = List.length (Plotly.y trace) /\
    (forall t v,
        In (t, v) (combine (Plotly.x trace) (Plotly.y trace)) <->
        exists q, v = Some q /\ In (t, Some q) s /\
                  (forall t0, start_ = Some t0 -> (t0 <= t)%Z) /\
                  (forall t1, end' = Some t1 -> (t <= t1)%Z)).
Proof.
  intros Hfig. destruct (has_column df var) eqn:Hcol;
    [|unfold timeseries_plot in Hfig; rewrite Hcol in Hfig; discriminate].
  destruct (has_column_getitem df var Hcol) as [s Hs].
  unfold timeseries_plot in Hfig. rewrite Hcol, Hs in Hfig. cbn [negb bind] in Hfig.
  set (shown := to_end end' (from_start start_ (dropna s))) in *.
  set (trace := {| Plotly.x := index shown; Plotly.y := values (to_series shown);
                   Plotly.mode := "lines"%string; Plotly.name := var |}) in *.
  assert (Hhd : hd_error (Plotly.data fig) = Some trace).
  { destruct rolling as [w|]; [destruct (0 <? w)%Z|].
    - destruct (rolling_D_mean w shown) as [r|e]; [|discriminate].
      cbn [bind] in Hfig. inversion Hfig. reflexivity.
    - cbn [bind] in Hfig. inversion Hfig. reflexivity.
    - cbn [bind] in Hfig. inversion Hfig. reflexivity. }
  exists s, trace. split; [exact Hs|]. split; [exact Hhd|].
  split; [reflexivity|]. split.
  - unfold trace. cbn [Plotly.x Plotly.y]. unfold index, values, to_series.
    now rewrite !length_map.
  - intros t v. unfold trace. cbn [Plotly.x Plotly.y].
    rewrite combine_index_values. unfold to_series. rewrite in_map_iff. split.
    + intros [[u q] [E Hin]]. cbn [fst snd] in E. inversion E; subst.
      apply shown_In in Hin. destruct Hin as [Hin [H0 H1]].
      exists q. split; [reflexivity|]. split; [apply dropna_In; exact Hin|].
      split; assumption.
    + intros [q [-> [Hin [H0 H1]]]]. exists (t, q). split; [reflexivity|].
      apply shown_In. split; [apply dropna_In; exact Hin|]. split; assumption.
Qed.

(** X17.  On an ascending index and with [rolling] from 1 to 106751 days
    (a window that fits in 64 bits of nanoseconds), the figure has a second
    trace named ["<rolling>D rolling"] with the abscissas of the first one; its ordinate at [t] is the mean of the shown
    points in [(t - rolling, t]].  The window is taken after the cut at
    [start]: the first shown point is its own rolling mean, whatever data
    lies before [start]. *)
Theorem timeseries_plot_rolling_trace `{K : Kernels} (df : DataFrame)
    (var : string) (start_ end' : option Timestamp) (w : Z) (s : Series) :
  getitem df var = Ok s ->
  StronglySorted Z.lt (index (rows df)) ->
  (1 <= w <= 106751)%Z ->
  exists fig data_trace rolling_trace,
    timeseries_plot df var start_ end' (Some w) = Ok fig /\
    Plotly.data fig = [data_trace; rolling_trace] /\
    Plotly.x rolling_trace = Plotly.x data_trace /\
    Plotly.name rolling_trace = (str_int w ++ "D rolling")%string /\
    List.length (Plotly.y rolling_trace) = List.length (Plotly.x rolling_trace) /\
    (forall k t, nth_error (Plotly.x rolling_trace) k = Some t ->
       nth_error (Plotly.y rolling_trace) k =
       Some (window_mean (to_end end' (from_start start_ (dropna s))) w t)) /\
    (forall t0 v0 rest,
       to_end end' (from_start start_ (dropna s)) = (t0, v0) :: rest ->
       exists q, hd_error (Plotly.y rolling_trace) = Some (Some q) /\ (q == v0)%Q).
Proof.
  intros Hs Hsorted Hw. rewrite <- (getitem_index _ _ _ Hs) in Hsorted.
  pose proof (shown_sorted start_ end' _ (dropna_sorted s Hsorted)) as Hshown.
  unfold timeseries_plot. rewrite (getitem_has_column _ _ _ Hs), Hs.
  cbn [negb bind].
  replace (0 <? w)%Z with true by (symmetry; apply Z.ltb_lt; lia).
  set (shown := to_end end' (from_start start_ (dropna s))) in *.
  rewrite (rolling_D_mean_ascending w shown Hw Hshown). cbn [bind].
  set (r := map (fun p => (fst p, window_mean shown w (fst p))) shown).
  exists (Plotly.update_layout
            (Plotly.add_trace
               (Plotly.add_trace Plotly.Figure_
                  {| Plotly.x := index shown; Plotly.y := values (to_series shown);
                     Plotly.mode := "lines"; Plotly.name := var |})
               {| Plotly.x := index r; Plotly.y := values r;
                  Plotly.mode := "lines";
                  Plotly.name := (str_int w ++ "D rolling")%string |})
            ("Time series of " ++ var)%string "Date" var),
         {| Plotly.x := index shown; Plotly.y := values (to_series shown);
            Plotly.mode := "lines"%string; Plotly.name := var |},
         {| Plotly.x := index r; Plotly.y := values r;
            Plotly.mode := "lines"%string;
            Plotly.name := (str_int w ++ "D rolling")%string |}.
  split; [reflexivity|]. split; [reflexivity|].
  cbn [Plotly.x Plotly.y Plotly.name]. unfold r.
  split; [unfold index; rewrite map_map; reflexivity|].
  split; [reflexivity|].
  split; [unfold index, values; now rewrite !length_map|]. split.
  - intros k t Hk. unfold index, values in *. rewrite map_map in *. cbn [fst snd] in *.
    destruct (nth_error shown k) as [p|] eqn:Hp.
    + rewrite (map_nth_error _ _ _ Hp) in Hk. inversion Hk; subst.
      now rewrite (map_nth_error _ _ _ Hp).
    + apply nth_error_None in Hp.
      assert (nth_error (map (fun p => fst p) shown) k = None)
        by (apply nth_error_None; now rewrite length_map).
      congruence.
  - intros t0 v0 rest Heq. rewrite Heq in *. cbn [map values hd_error snd fst].
    unfold window_mean.
    pose proof (trailing_rows_window w [] rest t0 v0 Hshown) as Hrows.
    cbn [app] in Hrows. rewrite <- Hrows. cbn [filter fst].
    replace (t0 - w <? t0)%Z with true by (symmetry; apply Z.ltb_lt; lia).
    cbn [values map snd mean List.length]. eexists. split; [reflexivity|].
    unfold Qsum. cbn [fold_left]. change (inject_Z (Z.of_nat 1)) with 1%Q. field.
Qed.

(** X18.  [overlay_anomalies] appends one rectangle per anomaly, in the
    order given, from its start to its end, in the colour asked for, at half
    opacity and without a border; it leaves the traces and the title as they
    are, and overlaying two lists one after the other is overlaying their
    concatenation. *)
Theorem overlay_anomalies_appends (fig : Plotly.Figure)
    (a b : list (Timestamp * Timestamp)) (color : string) :
  Plotly.shapes (overlay_anomalies fig a color) =
    Plotly.shapes fig ++ map (vrect color) a /\
  Plotly.data (overlay_anomalies fig a color) = Plotly.data fig /\
  Plotly.title (overlay_anomalies fig a color) = Plotly.title fig /\
  overlay_anomalies (overlay_anomalies fig a color) b color =
    overlay_anomalies fig (a ++ b) color.
Proof.
  destruct (overlay_anomalies_shapes a color fig) as [H1 [H2 H3]].
  repeat split; try assumption.
  unfold overlay_anomalies. now rewrite fold_left_app.
Qed.

(** X19.  Overlaying the result of [detect_heatwaves] or
    [detect_cold_spells] on a figure of [timeseries_plot], as the dashboard
    does: when the index of the frame searched is ascending, the figure gets
    one rectangle per detected range and nothing else; every rectangle has
    [x0 <= x1], and the rectangles come in chronological order without
    touching. *)
Theorem overlay_detected_ranges `{K : Kernels} (df_plot df : DataFrame)
    (var_plot var : string)
    (start_ end' : option Timestamp) (rolling : option Z) (percentile : Q)
    (min_duration : Z) (color : string) (fig : Plotly.Figure)
    (ranges : list (Timestamp * Timestamp)) :
  StronglySorted Z.lt (index (rows df)) ->
  timeseries_plot df_plot var_plot start_ end' rolling = Ok fig ->
  detect_heatwaves df var percentile min_duration = Ok ranges \/
  detect_cold_spells df var percentile min_duration = Ok ranges ->
  Plotly.data (overlay_anomalies fig ranges color) = Plotly.data fig /\
  List.length (Plotly.shapes (overlay_anomalies fig ranges color))
    = List.length ranges /\
  (forall sh, In sh (Plotly.shapes (overlay_anomalies fig ranges color)) ->
              (Plotly.x0 sh <= Plotly.x1 sh)%Z) /\
  StronglySorted (fun s1 s2 => (Plotly.x1 s1 + 1 < Plotly.x0 s2)%Z)
    (Plotly.shapes (overlay_anomalies fig ranges color)).
Proof.
  intros Hsorted Hfig Hranges.
  destruct (overlay_anomalies_shapes ranges color fig) as [H1 [H2 _]].
  rewrite H1, H2, (timeseries_plot_no_shape _ _ _ _ _ _ Hfig). cbn [app].
  assert (Hdates :
    (forall d1 d2, In (d1, d2) ranges ->
                   (d1 <= d2)%Z /\ (min_duration <= d2 - d1 + 1)%Z) /\
    StronglySorted (fun r1 r2 => (snd r1 + 1 < fst r2)%Z) ranges).
  { destruct Hranges as [Hout|Hout].
    - destruct (detect_heatwaves_Ok_inv _ _ _ _ _ Hout) as [s [thresh [Hs [_ ->]]]].
      rewrite <- (getitem_index _ _ _ Hs) in Hsorted.
      apply detected_dates_sorted; [apply mask_length|exact Hsorted].
    - destruct (detect_cold_spells_Ok_inv _ _ _ _ _ Hout) as [s [thresh [Hs [_ ->]]]].
      rewrite <- (getitem_index _ _ _ Hs) in Hsorted.
      apply detected_dates_sorted; [apply mask_length|exact Hsorted]. }
  destruct Hdates as [Hle Hchron].
  split; [reflexivity|]. split; [apply length_map|]. split.
  - intros sh Hsh. apply in_map_iff in Hsh. destruct Hsh as [[d1 d2] [<- Hin]].
    cbn [vrect Plotly.x0 Plotly.x1 fst snd]. apply (Hle d1 d2 Hin).
  - apply sorted_map with (R := fun r1 r2 => (snd r1 + 1 < fst r2)%Z);
      [|exact Hchron].
    intros r1 r2 _ _ H. exact H.
Qed.

(** ** Loading: facts *)

Section LoaderFacts.

Import Loader.

Lemma label_eqb_eq (a b : Label) : label_eqb a b = true <-> a = b.
Proof.
  destruct a as [u|], b as [v|]; simpl; split; try discriminate; try reflexivity.
  - intros H. apply Z.eqb_eq in H. now subst.
  - intros H. inversion H. apply Z.eqb_refl.
Qed.

Lemma seen_In (l : Label) (seen : list Label) :
  existsb (label_eqb l) seen = true <-> In l seen.
Proof.
  rewrite existsb_exists. split.
  - intros [x [Hin Heq]]. apply label_eqb_eq in Heq. now subst.
  - intros Hin. exists l. split; [exact Hin|now apply label_eqb_eq].
Qed.

Lemma label_le_neq_lt (a b : Label) : label_le a b -> a <> b -> label_lt a b.
Proof.
  destruct a as [u|], b as [v|]; simpl; intros Hle Hne; try tauto.
  assert (u <> v) by congruence. lia.
Qed.

(** The rows that are kept: the rows whose label was not seen. *)
Lemma drop_duplicated_In (rows_ : list (Label * (string -> float))) :
  forall seen,
    (forall r, In r (drop_duplicated seen rows_) ->
               In r rows_ /\ ~ In (fst r) seen) /\
    (forall l, In l (labels rows_) -> ~ In l seen ->
               In l (labels (drop_duplicated seen rows_))).
Proof.
  induction rows_ as [|r rows_ IH]; intros seen; cbn [drop_duplicated].
  - split; [intros r []|intros l []].
  - destruct (existsb (label_eqb (fst r)) seen) eqn:Hseen.
    + apply seen_In in Hseen. destruct (IH seen) as [H1 H2]. split.
      * intros r' Hr'. destruct (H1 r' Hr'). split; [right|]; assumption.
      * intros l [<-|Hl] Hnot; [contradiction|]. apply H2; assumption.
    + assert (Hnot : ~ In (fst r) seen).
      { intros H. apply seen_In in H. congruence. }
      destruct (IH (fst r :: seen)) as [H1 H2]. split.
      * intros r' [<-|Hr']; [split; [left; reflexivity|exact Hnot]|].
        destruct (H1 r' Hr') as [Hin Hn]. split; [right; exact Hin|].
        intros H. apply Hn. right. exact H.
      * intros l Hl Hn. cbn [labels map].
        destruct Hl as [<-|Hl]; [left; reflexivity|].
        destruct (label_eqb (fst r) l) eqn:E.
        -- apply label_eqb_eq in E. left. exact E.
        -- right. apply H2; [exact Hl|]. intros [H|H]; [|contradiction].
           subst l. rewrite (proj2 (label_eqb_eq _ _) eq_refl) in E. discriminate.
Qed.

(** Of sorted rows the kept ones have strictly ascending labels. *)
Lemma drop_duplicated_sorted (rows_ : list (Label * (string -> float))) :
  forall seen,
    StronglySorted label_le (labels rows_) ->
    StronglySorted label_lt (labels (drop_duplicated seen rows_)).
Proof.
  induction rows_ as [|r rows_ IH]; intros seen Hs; cbn [drop_duplicated].
  - constructor.
  - cbn [labels map] in Hs. inversion Hs as [|a l Hs' Hall]; subst.
    destruct (existsb (label_eqb (fst r)) seen); [apply IH; exact Hs'|].
    cbn [labels map]. constructor; [apply IH; exact Hs'|].
    apply Forall_forall. intros l Hl. unfold labels in Hl.
    apply in_map_iff in Hl. destruct Hl as [r' [<- Hr']].
    destruct (proj1 (drop_duplicated_In rows_ (fst r :: seen)) r' Hr') as [Hin Hnot].
    apply label_le_neq_lt.
    + rewrite Forall_forall in Hall. apply Hall. apply in_map. exact Hin.
    + intros E. apply Hnot. left. exact E.
Qed.

Lemma label_lt_sorted_NoDup (l : list Label) :
  StronglySorted label_lt l -> NoDup l.
Proof.
  induction 1 as [|a l Hs IH Hall]; constructor; [|exact IH].
  intros Hin. rewrite Forall_forall in Hall. specialize (Hall a Hin).
  destruct a as [u|]; simpl in Hall; [lia|exact Hall].
Qed.

(** Rows without NaT, with strictly ascending labels, are a frame with an
    ascending index. *)
Lemma dated_sorted (rows_ : list (Label * (string -> float))) :
  forall l, dated rows_ = Some l ->
            StronglySorted label_lt (labels rows_) ->
            StronglySorted Z.lt (index l) /\
            labels rows_ = map Some (index l).
Proof.
  induction rows_ as [|[[t|] row] rows_ IH]; intros l Hd Hs; cbn [dated] in Hd.
  - inversion Hd. split; [constructor|reflexivity].
  - destruct (dated rows_) as [l'|] eqn:Hd'; [|discriminate]. inversion Hd; subst.
    cbn [labels map fst] in Hs. inversion Hs as [|a x Hs' Hall]; subst.
    destruct (IH l' eq_refl Hs') as [IH1 IH2]. split.
    + cbn [index map fst]. constructor; [exact IH1|].
      apply Forall_forall. intros u Hu. rewrite Forall_forall in Hall.
      apply (Hall (Some u)). unfold labels in IH2. rewrite IH2.
      apply in_map. exact Hu.
    + cbn [labels map fst index]. f_equal. exact IH2.
  - discriminate.
Qed.

Lemma insert_row_perm (r : Label * (string -> float))
    (l : list (Label * (string -> float))) :
  Permutation (r :: l) (insert_row r l).
Proof.
  induction l as [|r' l IH]; [apply Permutation_refl|]. cbn [insert_row].
  destruct (label_leb (fst r') (fst r)); [|apply Permutation_refl].
  apply perm_trans with (r' :: r :: l); [apply perm_swap|].
  apply perm_skip. exact IH.
Qed.

Lemma insertion_sort_perm (l : list (Label * (string -> float))) :
  Permutation l (insertion_sort l).
Proof.
  induction l as [|r l IH]; [apply perm_nil|]. cbn [insertion_sort fold_right].
  apply perm_trans with (r :: insertion_sort l); [apply perm_skip; exact IH|].
  apply insert_row_perm.
Qed.

Lemma label_leb_le (a b : Label) : label_leb a b = true <-> label_le a b.
Proof.
  destruct a as [u|], b as [v|]; simpl; rewrite ?Z.leb_le; split; auto;
    try discriminate; try tauto.
Qed.

Lemma label_le_total (a b : Label) : label_leb a b = false -> label_le b a.
Proof.
  destruct a as [u|], b as [v|]; simpl; try discriminate; auto.
  intros H. apply Z.leb_gt in H. lia.
Qed.

Lemma label_le_trans (a b c : Label) : label_le a b -> label_le b c -> label_le a c.
Proof.
  destruct a as [u|], b as [v|], c as [w|]; simpl; try tauto. lia.
Qed.

Lemma insert_row_sorted (r : Label * (string -> float))
    (l : list (Label * (string -> float))) :
  StronglySorted label_le (labels l) ->
  StronglySorted label_le (labels (insert_row r l)).
Proof.
  induction l as [|r' l IH]; intros Hs; cbn [insert_row].
  - cbn [labels map]. constructor; constructor.
  - cbn [labels map] in Hs. inversion Hs as [|a x Hs' Hall]; subst.
    rewrite Forall_forall in Hall.
    destruct (label_leb (fst r') (fst r)) eqn:Hle.
    + cbn [labels map]. constructor; [apply IH; exact Hs'|].
      apply Forall_forall. intros b Hb. unfold labels in Hb.
      apply in_map_iff in Hb. destruct Hb as [q [<- Hq]].
      apply (Permutation_in _ (Permutation_sym (insert_row_perm r l))) in Hq.
      destruct Hq as [<-|Hq]; [apply label_leb_le; exact Hle|].
      apply Hall. apply in_map. exact Hq.
    + apply label_le_total in Hle. cbn [labels map].
      constructor; [constructor; [exact Hs'|apply Forall_forall; exact Hall]|].
      constructor; [exact Hle|]. apply Forall_forall. intros b Hb.
      apply label_le_trans with (fst r'); [exact Hle|apply Hall; exact Hb].
Qed.

Lemma insertion_sort_sorted (l : list (Label * (string -> float))) :
  StronglySorted label_le (labels (insertion_sort l)).
Proof.
  induction l as [|r l IH]; [constructor|]. cbn [insertion_sort fold_right].
  apply insert_row_sorted. exact IH.
Qed.

Section Parsers.

Variable Frame : Type.
Variable shape0 : Frame -> nat.
Variable read_csv : string -> ParserOptions -> option Frame.

(** One turn of the loop of [_try_read_csv]. *)
Lemma try_parsers_cons (path : string) (opts : ParserOptions)
    (rest : list ParserOptions) :
  (forall df,
      try_parsers Frame shape0 read_csv path (opts :: rest) = Some df <->
      (read_csv path opts = Some df /\ 0 < shape0 df) \/
      ((forall d, read_csv path opts = Some d -> shape0 d = 0) /\
       try_parsers Frame shape0 read_csv path rest = Some df)) /\
  (try_parsers Frame shape0 read_csv path (opts :: rest) = None <->
   (forall d, read_csv path opts = Some d -> shape0 d = 0) /\
   try_parsers Frame shape0 read_csv path rest = None).
Proof.
  cbn [try_parsers]. destruct (read_csv path opts) as [d0|].
  - destruct (Nat.ltb_spec 0 (shape0 d0)) as [Hpos|Hzero].
    + split.
      * intros df. split.
        -- intros E. inversion E; subst. left. auto.
        -- intros [[E _]|[Hun _]]; [exact E|].
           specialize (Hun d0 eq_refl). lia.
      * split; [discriminate|]. intros [Hun _]. specialize (Hun d0 eq_refl). lia.
    + split.
      * intros df. split.
        -- intros E. right. split; [|exact E]. intros d Hd. inversion Hd; subst. lia.
        -- intros [[E Hp]|[_ E]]; [|exact E]. inversion E; subst. lia.
      * split; [|tauto]. intros E. split; [|exact E].
        intros d Hd. inversion Hd; subst. lia.
  - split.
    + intros df. split.
      * intros E. right. split; [discriminate|exact E].
      * intros [[E _]|[_ E]]; [discriminate|exact E].
    + split; [|tauto]. intros E. split; [discriminate|exact E].
Qed.

End Parsers.

End LoaderFacts.

(** X20.  [_try_read_csv] returns the frame of the first attempt, in the
    order whitespace, comma, tab, that neither raises nor gives a frame
    without rows: a later attempt is used only when every attempt before it
    raised or gave no row, an exception of [read_csv] is never passed on,
    and the result is [None] exactly when no attempt is usable. *)
Theorem try_read_csv_first_usable (Frame : Type) (shape0 : Frame -> nat)
    (read_csv : string -> Loader.ParserOptions -> option Frame) (path : string) :
  let usable opts df := read_csv path opts = Some df /\ 0 < shape0 df in
  let unusable opts := forall d, read_csv path opts = Some d -> shape0 d = 0 in
  (forall df,
      Loader._try_read_csv Frame shape0 read_csv path = Some df <->
      usable Loader.delim_whitespace df \/
      (unusable Loader.delim_whitespace /\ usable (Loader.sep ",") df) \/
      (unusable Loader.delim_whitespace /\ unusable (Loader.sep ",") /\
       usable (Loader.sep Loader.tab) df)) /\
  (Loader._try_read_csv Frame shape0 read_csv path = None <->
   unusable Loader.delim_whitespace /\ unusable (Loader.sep ",") /\
   unusable (Loader.sep Loader.tab)) /\
  (forall df, Loader._try_read_csv Frame shape0 read_csv path = Some df ->
              0 < shape0 df).
Proof.
  intros usable unusable. subst usable unusable. unfold Loader._try_read_csv, Loader.parsers.
  pose proof (try_parsers_cons Frame shape0 read_csv path Loader.delim_whitespace
                [Loader.sep ","; Loader.sep Loader.tab]) as [S1 N1].
  pose proof (try_parsers_cons Frame shape0 read_csv path (Loader.sep ",")
                [Loader.sep Loader.tab]) as [S2 N2].
  pose proof (try_parsers_cons Frame shape0 read_csv path (Loader.sep Loader.tab)
                []) as [S3 N3].
  assert (Hsome : forall df,
    Loader.try_parsers Frame shape0 read_csv path
      [Loader.delim_whitespace; Loader.sep ","; Loader.sep Loader.tab] = Some df <->
    (read_csv path Loader.delim_whitespace = Some df /\ 0 < shape0 df) \/
    ((forall d, read_csv path Loader.delim_whitespace = Some d -> shape0 d = 0) /\
     read_csv path (Loader.sep ",") = Some df /\ 0 < shape0 df) \/
    ((forall d, read_csv path Loader.delim_whitespace = Some d -> shape0 d = 0) /\
     (forall d, read_csv path (Loader.sep ",") = Some d -> shape0 d = 0) /\
     read_csv path (Loader.sep Loader.tab) = Some df /\ 0 < shape0 df)).
  { intros df. rewrite (S1 df), (S2 df), (S3 df). cbn [Loader.try_parsers]. split.
    - intros [H|[H1 [H|[H2 [H|[_ H]]]]]]; [tauto|tauto|tauto|discriminate].
    - tauto. }
  split; [exact Hsome|]. split.
  - rewrite N1, N2, N3. cbn [Loader.try_parsers]. tauto.
  - intros df Hdf. apply Hsome in Hdf.
    destruct Hdf as [[_ H]|[[_ [_ H]]|[_ [_ [_ H]]]]]; exact H.
Qed.

Section LoadFacts.

Import Loader.

Variable Frame : Type.
Variable shape0 : Frame -> nat.
Variable path_exists : string -> bool.
Variable str_path : string -> string.
Variable read_csv : string -> ParserOptions -> option Frame.
Variable read_fwf : string -> option Frame.
Variable prepare : Frame -> outcome Indexed.
Variable sort_index :
  list (Label * (string -> float)) -> list (Label * (string -> float)).

Hypothesis sort_index_perm : forall l, Permutation l (sort_index l).
Hypothesis sort_index_sorted :
  forall l, StronglySorted label_le (labels (sort_index l)).

(** What the loader has done when it returns a frame. *)
Lemma load_cambridge_data_Loaded_inv (path : string) (df : Indexed) :
  load_cambridge_data Frame shape0 path_exists str_path read_csv read_fwf
    prepare sort_index path = Loaded df ->
  path_exists path = true /\
  exists raw prepared,
    (_try_read_csv Frame shape0 read_csv (str_path path) = Some raw \/
     (_try_read_csv Frame shape0 read_csv (str_path path) = None /\
      read_fwf path = Some raw)) /\
    prepare raw = Loaded prepared /\
    df = sort_and_clean sort_index prepared.
Proof.
  unfold load_cambridge_data. destruct (path_exists path); [|discriminate].
  cbn [negb]. intros H. split; [reflexivity|].
  destruct (_try_read_csv Frame shape0 read_csv (str_path path)) as [raw|] eqn:Ht.
  - destruct (prepare raw) as [prepared|e] eqn:Hp; [|discriminate].
    inversion H. exists raw, prepared. auto.
  - destruct (read_fwf path) as [raw|] eqn:Hf; [|discriminate].
    destruct (prepare raw) as [prepared|e] eqn:Hp; [|discriminate].
    inversion H. exists raw, prepared. auto.
Qed.

Lemma notna_any_spec (rows_ : list (Label * (string -> float))) (c : string) :
  notna_any rows_ c = true <-> exists r, In r rows_ /\ snd r c <> nan.
Proof.
  unfold notna_any. rewrite existsb_exists. split.
  - intros [r [Hin Hr]]. exists r. split; [exact Hin|].
    destruct (snd r c); [discriminate|discriminate].
  - intros [r [Hin Hr]]. exists r. split; [exact Hin|].
    destruct (snd r c); [reflexivity|contradiction].
Qed.

Lemma sort_and_clean_labels (df : Indexed) :
  StronglySorted label_lt (labels (irows (sort_and_clean sort_index df))).
Proof.
  unfold sort_and_clean. cbn [irows].
  apply drop_duplicated_sorted. apply sort_index_sorted.
Qed.

Lemma sort_and_clean_rows (df : Indexed) :
  (forall r, In r (irows (sort_and_clean sort_index df)) -> In r (irows df)) /\
  (forall l, In l (labels (irows (sort_and_clean sort_index df))) <->
             In l (labels (irows df))).
Proof.
  unfold sort_and_clean. cbn [irows].
  destruct (drop_duplicated_In (sort_index (irows df)) []) as [H1 H2]. split.
  - intros r Hr. destruct (H1 r Hr) as [Hin _].
    apply (Permutation_in _ (Permutation_sym (sort_index_perm (irows df)))).
    exact Hin.
  - intros l. split.
    + intros Hl. unfold labels in *. apply in_map_iff in Hl.
      destruct Hl as [r [<- Hr]]. apply in_map. destruct (H1 r Hr) as [Hin _].
      apply (Permutation_in _ (Permutation_sym (sort_index_perm (irows df)))).
      exact Hin.
    + intros Hl. apply H2; [|intros []]. unfold labels in *.
      apply in_map_iff in Hl. destruct Hl as [r [<- Hr]]. apply in_map.
      apply (Permutation_in _ (sort_index_perm (irows df))). exact Hr.
Qed.

End LoadFacts.

(** X21.  Whatever the file holds, a frame that [load_cambridge_data]
    returns has strictly ascending labels: the dates are distinct and in
    order, and a NaT label, if any, occurs once, after the dates.  Every
    column that is left holds a value in at least one row.  When no label is
    NaT the frame has the ascending index that the analysis functions rely
    on.  ([df.sort_index()] may be any sort of the rows by label.) *)
Theorem load_cambridge_data_sorted_index (Frame : Type) (shape0 : Frame -> nat)
    (path_exists : string -> bool) (str_path : string -> string)
    (read_csv : string -> Loader.ParserOptions -> option Frame)
    (read_fwf : string -> option Frame)
    (prepare : Frame -> Loader.outcome Loader.Indexed)
    (sort_index : list (Loader.Label * (string -> float)) ->
                  list (Loader.Label * (string -> float)))
    (path : string) (df : Loader.Indexed) :
  (forall l, Permutation l (sort_index l)) ->
  (forall l, StronglySorted Loader.label_le (Loader.labels (sort_index l))) ->
  Loader.load_cambridge_data Frame shape0 path_exists str_path read_csv read_fwf
    prepare sort_index path = Loader.Loaded df ->
  StronglySorted Loader.label_lt (Loader.labels (Loader.irows df)) /\
  NoDup (Loader.labels (Loader.irows df)) /\
  (forall c, In c (Loader.icolumns df) ->
             exists r, In r (Loader.irows df) /\ snd r c <> nan) /\
  (forall d, Loader.to_DataFrame df = Some d ->
             StronglySorted Z.lt (index (rows d)) /\
             columns d = Loader.icolumns df).
Proof.
  intros Hperm Hsorted Hload.
  destruct (load_cambridge_data_Loaded_inv _ _ _ _ _ _ _ _ _ _ Hload)
    as [_ [raw [prepared [_ [_ ->]]]]].
  pose proof (sort_and_clean_labels sort_index Hsorted prepared) as Hlt.
  split; [exact Hlt|]. split; [apply label_lt_sorted_NoDup; exact Hlt|]. split.
  - intros c Hc. unfold Loader.sort_and_clean in Hc. cbn [Loader.icolumns] in Hc.
    apply filter_In in Hc. destruct Hc as [_ Hc].
    apply notna_any_spec in Hc. exact Hc.
  - intros d Hd. unfold Loader.to_DataFrame in Hd.
    destruct (Loader.dated _) as [l|] eqn:Hdated; [|discriminate].
    inversion Hd; subst d. cbn [rows columns]. split; [|reflexivity].
    apply (dated_sorted _ l Hdated Hlt).
Qed.

(** X22.  The last steps of [load_cambridge_data] invent nothing and lose
    no date: the frame it returns has the labels of the frame it prepared
    from the file, each once, every row is a row of that frame, and a column
    is kept exactly when it is a column of that frame with a value in some
    kept row.  The file exists, and the frame was read by [read_fwf] only
    if [_try_read_csv] had returned [None]. *)
Theorem load_cambridge_data_keeps_rows (Frame : Type) (shape0 : Frame -> nat)
    (path_exists : string -> bool) (str_path : string -> string)
    (read_csv : string -> Loader.ParserOptions -> option Frame)
    (read_fwf : string -> option Frame)
    (prepare : Frame -> Loader.outcome Loader.Indexed)
    (sort_index : list (Loader.Label * (string -> float)) ->
                  list (Loader.Label * (string -> float)))
    (path : string) (df : Loader.Indexed) :
  (forall l, Permutation l (sort_index l)) ->
  Loader.load_cambridge_data Frame shape0 path_exists str_path read_csv read_fwf
    prepare sort_index path = Loader.Loaded df ->
  path_exists path = true /\
  exists raw prepared,
    (Loader._try_read_csv Frame shape0 read_csv (str_path path) = Some raw \/
     (Loader._try_read_csv Frame shape0 read_csv (str_path path) = None /\
      read_fwf path = Some raw)) /\
    prepare raw = Loader.Loaded prepared /\
    (forall l, In l (Loader.labels (Loader.irows df)) <->
               In l (Loader.labels (Loader.irows prepared))) /\
    (forall r, In r (Loader.irows df) -> In r (Loader.irows prepared)) /\
    (forall c, In c (Loader.icolumns df) <->
               In c (Loader.icolumns prepared) /\
               exists r, In r (Loader.irows df) /\ snd r c <> nan).
Proof.
  intros Hperm Hload.
  destruct (load_cambridge_data_Loaded_inv _ _ _ _ _ _ _ _ _ _ Hload)
    as [Hex [raw [prepared [Hread [Hprep ->]]]]].
  split; [exact Hex|]. exists raw, prepared.
  split; [exact Hread|]. split; [exact Hprep|].
  destruct (sort_and_clean_rows sort_index Hperm prepared) as [Hrows Hlabels].
  split; [exact Hlabels|]. split; [exact Hrows|].
  intros c. unfold Loader.sort_and_clean at 1. cbn [Loader.icolumns].
  rewrite filter_In, notna_any_spec. reflexivity.
Qed.

(** ** The other functions at work on sample data *)

Lemma swing_week_sorted :
  StronglySorted Z.lt (index (rows (Samples.frame_T MoreSamples.swing_week))).
Proof. repeat constructor. Qed.

(** The two cold days at the ends of the week with a missing day. *)
Lemma detect_cold_spells_runs_witness :
  detect_cold_spells (Samples.frame_T Samples.gapped_week) "T" 50 1
  = Ok [(Samples.day 2000 1 1, Samples.day 2000 1 1);
        (Samples.day 2000 1 7, Samples.day 2000 1 7)] /\
  ~ below Samples.gapped_week (Some 9%Q) 1.
Proof.
  destruct (detect_cold_spells_runs (Samples.frame_T Samples.gapped_week) "T"
              50 1 Samples.gapped_week (Some 9%Q)) as [out [Hout [_ Hedge]]].
  - vm_compute. reflexivity.
  - vm_compute. reflexivity.
  - split.
    + vm_compute. reflexivity.
    + apply (Hedge 1 9%Q); reflexivity.
Defined.

(** The only error on this frame is the missing column. *)
Lemma detectors_raise_only_witness :
  (~ In "TMAX"%string (columns (Samples.frame_T Samples.gapped_week)) /\
   KeyError "TMAX" = KeyError "TMAX") \/
  (exists s, getitem (Samples.frame_T Samples.gapped_week) "TMAX" = Ok s /\
             nanpercentile (values (dropna s)) 90 = Raise (KeyError "TMAX")).
Proof.
  apply (detectors_raise_only (Samples.frame_T Samples.gapped_week) "TMAX"
           90 3 (KeyError "TMAX")).
  left. vm_compute. reflexivity.
Defined.

(** Two heatwaves of two days: none is left when three days are asked for. *)
Lemma detectors_min_duration_monotone_witness :
  exists out2,
    detect_heatwaves (Samples.frame_T Samples.gapped_week) "T" 20 3 = Ok out2 /\
    List.length out2 <= 2.
Proof.
  destruct (detectors_min_duration_monotone (Samples.frame_T Samples.gapped_week)
              "T" 20 2 3) as [Hheat _]; [lia|].
  destruct (Hheat [(Samples.day 2000 1 2, Samples.day 2000 1 3);
                   (Samples.day 2000 1 5, Samples.day 2000 1 6)])
    as [out2 [Hout2 [_ Hlen]]].
  - vm_compute. reflexivity.
  - exists out2. split; [exact Hout2|exact Hlen].
Defined.

(** A column of missing values: the percentile is NaN, nothing is detected. *)
Lemma detectors_nothing_to_detect_witness :
  detect_heatwaves (Samples.frame_T MoreSamples.all_missing) "T" 90 3 = Ok [] /\
  detect_cold_spells (Samples.frame_T MoreSamples.all_missing) "T" 10 3 = Ok [].
Proof.
  split.
  - destruct (detectors_nothing_to_detect (Samples.frame_T MoreSamples.all_missing)
                "T" 90 3 MoreSamples.all_missing nan) as [_ [_ Hnan]].
    + vm_compute. reflexivity.
    + vm_compute. reflexivity.
    + apply Hnan. reflexivity.
  - destruct (detectors_nothing_to_detect (Samples.frame_T MoreSamples.all_missing)
                "T" 10 3 MoreSamples.all_missing nan) as [_ [_ Hnan]].
    + vm_compute. reflexivity.
    + vm_compute. reflexivity.
    + apply Hnan. reflexivity.
Defined.

(** The two cold spells of the swing week, in order and apart. *)
Lemma detected_ranges_chronological_witness :
  StronglySorted (fun r1 r2 => (snd r1 + 1 < fst r2)%Z)
    [(Samples.day 2000 1 1, Samples.day 2000 1 2);
     (Samples.day 2000 1 7, Samples.day 2000 1 8)].
Proof.
  apply (detected_ranges_chronological (Samples.frame_T MoreSamples.swing_week)
           "T" 50 2).
  - exact swing_week_sorted.
  - right. vm_compute. reflexivity.
Defined.

(** The heatwave of the swing week lies between its two cold spells. *)
Lemma heatwaves_and_cold_spells_disjoint_witness :
  (Samples.day 2000 1 6 < Samples.day 2000 1 7)%Z \/
  (Samples.day 2000 1 8 < Samples.day 2000 1 3)%Z.
Proof.
  apply (heatwaves_and_cold_spells_disjoint
           (Samples.frame_T MoreSamples.swing_week) "T" 50 50 2 2
           MoreSamples.swing_week (Some 3%Q) (Some 3%Q)
           [(Samples.day 2000 1 3, Samples.day 2000 1 6)]
           [(Samples.day 2000 1 1, Samples.day 2000 1 2);
            (Samples.day 2000 1 7, Samples.day 2000 1 8)]).
  - vm_compute. reflexivity.
  - exact swing_week_sorted.
  - vm_compute. reflexivity.
  - vm_compute. reflexivity.
  - reflexivity.
  - vm_compute. reflexivity.
  - vm_compute. reflexivity.
  - left. reflexivity.
  - right. left. reflexivity.
Defined.

(** The three rolling means of the sparse days lie between 2 and 9. *)
Lemma rolling_mean_within_records_witness :
  exists q, Some (6 # 2)%Q = Some q /\ (2 <= q <= 9)%Q.
Proof.
  apply (rolling_mean_within_records (Samples.frame_T Samples.sparse_days) "T" 3
           {| max_value := 9; max_date := Samples.day 2000 1 20;
              min_value := 2; min_date := Samples.day 2000 1 1 |}
           [(Samples.day 2000 1 1, Some 2%Q);
            (Samples.day 2000 1 3, Some (6 # 2)%Q);
            (Samples.day 2000 1 20, Some 9%Q)]
           sparse_days_sorted) with (t := Samples.day 2000 1 3).
  - lia.
  - vm_compute. reflexivity.
  - vm_compute. reflexivity.
  - right. left. reflexivity.
Defined.

(** With a window of one day the sparse days come back as they are. *)
Lemma rolling_mean_one_day_witness :
  exists out,
    rolling_mean (Samples.frame_T Samples.sparse_days) "T" 1 = Ok out /\
    List.length out = 3.
Proof.
  destruct (rolling_mean_one_day (Samples.frame_T Samples.sparse_days) "T"
              Samples.sparse_days) as [out [Hout [Hlen _]]].
  - vm_compute. reflexivity.
  - exact sparse_days_sorted.
  - exists out. split; [exact Hout|exact Hlen].
Defined.

(** Six yearly buckets of rain: a slope, and no p-value without scipy. *)
Lemma estimate_trend_result_shape_witness :
  exists s ser,
    getitem (Samples.frame_T Samples.rain) "T" = Ok s /\
    resample_mean "A" (dropna s) = Ok ser /\
    (Some (Some (109 # 35)%Q) = None <-> mask_sum ser < 2).
Proof.
  apply (estimate_trend_result_shape (Samples.frame_T Samples.rain) "T" "A"
           (Some (Some (109 # 35)%Q)) None).
  vm_compute. reflexivity.
Defined.

(** The slope of the rain is the one of [np.polyfit] on six points. *)
Lemma estimate_trend_single_fit_witness :
  exists s ser,
    getitem (Samples.frame_T Samples.rain) "T" = Ok s /\
    resample_mean "A" (dropna s) = Ok ser /\
    2 <= List.length (valid_points ser).
Proof.
  destruct (estimate_trend_single_fit (Samples.frame_T Samples.rain) "T" "A"
              (Some (109 # 35)%Q) None) as [s [ser [Hs [Hser [Hlen _]]]]].
  - vm_compute. reflexivity.
  - exists s, ser. split; [exact Hs|]. split; [exact Hser|exact Hlen].
Defined.

(** A season from November to February: no row falls in it. *)
Lemma detect_droughts_season_window_witness :
  exists out,
    detect_droughts (Samples.frame_T Samples.rain) "T" (11, 2)%Z 20 = Ok out /\
    forall r, In r out -> (end_ r < start r)%Z /\ precip r = 0%Q.
Proof.
  destruct (detect_droughts (Samples.frame_T Samples.rain) "T" (11, 2)%Z 20)
    as [out|e] eqn:Hout; [|vm_compute in Hout; discriminate Hout].
  exists out. split; [reflexivity|].
  destruct (detect_droughts_season_window (Samples.frame_T Samples.rain) "T"
              (11, 2)%Z 20 out) as [_ Hcross].
  - simpl. lia.
  - simpl. lia.
  - exact Hout.
  - intros r Hr. destruct (Hcross ltac:(simpl; lia) r Hr) as [H1 [H2 _]].
    split; assumption.
Defined.

(** The rain from April to September: one cutoff for the six years. *)
Lemma detect_droughts_drier_years_flagged_witness :
  exists out,
    detect_droughts (Samples.frame_T Samples.rain) "T" (4, 9)%Z 20 = Ok out /\
    forall r1 r2, In r1 out -> In r2 out -> cutoff r1 = cutoff r2.
Proof.
  destruct (detect_droughts (Samples.frame_T Samples.rain) "T" (4, 9)%Z 20)
    as [out|e] eqn:Hout; [|vm_compute in Hout; discriminate Hout].
  exists out. split; [reflexivity|].
  apply (detect_droughts_drier_years_flagged (Samples.frame_T Samples.rain) "T"
           (4, 9)%Z 20 out Hout).
Defined.

(** The sparse days from 3 January on: two points. *)
Lemma timeseries_plot_data_trace_witness :
  exists fig s trace,
    timeseries_plot (Samples.frame_T Samples.sparse_days) "T"
      (Some (Samples.day 2000 1 3)) None (Some 30%Z) = Ok fig /\
    getitem (Samples.frame_T Samples.sparse_days) "T" = Ok s /\
    hd_error (Plotly.data fig) = Some trace /\
    Plotly.name trace = "T"%string.
Proof.
  destruct (timeseries_plot (Samples.frame_T Samples.sparse_days) "T"
              (Some (Samples.day 2000 1 3)) None (Some 30%Z))
    as [fig|e] eqn:Hfig; [|vm_compute in Hfig; discriminate Hfig].
  destruct (timeseries_plot_data_trace (Samples.frame_T Samples.sparse_days) "T"
              (Some (Samples.day 2000 1 3)) None (Some 30%Z) fig Hfig)
    as [s [trace [Hs [Hhd [Hname _]]]]].
  exists fig, s, trace. repeat split; assumption.
Defined.

(** The rolling trace of the same plot: the point of 3 January is its own
    mean, although 1 January is within thirty days. *)
Lemma timeseries_plot_rolling_trace_witness :
  exists fig data_trace rolling_trace,
    timeseries_plot (Samples.frame_T Samples.sparse_days) "T"
      (Some (Samples.day 2000 1 3)) None (Some 30%Z) = Ok fig /\
    Plotly.data fig = [data_trace; rolling_trace] /\
    Plotly.name rolling_trace = "30D rolling"%string /\
    exists q, hd_error (Plotly.y rolling_trace) = Some (Some q) /\ (q == 4)%Q.
Proof.
  destruct (timeseries_plot_rolling_trace (Samples.frame_T Samples.sparse_days)
              "T" (Some (Samples.day 2000 1 3)) None 30 Samples.sparse_days)
    as [fig [d [r [Hfig [Hdata [_ [Hname [_ [_ Hfirst]]]]]]]]].
  - vm_compute. reflexivity.
  - exact sparse_days_sorted.
  - lia.
  - exists fig, d, r. split; [exact Hfig|]. split; [exact Hdata|].
    split; [exact Hname|].
    apply (Hfirst (Samples.day 2000 1 3) 4%Q [(Samples.day 2000 1 20, 9%Q)]).
    vm_compute. reflexivity.
Defined.

(** The cold spells of the swing week laid over its plot: two rectangles. *)
Lemma overlay_detected_ranges_witness :
  exists fig ranges,
    timeseries_plot (Samples.frame_T MoreSamples.swing_week) "T" None None None
    = Ok fig /\
    detect_cold_spells (Samples.frame_T MoreSamples.swing_week) "T" 50 2
    = Ok ranges /\
    List.length (Plotly.shapes (overlay_anomalies fig ranges "rgba(255,0,0,0.2)"))
    = 2.
Proof.
  destruct (timeseries_plot (Samples.frame_T MoreSamples.swing_week) "T"
              None None None) as [fig|e] eqn:Hfig;
    [|vm_compute in Hfig; discriminate Hfig].
  exists fig,
    [(Samples.day 2000 1 1, Samples.day 2000 1 2);
     (Samples.day 2000 1 7, Samples.day 2000 1 8)].
  assert (Hcold : detect_cold_spells (Samples.frame_T MoreSamples.swing_week)
                    "T" 50 2
                  = Ok [(Samples.day 2000 1 1, Samples.day 2000 1 2);
                        (Samples.day 2000 1 7, Samples.day 2000 1 8)])
    by (vm_compute; reflexivity).
  split; [reflexivity|]. split; [exact Hcold|].
  destruct (overlay_detected_ranges (Samples.frame_T MoreSamples.swing_week)
              (Samples.frame_T MoreSamples.swing_week) "T" "T"
              None None None 50 2 "rgba(255,0,0,0.2)" fig _ swing_week_sorted
              Hfig (or_intror Hcold)) as [_ [Hlen _]].
  exact Hlen.
Defined.

(** The sample file: the rows come back in the order of the dates, the
    date read twice is kept once, the row without a date is last, and the
    column without a value is gone. *)
Lemma load_cambridge_data_sorted_index_witness :
  MoreSamples.sample_load "data/cambridge.txt"
  = Loader.Loaded (Loader.sort_and_clean Loader.insertion_sort
                     MoreSamples.prepared_frame) /\
  Loader.labels (Loader.irows (Loader.sort_and_clean Loader.insertion_sort
                                 MoreSamples.prepared_frame))
  = [Some (Samples.day 2020 1 1); Some (Samples.day 2020 1 2);
     Some (Samples.day 2020 1 3); None] /\
  Loader.icolumns (Loader.sort_and_clean Loader.insertion_sort
                     MoreSamples.prepared_frame) = ["T"%string] /\
  NoDup (Loader.labels (Loader.irows (Loader.sort_and_clean Loader.insertion_sort
                                        MoreSamples.prepared_frame))).
Proof.
  assert (Hload : MoreSamples.sample_load "data/cambridge.txt"
                  = Loader.Loaded (Loader.sort_and_clean Loader.insertion_sort
                                     MoreSamples.prepared_frame))
    by reflexivity.
  split; [exact Hload|]. split; [vm_compute; reflexivity|].
  split; [vm_compute; reflexivity|].
  destruct (load_cambridge_data_sorted_index _ _ _ _ _ _ _ _ _ _
              insertion_sort_perm insertion_sort_sorted Hload) as [_ [Hnodup _]].
  exact Hnodup.
Defined.

(** Every row of the loaded sample is a row of the prepared frame. *)
Lemma load_cambridge_data_keeps_rows_witness :
  exists raw prepared,
    (Loader._try_read_csv Loader.Indexed
       (fun df => List.length (Loader.irows df)) MoreSamples.sample_read_csv
       "data/cambridge.txt" = Some raw \/
     (Loader._try_read_csv Loader.Indexed
        (fun df => List.length (Loader.irows df)) MoreSamples.sample_read_csv
        "data/cambridge.txt" = None /\ @None Loader.Indexed = Some raw)) /\
    Loader.Loaded raw = Loader.Loaded prepared /\
    forall r, In r (Loader.irows (Loader.sort_and_clean Loader.insertion_sort
                                    MoreSamples.prepared_frame)) ->
              In r (Loader.irows prepared).
Proof.
  destruct (load_cambridge_data_keeps_rows Loader.Indexed
              (fun df => List.length (Loader.irows df))
              (fun p => String.eqb p "data/cambridge.txt") (fun p => p)
              MoreSamples.sample_read_csv (fun _ => None)
              (fun df => Loader.Loaded df) Loader.insertion_sort
              "data/cambridge.txt"
              (Loader.sort_and_clean Loader.insertion_sort
                 MoreSamples.prepared_frame)
              insertion_sort_perm eq_refl)
    as [_ [raw [prepared [Hread [Hprep [_ [Hrows _]]]]]]].
  exists raw, prepared. split; [exact Hread|]. split; [exact Hprep|exact Hrows].
Defined.
